(** * tug: a shallow embedding of [tug/main.py]

    The command-line front end of tugboat is a single Python module.  It
    drives docker-compose's [Project] object and the docker client, keeps
    a dictionary of "unknown" containers, and prints tables.

    The embedding follows the module top to bottom:
    - Python values: strings, exceptions, insertion-ordered dictionaries;
    - the external collaborators (compose, docker, the file system) as an
      oracle record [Env] whose answers may depend on the engine calls
      issued so far;
    - a state-and-exception monad [M] over the list of engine calls and the
      lines printed;
    - the methods of [class Usage] and [main], in source order;
    - the properties established about them. *)

From Stdlib Require Import ZArith String Ascii List Lia Bool.
From stdpp Require Import base list strings gmap pretty.

Open Scope list_scope.

(** ** Python strings *)

(** [s.endswith(suffix)] *)
Definition endswith (s suffix : string) : bool :=
  let n := String.length s in
  let k := String.length suffix in
  (k <=? n)%nat && String.eqb (substring (n - k) k s) suffix.

(** [s.startswith(p)] *)
Definition startswith (s p : string) : bool := String.prefix p s.

(** [s[:-k]] for a positive literal [k] *)
Definition slice_to_neg (k : nat) (s : string) : string :=
  substring 0 (String.length s - k) s.

(** [s[k:]] *)
Definition slice_from (k : nat) (s : string) : string :=
  substring k (String.length s - k) s.

(** [sep.join(l)] *)
Definition join (sep : string) (l : list string) : string :=
  String.concat sep l.

(** The format field [{x: <w}]: left-justified, space-padded to width [w],
    never truncated.  Strings are byte strings here and the width is
    counted in bytes; Python counts characters, which is the same for ASCII
    text. *)
Definition ljust (w : nat) (s : string) : string :=
  s +:+ string_of_list_ascii (repeat " "%char (w - String.length s)).

(** The row layout shared by the status view and the unknown-container
    listing: ['  {name: <24}{state: <12}{ip: <17}'.format(...)]. *)
Definition status_row (name state ip : string) : string :=
  "  " +:+ ljust 24 name +:+ ljust 12 state +:+ ljust 17 ip.

(** ['  {name: <24}{action: <12}{containers}'.format(...)] *)
Definition plan_row (name action containers : string) : string :=
  "  " +:+ ljust 24 name +:+ ljust 12 action +:+ containers.

(** ['  {name: <24}{action: <12}'.format(...)] *)
Definition orphan_row (name action : string) : string :=
  "  " +:+ ljust 24 name +:+ ljust 12 action.

(** ** Exceptions *)

Inductive exit_arg :=
| ExitCode (n : Z)
| ExitText (s : string).

Inductive exn :=
| KeyboardInterrupt
| NoSuchService (msg : string)
| ConfigurationError (msg : string)
| LegacyContainersError (msg : string)
| APIError (explanation : string)
| BuildError (service reason : string)
| ReadTimeout
| DocoptExit
| KeyError (key : string)
| TypeError
| SystemExit (arg : exit_arg)
| OtherError (name : string).

(** ** Insertion-ordered dictionaries with string keys

    [unknown], [plans] and [counts] are Python dicts.  They are iterated
    ([for id in unknown]), so the order of the keys is part of the model:
    a dictionary is the list of its items in iteration order, with at most
    one item per key. *)

Definition dict (V : Type) := list (string * V).

Definition dict_keys {V} (d : dict V) : list string := map fst d.

Fixpoint dict_get {V} (d : dict V) (k : string) : option V :=
  match d with
  | [] => None
  | (k', v) :: d' => if String.eqb k' k then Some v else dict_get d' k
  end.

(** [d[k] = v]: an existing key keeps its position, a new key goes last. *)
Fixpoint dict_set {V} (d : dict V) (k : string) (v : V) : dict V :=
  match d with
  | [] => [(k, v)]
  | (k', v') :: d' =>
      if String.eqb k' k then (k', v) :: d' else (k', v') :: dict_set d' k v
  end.

(** [del d[k]]: [None] stands for the [KeyError] Python raises when the key
    is absent. *)
Fixpoint dict_del {V} (d : dict V) (k : string) : option (dict V) :=
  match d with
  | [] => None
  | (k', v) :: d' =>
      if String.eqb k' k then Some d'
      else match dict_del d' k with
           | Some d'' => Some ((k', v) :: d'')
           | None => None
           end
  end.

(** ** The objects handed out by compose and docker *)

(** The parsed project file; only the declared service names are kept. *)
Record Config := { config_services : list string }.

Record Project := { project_name : string; project_config : Config }.

Record Service := { service_name : string }.

(** A [compose.container.Container]: the attributes this module reads. *)
Record Container := {
  container_id : string;
  container_name : string;
  name_without_project : string;
  is_running : bool;
  human_readable_state : string;
  (** [container.get('NetworkSettings.IPAddress')] *)
  container_ip : string
}.

(** A [ConvergencePlan(action, containers)]. *)
Record ConvergencePlan := {
  plan_action : string;
  plan_containers : list Container
}.

(** The part of [client.inspect_container(id)] that [_ps] reads. *)
Record Detail := {
  detail_Name : string;
  detail_IPAddress : string
}.

(** ** Engine calls

    Every call that can change the engine, every bounded wait and every
    child process is recorded, in order. *)

Inductive call :=
| ProjectBuild (p : Project) (service_names : list string) (no_cache : bool)
| ProjectKill (p : Project) (service_names : list string) (signal : string)
| ProjectStop (p : Project) (service_names : list string)
| ProjectRemoveStopped (p : Project) (service_names : list string)
| ProjectRestart (p : Project) (service_names : list string)
| ProjectPull (p : Project) (service_names : list string)
| ProjectUp (p : Project) (service_names : list string) (smart_recreate : bool)
| ContainerKill (id : string) (signal : string)
| ClientWait (id : string) (timeout : Z)
| ContainerStop (id : string)
| ContainerRemove (id : string)
| LogPrinterRun (names : list string)
| SubprocessCall (argv : list string).

(** ** The command line *)

(** What [docopt] hands back for the three usage patterns
    [tug2 ps], [tug2 exec PROJECT SERVICE [COMMANDS ...]] and
    [tug2 COMMAND PROJECT [SERVICES ...]]. *)
Inductive Options :=
| OptPs
| OptExec (PROJECT SERVICE : string) (COMMANDS : list string)
| OptCommand (COMMAND PROJECT : string) (SERVICES : list string).

(** ** The environment

    compose, docker, docopt and the file system are not part of this
    module.  Each is an oracle; all but the working directory see the
    engine calls made so far, so that a query after [project.up] may answer
    differently from the same query before it.  [project_str] is
    [str(project)], the text a [Project] object is formatted as. *)

Record Env := {
  docopt : list string -> exn + Options;
  getcwd : string;
  listdir : string -> list string;
  docker_client : list call -> option exn;
  config_load : list call -> string -> exn + Config;
  from_dicts : list call -> string -> Config -> option exn;
  client_containers : list call -> bool -> exn + list string;
  inspect_container : list call -> string -> exn + Detail;
  project_containers :
    list call -> Project -> option (list string) -> bool -> bool ->
    exn + list Container;
  get_services :
    list call -> Project -> option (list string) -> bool -> exn + list Service;
  get_convergence_plans :
    list call -> Project -> list Service -> bool -> exn + dict ConvergencePlan;
  service_containers :
    list call -> Project -> Service -> bool -> bool -> exn + list Container;
  engine : list call -> call -> option exn;
  subprocess_call : list call -> list string -> exn + Z;
  project_str : Project -> string
}.

(** ** The monad of the module: engine calls, printed lines, exceptions *)

Record World := { calls : list call; out : list string }.

Definition M (A : Type) : Type := World -> (exn + A) * World.

Definition ret {A} (a : A) : M A := fun w => (inr a, w).

Definition bind {A B} (m : M A) (k : A -> M B) : M B :=
  fun w => match m w with
           | (inr a, w') => k a w'
           | (inl e, w') => (inl e, w')
           end.

Definition raise {A} (e : exn) : M A := fun w => (inl e, w).

(** [try: m  except ...: handler] *)
Definition try_except {A} (m : M A) (handler : exn -> M A) : M A :=
  fun w => match m w with
           | (inl e, w') => handler e w'
           | r => r
           end.

Declare Scope tug_scope.
Delimit Scope tug_scope with tug.
Notation "x <- m ;; k" := (bind m (fun x => k))
  (at level 100, m at next level, right associativity) : tug_scope.
Notation "m ;;; k" := (bind m (fun _ => k))
  (at level 100, right associativity) : tug_scope.
Open Scope tug_scope.

(** [print(s)] *)
Definition print (s : string) : M unit :=
  fun w => (inr tt, {| calls := calls w; out := out w ++ [s] |}).

(** A read-only question to the environment. *)
Definition query {A} (q : list call -> exn + A) : M A :=
  fun w => (q (calls w), w).

(** A step that can only fail or pass (constructors, client set-up). *)
Definition check (q : list call -> option exn) : M unit :=
  fun w => match q (calls w) with
           | Some e => (inl e, w)
           | None => (inr tt, w)
           end.

(** [for x in l: body(x)] *)
Fixpoint for_each {A} (l : list A) (body : A -> M unit) : M unit :=
  match l with
  | [] => ret tt
  | x :: l' => body x ;;; for_each l' body
  end.

(** A loop that updates local variables [s]. *)
Fixpoint for_fold {A S} (l : list A) (s : S) (body : S -> A -> M S) : M S :=
  match l with
  | [] => ret s
  | x :: l' => s' <- body s x ;; for_fold l' s' body
  end.

(** [del d[k]] *)
Definition del {V} (d : dict V) (k : string) : M (dict V) :=
  match dict_del d k with
  | Some d' => ret d'
  | None => raise (KeyError k)
  end.

(** [sys.exit(n)] *)
Definition sys_exit {A} (n : Z) : M A := raise (SystemExit (ExitCode n)).

(** ** [os.path] on POSIX

    [_get_config] calls [path.abspath]; these are [posixpath.join],
    [posixpath.normpath] and [posixpath.abspath]. *)

(** [s.split('/')] *)
Fixpoint split_slash (s : string) : list string :=
  match s with
  | EmptyString => [EmptyString]
  | String a s' =>
      if Ascii.eqb a "/"%char then EmptyString :: split_slash s'
      else match split_slash s' with
           | [] => [String a EmptyString]
           | h :: t => String a h :: t
           end
  end.

(** [posixpath.join(a, b)] *)
Definition path_join (a b : string) : string :=
  if startswith b "/" then b
  else if String.eqb a "" || endswith a "/" then a +:+ b
  else a +:+ "/" +:+ b.

(** One turn of the loop [for comp in comps] of [normpath]. *)
Definition normpath_step (initial_slashes : nat) (new_comps : list string)
    (comp : string) : list string :=
  if String.eqb comp "" || String.eqb comp "." then new_comps
  else if negb (String.eqb comp "..")
          || (Nat.eqb initial_slashes 0 && Nat.eqb (length new_comps) 0)
          || (negb (Nat.eqb (length new_comps) 0)
              && String.eqb (List.last new_comps "") "..")
  then new_comps ++ [comp]
  else removelast new_comps.

(** [posixpath.normpath(path)] *)
Definition normpath (path : string) : string :=
  if String.eqb path "" then "."
  else
    let initial_slashes :=
      if startswith path "/" then
        if startswith path "//" && negb (startswith path "///") then 2 else 1
      else 0 in
    let comps := fold_left (normpath_step initial_slashes) (split_slash path) [] in
    let path := join "/" comps in
    let path :=
      string_of_list_ascii (repeat "/"%char initial_slashes) +:+ path in
    if String.eqb path "" then "." else path.

(** [posixpath.abspath(path)] with [os.getcwd()] made explicit. *)
Definition abspath (cwd path : string) : string :=
  normpath (if startswith path "/" then path else path_join cwd path).

(** [getdoc(Usage)] *)
Definition usage_doc : string :=
"Describe your infrastructure with yaml files.

Usage:
    tug2 ps
    tug2 exec PROJECT SERVICE [COMMANDS ...]
    tug2 COMMAND PROJECT [SERVICES ...]

Common Commands:

    ps             List all running and available projects
    up             Update and run services
    diff           Describe the changes needed to update
    cull           Stop and delete services
    logs           Display container logs
    exec           Run a command inside a container (not implemented yet)

Management Commands:

    kill           Gracefully terminate services
    down           Stop services
    rm             Delete services
    recreate       Stop, delete, then run services
    build          Build services
    rebuild        Build services from scratch

Options:

    -h --help      Display this usage information
    -v --version   Display the version number".

(** ** [class Usage] *)

Module Usage.
Section Methods.

Variable env : Env.

(** An engine call: it is recorded whether or not it raises. *)
Definition perform (c : call) : M unit :=
  fun w =>
    let w' := {| calls := calls w ++ [c]; out := out w |} in
    match engine env (calls w) c with
    | Some e => (inl e, w')
    | None => (inr tt, w')
    end.

(** [subprocess.call(argv)] *)
Definition subprocess (argv : list string) : M Z :=
  fun w =>
    (subprocess_call env (calls w) argv,
     {| calls := calls w ++ [SubprocessCall argv]; out := out w |}).

Definition _clean_project_name (name : string) : string :=
  let name := if endswith name ".yml" then slice_to_neg 4 name else name in
  let name := if endswith name ".yaml" then slice_to_neg 5 name else name in
  name.

Definition _get_config (name : string) : M Config :=
  let filename := abspath (getcwd env) (name +:+ ".yml") in
  query (fun h => config_load env h filename).

Definition _get_projectnames_in_dir : list string :=
  map _clean_project_name
    (List.filter (fun file => endswith file ".yaml" || endswith file ".yml")
       (listdir env (getcwd env))).

(** [Project.from_dicts(projectname, config, client)] *)
Definition new_project (projectname : string) (config : Config) : M Project :=
  check (fun h => from_dicts env h projectname config) ;;;
  ret {| project_name := projectname; project_config := config |}.

(** [counts[state] += 1], after [counts[state] = 0] for a new state. *)
Definition count_state (counts : dict N) (state : string) : dict N :=
  let counts :=
    match dict_get counts state with
    | Some _ => counts
    | None => dict_set counts state 0%N
    end in
  match dict_get counts state with
  | Some n => dict_set counts state (n + 1)%N
  | None => counts
  end.

(** Lines 163-173: one service of one project in the bare [ps]. *)
Definition _ps_service (project : Project)
    (st : dict Detail * dict N) (service : Service)
    : M (dict Detail * dict N) :=
  let '(unknown, counts) := st in
  c1 <- query (fun h => service_containers env h project service true false) ;;
  c2 <- query (fun h => service_containers env h project service false true) ;;
  let c := c1 ++ c2 in
  let counts :=
    if Nat.eqb (length c) 0 then count_state counts "Uncreated" else counts in
  for_fold c (unknown, counts) (fun '(unknown, counts) container =>
    unknown <- del unknown (container_id container) ;;
    ret (unknown, count_state counts (human_readable_state container))).

(** Lines 153-182: one project of the bare [ps]. *)
Definition _ps_project (unknown : dict Detail) (projectname : string)
    : M (dict Detail) :=
  config <- _get_config projectname ;;
  project <- new_project projectname config ;;
  services <- query (fun h => get_services env h project None false) ;;
  st <- for_fold services (unknown, ([] : dict N)) (_ps_service project) ;;
  let '(unknown, counts) := st in
  let humancounts :=
    map (fun '(state, count) => pretty count +:+ " " +:+ state) counts in
  print ("  " +:+ ljust 24 projectname +:+ join "," humancounts) ;;;
  ret unknown.

(** Lines 188-199: one unknown container of the bare [ps]. *)
Definition _ps_unknown (detail : Detail) : M unit :=
  let name := detail_Name detail in
  let name := if startswith name "/" then slice_from 1 name else name in
  let ip := detail_IPAddress detail in
  let ip := if String.eqb ip "" then "(host)" else ip in
  print (status_row name "" ip).

Definition _ps : M unit :=
  check (docker_client env) ;;;
  let projectnames := _get_projectnames_in_dir in
  containers <- query (fun h => client_containers env h true) ;;
  unknown <- for_fold containers ([] : dict Detail) (fun unknown Id =>
    detail <- query (fun h => inspect_container env h Id) ;;
    ret (dict_set unknown Id detail)) ;;
  (if negb (Nat.eqb (length projectnames) 0) then print "" else ret tt) ;;;
  unknown <- for_fold projectnames unknown _ps_project ;;
  (if negb (Nat.eqb (length unknown) 0) then
     print "" ;;;
     print "  Containers not tracked by compose/tugboat:" ;;;
     print ""
   else ret tt) ;;;
  for_each unknown (fun '(key, detail) => _ps_unknown detail) ;;;
  print "".

(** Lines 208-223: one service of the status view. *)
Definition ps_service (project : Project) (service : Service) : M unit :=
  c1 <- query (fun h => service_containers env h project service true false) ;;
  c2 <- query (fun h => service_containers env h project service false true) ;;
  let containers := c1 ++ c2 in
  (if Nat.eqb (length containers) 0 then
     print (status_row (service_name service) "Uncreated" "")
   else ret tt) ;;;
  for_each containers (fun container =>
    let name := name_without_project container in
    let ip := container_ip container in
    let ip := if String.eqb ip "" then "(host)" else ip in
    let state := human_readable_state container in
    print (status_row name state ip)).

Definition ps (project : Project) (projectname : string)
    (servicenames : list string) : M unit :=
  print "" ;;;
  print ("  " +:+ projectname +:+ " services:") ;;;
  print "" ;;;
  services <-
    query (fun h => get_services env h project (Some servicenames) false) ;;
  for_each services (ps_service project) ;;;
  print "".

Definition build (project : Project) (projectname : string)
    (servicenames : list string) : M unit :=
  perform (ProjectBuild project servicenames false).

Definition rebuild (project : Project) (projectname : string)
    (servicenames : list string) : M unit :=
  perform (ProjectBuild project servicenames true).

Definition kill (project : Project) (projectname : string)
    (servicenames : list string) : M unit :=
  perform (ProjectKill project servicenames "SIGTERM") ;;;
  ps project projectname servicenames.

Definition logs (project : Project) (projectname : string)
    (servicenames : list string) : M unit :=
  containers <-
    query (fun h =>
             project_containers env h project (Some servicenames) true false) ;;
  print ("Attaching to " +:+ join ", " (map container_name containers)) ;;;
  perform (LogPrinterRun (map container_name containers)).

Definition pull (project : Project) (projectname : string)
    (servicenames : list string) : M unit :=
  perform (ProjectPull project servicenames).

Definition rm (project : Project) (projectname : string)
    (servicenames : list string) : M unit :=
  perform (ProjectRemoveStopped project servicenames) ;;;
  ps project projectname servicenames.

Definition down (project : Project) (projectname : string)
    (servicenames : list string) : M unit :=
  perform (ProjectKill project servicenames "SIGTERM") ;;;
  perform (ProjectStop project servicenames) ;;;
  ps project projectname servicenames.

Definition cull (project : Project) (projectname : string)
    (servicenames : list string) : M unit :=
  perform (ProjectKill project servicenames "SIGTERM") ;;;
  perform (ProjectStop project servicenames) ;;;
  perform (ProjectRemoveStopped project servicenames) ;;;
  ps project projectname servicenames.

Definition recreate (project : Project) (projectname : string)
    (servicenames : list string) : M unit :=
  perform (ProjectRestart project servicenames) ;;;
  ps project projectname servicenames.

(** Lines 271-273 and 304-306: [unknown[container.id] = container]. *)
Definition index_by_id (containers : list Container) : dict Container :=
  fold_left (fun unknown container =>
               dict_set unknown (container_id container) container)
    containers [].

(** Lines 289-292 and 294-297:
    [try: container.client.wait(container.id, timeout=10)]
    [except ReadTimeout: pass]. *)
Definition wait_for_exit (container : Container) : M unit :=
  try_except (perform (ClientWait (container_id container) 10))
    (fun e => match e with
              | ReadTimeout => ret tt
              | _ => raise e
              end).

(** Lines 286-298: the body of [for id in unknown]. *)
Definition reclaim (container : Container) : M unit :=
  (if is_running container then
     perform (ContainerKill (container_id container) "SIGTERM") ;;;
     wait_for_exit container ;;;
     perform (ContainerStop (container_id container)) ;;;
     wait_for_exit container
   else ret tt) ;;;
  perform (ContainerRemove (container_id container)).

(** Lines 276-279: [for service in plans: plan = plans[service]; ...].
    A dict holds one item per key, so walking the keys and looking each one
    up is walking the items. *)
Definition forget_planned (unknown : dict Container)
    (plans : dict ConvergencePlan) : M (dict Container) :=
  for_fold plans unknown (fun unknown '(service, plan) =>
    for_fold (plan_containers plan) unknown (fun unknown container =>
      del unknown (container_id container))).

Definition up (project : Project) (projectname : string)
    (servicenames : list string) : M unit :=
  c1 <- query (fun h => project_containers env h project None true false) ;;
  c2 <- query (fun h => project_containers env h project None false true) ;;
  let containers := c1 ++ c2 in
  let unknown := index_by_id containers in
  services <-
    query (fun h => get_services env h project (Some servicenames) true) ;;
  plans <- query (fun h => get_convergence_plans env h project services true) ;;
  unknown <- forget_planned unknown plans ;;
  perform (ProjectUp project servicenames true) ;;;
  (if Nat.eqb (length servicenames) 0 then
     for_each unknown (fun '(id, container) => reclaim container)
   else ret tt) ;;;
  ps project projectname servicenames.

(** Lines 313-322: one plan of the plan view. *)
Definition diff_plan (unknown : dict Container)
    (item : string * ConvergencePlan) : M (dict Container) :=
  let '(service, plan) := item in
  st <-
    for_fold (plan_containers plan) (unknown, [])
      (fun '(unknown, service_containers) container =>
         unknown <- del unknown (container_id container) ;;
         ret (unknown, service_containers ++ [container_name container])) ;;
  let '(unknown, service_containers) := st in
  print (plan_row service (plan_action plan) (join ", " service_containers)) ;;;
  ret unknown.

Definition diff (project : Project) (projectname : string)
    (servicenames : list string) : M unit :=
  c1 <- query (fun h => project_containers env h project None true false) ;;
  c2 <- query (fun h => project_containers env h project None false true) ;;
  let containers := c1 ++ c2 in
  let unknown := index_by_id containers in
  services <-
    query (fun h => get_services env h project (Some servicenames) true) ;;
  plans <- query (fun h => get_convergence_plans env h project services true) ;;
  print "" ;;;
  print ("  " +:+ projectname +:+ " convergence plan:") ;;;
  print "" ;;;
  unknown <- for_fold plans unknown diff_plan ;;
  for_each unknown (fun '(id, container) =>
    print (orphan_row (container_name container) "delete")) ;;;
  print "".

Definition _exec (projectname servicename : string)
    (commands : option (list string)) : M unit :=
  let containername := projectname +:+ "_" +:+ servicename +:+ "_1" in
  let command := commands in
  let command :=
    match command with
    | None | Some [] => ["/bin/bash"]
    | Some c => c
    end in
  print "" ;;;
  print ("  docker exec -it " +:+ containername +:+ " " +:+ join " " command) ;;;
  print "" ;;;
  let command := ["docker"; "exec"; "-it"; containername] ++ command in
  rc <- subprocess command ;;
  sys_exit rc.

(** What [getattr(self, command)] finds. *)
Inductive attribute :=
| Handler (handle : Project -> string -> list string -> M unit)
| OtherAttribute.

(** The attributes [class Usage] defines.  The command handlers take
    [(project, projectname, servicenames)].  So does [_exec], as
    [(projectname, servicename, commands)]: named as COMMAND it runs with
    the project object in the place of the project name, which [format]
    turns into [str(project)].  The other helper methods exist, so
    [hasattr] accepts them, but they cannot be called with three arguments.
    Attributes inherited from [object], all of whose names start with an
    underscore, are left out. *)
Definition getattr (command : string) : option attribute :=
  if String.eqb command "ps" then Some (Handler ps)
  else if String.eqb command "build" then Some (Handler build)
  else if String.eqb command "rebuild" then Some (Handler rebuild)
  else if String.eqb command "kill" then Some (Handler kill)
  else if String.eqb command "logs" then Some (Handler logs)
  else if String.eqb command "pull" then Some (Handler pull)
  else if String.eqb command "rm" then Some (Handler rm)
  else if String.eqb command "down" then Some (Handler down)
  else if String.eqb command "cull" then Some (Handler cull)
  else if String.eqb command "recreate" then Some (Handler recreate)
  else if String.eqb command "up" then Some (Handler up)
  else if String.eqb command "diff" then Some (Handler diff)
  else if String.eqb command "_exec"
  then Some (Handler (fun project projectname servicenames =>
                        _exec (project_str env project) projectname
                          (Some servicenames)))
  else if String.eqb command "_ps"
          || String.eqb command "_clean_project_name"
          || String.eqb command "_get_config"
          || String.eqb command "_get_projectnames_in_dir"
  then Some OtherAttribute
  else None.

Definition __init__ (argv : list string) : M unit :=
  options <-
    try_except (query (fun _ => docopt env argv))
      (fun e => match e with
                | DocoptExit => raise (SystemExit (ExitText usage_doc))
                | _ => raise e
                end) ;;
  match options with
  | OptPs => _ps
  | OptExec PROJECT SERVICE COMMANDS => _exec PROJECT SERVICE (Some COMMANDS)
  | OptCommand command projectname servicenames =>
      match getattr command with
      | None =>
          print (command +:+ " command not found") ;;;
          sys_exit 1
      | Some handle =>
          check (docker_client env) ;;;
          config <- _get_config projectname ;;
          project <- new_project projectname config ;;
          match handle with
          | Handler handle => handle project projectname servicenames
          | OtherAttribute => raise TypeError
          end
      end
  end.

End Methods.
End Usage.

(** ** [main] *)

Definition newline : string := String (ascii_of_nat 10) EmptyString.

Definition main (env : Env) (argv : list string) : M unit :=
  try_except (Usage.__init__ env argv)
    (fun e =>
       match e with
       | KeyboardInterrupt =>
           print (newline +:+ "Aborting.") ;;;
           sys_exit 1
       | NoSuchService msg | ConfigurationError msg
       | LegacyContainersError msg =>
           print msg ;;;
           sys_exit 1
       | APIError explanation =>
           print explanation ;;;
           sys_exit 1
       | BuildError service reason =>
           print ("Service '" +:+ service +:+ "' failed to build: " +:+ reason) ;;;
           sys_exit 1
       | _ => raise e
       end).

(** The status the process ends with: 0 on a normal return, the low eight
    bits of the argument of [sys.exit] (the interpreter hands the argument
    to [exit(3)], so [sys.exit(-9)] ends with 247), and 1 when an exception
    (or a [SystemExit] carrying text) reaches the interpreter. *)
Definition exit_status (r : exn + unit) : Z :=
  match r with
  | inr _ => 0
  | inl (SystemExit (ExitCode n)) => Z.land n 255
  | inl _ => 1
  end.

(** ** Reference functions

    Pure descriptions of what the loops of the module compute; the
    properties below relate the module to them. *)

(** Deleting a run of keys: [inl k] is the first key whose deletion raises. *)
Fixpoint dict_del_all {V} (d : dict V) (ks : list string) : string + dict V :=
  match ks with
  | [] => inr d
  | k :: ks' =>
      match dict_del d k with
      | None => inl k
      | Some d' => dict_del_all d' ks'
      end
  end.

(** The items of [d] whose key is not among [ks]. *)
Definition dict_without {V} (d : dict V) (ks : list string) : dict V :=
  List.filter (fun kv => bool_decide (fst kv ∉ ks)) d.

(** A failed deletion as the exception Python raises. *)
Definition key_error {A} (r : string + A) : exn + A :=
  match r with
  | inl k => inl (KeyError k)
  | inr a => inr a
  end.

(** The ids the plans refer to, in the order the deletion loops of [up] and
    [diff] meet them. *)
Definition planned_ids (plans : dict ConvergencePlan) : list string :=
  concat (map (fun sp => map container_id (plan_containers (snd sp))) plans).

(** The container an engine call is addressed to, if any. *)
Definition container_call (c : call) : option string :=
  match c with
  | ContainerKill id _ | ClientWait id _ | ContainerStop id
  | ContainerRemove id => Some id
  | _ => None
  end.

(** The teardown of one orphan as the specification words it: a running
    container gets SIGTERM, a wait of at most 10 seconds, a stop, a second
    wait of at most 10 seconds, and is removed; a stopped one is removed. *)
Definition teardown (c : Container) : list call :=
  (if is_running c then
     [ContainerKill (container_id c) "SIGTERM";
      ClientWait (container_id c) 10;
      ContainerStop (container_id c);
      ClientWait (container_id c) 10]
   else [])
  ++ [ContainerRemove (container_id c)].

(** How often container [id] is removed in a run of calls. *)
Definition removals (id : string) (l : list call) : nat :=
  length (List.filter (fun c => match c with
                                | ContainerRemove i => String.eqb i id
                                | _ => false
                                end) l).

(** An engine on which kill, stop and remove succeed and a bounded wait
    either returns or times out. *)
Definition engine_obeys (env : Env) : Prop :=
  forall h c,
    match c with
    | ClientWait _ _ =>
        engine env h c = None \/ engine env h c = Some ReadTimeout
    | ContainerKill _ _ | ContainerStop _ | ContainerRemove _ =>
        engine env h c = None
    | _ => True
    end.

(** The world after printing [lines], and after issuing the calls [l]. *)
Definition add_out (w : World) (lines : list string) : World :=
  {| calls := calls w; out := out w ++ lines |}.

Definition add_calls (w : World) (l : list call) : World :=
  {| calls := calls w ++ l; out := out w |}.

(** Lines 280-300 of [up], once the orphan dictionary is known. *)
Definition up_apply (env : Env) (project : Project) (projectname : string)
    (servicenames : list string) (unknown : dict Container) : M unit :=
  Usage.perform env (ProjectUp project servicenames true) ;;;
  (if Nat.eqb (length servicenames) 0 then
     for_each unknown (fun '(id, container) => Usage.reclaim env container)
   else ret tt) ;;;
  Usage.ps env project projectname servicenames.

(** The row [diff] prints for one plan. *)
Definition plan_view_row (item : string * ConvergencePlan) : string :=
  plan_row (fst item) (plan_action (snd item))
    (join ", " (map container_name (plan_containers (snd item)))).

(** The row [diff] prints for one orphan. *)
Definition orphan_view_row (item : string * Container) : string :=
  orphan_row (container_name (snd item)) "delete".

(** The status view as the specification words it: a service without live
    containers is one row with state Uncreated and an empty address; any
    other service has one row per container, and a container whose bridge
    address is the empty string shows the literal address (host). *)
Definition address_shown (ip : string) : string :=
  if String.eqb ip "" then "(host)" else ip.

Definition status_view_rows (service : Service) (containers : list Container)
    : list string :=
  match containers with
  | [] => [status_row (service_name service) "Uncreated" ""]
  | _ =>
      map (fun c => status_row (name_without_project c)
                      (human_readable_state c)
                      (address_shown (container_ip c))) containers
  end.

(** A path component: no slash, and not one of the names [normpath]
    treats specially. *)
Fixpoint no_slash (s : string) : bool :=
  match s with
  | EmptyString => true
  | String a s' => negb (Ascii.eqb a "/") && no_slash s'
  end.

Definition plain (s : string) : bool :=
  no_slash s && negb (String.eqb s "") && negb (String.eqb s ".")
  && negb (String.eqb s "..").

Fixpoint last_char (s : string) : ascii :=
  match s with
  | EmptyString => " "%char
  | String a EmptyString => a
  | String _ s' => last_char s'
  end.

(** The absolute path with the components [comps]. *)
Definition path_of (comps : list string) : string := "/" +:+ join "/" comps.

(** The containers the bare [ps] meets, in order, when every query it makes
    in the history [h] answers: per service, per project, and for all the
    projects of the working directory. *)
Definition service_listing (env : Env) (h : list call) (project : Project)
    (service : Service) : exn + list Container :=
  match service_containers env h project service true false with
  | inl e => inl e
  | inr c1 =>
      match service_containers env h project service false true with
      | inl e => inl e
      | inr c2 => inr (c1 ++ c2)
      end
  end.

Fixpoint services_listing (env : Env) (h : list call) (project : Project)
    (services : list Service) : exn + list Container :=
  match services with
  | [] => inr []
  | service :: rest =>
      match service_listing env h project service with
      | inl e => inl e
      | inr cs =>
          match services_listing env h project rest with
          | inl e => inl e
          | inr cs' => inr (cs ++ cs')
          end
      end
  end.

Definition project_listing (env : Env) (h : list call) (projectname : string)
    : exn + list Container :=
  match config_load env h (abspath (getcwd env) (projectname +:+ ".yml")) with
  | inl e => inl e
  | inr config =>
      match from_dicts env h projectname config with
      | Some e => inl e
      | None =>
          let project :=
            {| project_name := projectname; project_config := config |} in
          match get_services env h project None false with
          | inl e => inl e
          | inr services => services_listing env h project services
          end
      end
  end.

Fixpoint projects_listing (env : Env) (h : list call)
    (projectnames : list string) : exn + list Container :=
  match projectnames with
  | [] => inr []
  | projectname :: rest =>
      match project_listing env h projectname with
      | inl e => inl e
      | inr cs =>
          match projects_listing env h rest with
          | inl e => inl e
          | inr cs' => inr (cs ++ cs')
          end
      end
  end.

(** ** What a computation may do to the world *)

(** A computation that issues no call: nothing is added to the recorded
    calls, which are the state-changing ones of [call]; questions asked
    through [query] are not recorded. *)
Definition quiet {A} (m : M A) : Prop :=
  forall w r w', m w = (r, w') -> calls w' = calls w.

(** A computation all of whose engine calls satisfy [P]. *)
Definition emits (P : call -> Prop) {A} (m : M A) : Prop :=
  forall w r w', m w = (r, w') ->
    exists l, calls w' = calls w ++ l /\ Forall P l.

(** A computation that prints nothing. *)
Definition mute {A} (m : M A) : Prop :=
  forall w r w', m w = (r, w') -> out w' = out w.

(** ** A concrete environment

    One directory, [/srv], holding [web.yml]; project [web] declares the
    services [app] and [db].  [web_app_1] runs, [web_old_1] and [web_tmp_1]
    are left over from services no longer declared, and [web_db_1] appears
    once the plans are applied. *)

Definition mk_container (id name short : string) (running : bool)
    (state ip : string) : Container :=
  {| container_id := id; container_name := name;
     name_without_project := short; is_running := running;
     human_readable_state := state; container_ip := ip |}.

Definition web_app_1 := mk_container "a1" "web_app_1" "app_1" true "Up" "172.17.0.2".
Definition web_old_1 := mk_container "o1" "web_old_1" "old_1" true "Up" "".
Definition web_tmp_1 := mk_container "t1" "web_tmp_1" "tmp_1" false "Exit 0" "".
Definition web_db_1 := mk_container "d1" "web_db_1" "db_1" true "Up" "".

Definition has_call (P : call -> bool) (h : list call) : bool := existsb P h.

Definition is_up (c : call) : bool :=
  match c with ProjectUp _ _ _ => true | _ => false end.
Definition is_remove_of (id : string) (c : call) : bool :=
  match c with ContainerRemove i => String.eqb i id | _ => false end.
Definition is_stop_of (id : string) (c : call) : bool :=
  match c with ContainerStop i => String.eqb i id | _ => false end.

Definition demo_docopt (argv : list string) : exn + Options :=
  match argv with
  | ["ps"] => inr OptPs
  | "exec" :: p :: s :: cmds => inr (OptExec p s cmds)
  | c :: p :: svcs => inr (OptCommand c p svcs)
  | _ => inl DocoptExit
  end.

Definition demo_env : Env := {|
  docopt := demo_docopt;
  getcwd := "/srv";
  listdir := fun _ => ["web.yml"; "notes.txt"];
  docker_client := fun _ => None;
  config_load := fun _ path =>
    if String.eqb path "/srv/web.yml"
    then inr {| config_services := ["app"; "db"] |}
    else inl (ConfigurationError ("No such file: " +:+ path));
  from_dicts := fun _ _ _ => None;
  client_containers := fun h _ => inr ["a1"; "x9"];
  inspect_container := fun _ id =>
    inr {| detail_Name := "/" +:+ id; detail_IPAddress := "" |};
  project_containers := fun h _ _ stopped one_off =>
    if one_off then inr []
    else inr ([web_app_1]
              ++ (if has_call (is_remove_of "o1") h then [] else [web_old_1])
              ++ (if has_call (is_remove_of "t1") h then [] else [web_tmp_1])
              ++ (if has_call is_up h then [web_db_1] else []));
  get_services := fun _ p names _ =>
    match names with
    | None | Some [] => inr [ {| service_name := "app" |}; {| service_name := "db" |} ]
    | Some l => inr (map Build_Service l)
    end;
  get_convergence_plans := fun _ _ services _ =>
    inr (map (fun s =>
           (service_name s,
            if String.eqb (service_name s) "app"
            then {| plan_action := "noop"; plan_containers := [web_app_1] |}
            else {| plan_action := "create"; plan_containers := [] |})) services);
  service_containers := fun h _ s stopped one_off =>
    if one_off then inr []
    else if String.eqb (service_name s) "app" then inr [web_app_1]
    else if String.eqb (service_name s) "db"
    then inr (if has_call is_up h then [web_db_1] else [])
    else inr [];
  engine := fun h c =>
    match c with
    | ClientWait id _ =>
        if has_call (is_stop_of id) h then None else Some ReadTimeout
    | _ => None
    end;
  subprocess_call := fun _ _ => inr 0%Z;
  project_str := fun p => "<Project " +:+ project_name p +:+ ">"
|}.

Definition demo_project : Project :=
  {| project_name := "web";
     project_config := {| config_services := ["app"; "db"] |} |}.

Definition demo_plans : dict ConvergencePlan :=
  [("app", {| plan_action := "noop"; plan_containers := [web_app_1] |});
   ("db", {| plan_action := "create"; plan_containers := [] |})].

Definition w0 : World := {| calls := []; out := [] |}.

(** The world of the concrete environment once the plans are applied. *)
Definition w1 : World :=
  {| calls := [ProjectUp demo_project [] true]; out := [] |}.

(** The concrete environment, except that [project.containers] finds
    containers of a pre-labels compose and raises. *)
Definition legacy_env : Env := {|
  docopt := docopt demo_env;
  getcwd := getcwd demo_env;
  listdir := listdir demo_env;
  docker_client := docker_client demo_env;
  config_load := config_load demo_env;
  from_dicts := from_dicts demo_env;
  client_containers := client_containers demo_env;
  inspect_container := inspect_container demo_env;
  project_containers := fun _ _ _ _ _ =>
    inl (LegacyContainersError "legacy containers found");
  get_services := get_services demo_env;
  get_convergence_plans := get_convergence_plans demo_env;
  service_containers := service_containers demo_env;
  engine := engine demo_env;
  subprocess_call := subprocess_call demo_env;
  project_str := project_str demo_env
|}.

(** The concrete environment, except that the plan of [app] refers to a
    container the inventory does not hold. *)
Definition stale_env : Env := {|
  docopt := docopt demo_env;
  getcwd := getcwd demo_env;
  listdir := listdir demo_env;
  docker_client := docker_client demo_env;
  config_load := config_load demo_env;
  from_dicts := from_dicts demo_env;
  client_containers := client_containers demo_env;
  inspect_container := inspect_container demo_env;
  project_containers := project_containers demo_env;
  get_services := get_services demo_env;
  get_convergence_plans := fun _ _ _ _ =>
    inr [("app", {| plan_action := "recreate";
                    plan_containers :=
                      [web_app_1;
                       mk_container "zz" "web_app_2" "app_2" true "Up" ""] |})];
  service_containers := service_containers demo_env;
  engine := engine demo_env;
  subprocess_call := subprocess_call demo_env;
  project_str := project_str demo_env
|}.

(** The concrete environment, except that [get_services] answers as
    compose does: the services asked for come back in the order in which
    the project declares them, whatever the order of the request, and a
    name the project does not declare raises [NoSuchService]. *)
Definition declared_env : Env := {|
  docopt := docopt demo_env;
  getcwd := getcwd demo_env;
  listdir := listdir demo_env;
  docker_client := docker_client demo_env;
  config_load := config_load demo_env;
  from_dicts := from_dicts demo_env;
  client_containers := client_containers demo_env;
  inspect_container := inspect_container demo_env;
  project_containers := project_containers demo_env;
  get_services := fun _ project names _ =>
    let declared := config_services (project_config project) in
    match names with
    | None | Some [] => inr (map Build_Service declared)
    | Some l =>
        match List.find (fun name => negb (existsb (String.eqb name) declared))
                l with
        | Some name => inl (NoSuchService ("No such service: " +:+ name))
        | None =>
            inr (map Build_Service
                   (List.filter (fun s => existsb (String.eqb s) l) declared))
        end
    end;
  get_convergence_plans := get_convergence_plans demo_env;
  service_containers := service_containers demo_env;
  engine := engine demo_env;
  subprocess_call := subprocess_call demo_env;
  project_str := project_str demo_env
|}.

(** The concrete environment, except that the child process of [exec] is
    killed by signal 9: [subprocess.call] returns -9. *)
Definition signalled_env : Env := {|
  docopt := docopt demo_env;
  getcwd := getcwd demo_env;
  listdir := listdir demo_env;
  docker_client := docker_client demo_env;
  config_load := config_load demo_env;
  from_dicts := from_dicts demo_env;
  client_containers := client_containers demo_env;
  inspect_container := inspect_container demo_env;
  project_containers := project_containers demo_env;
  get_services := get_services demo_env;
  get_convergence_plans := get_convergence_plans demo_env;
  service_containers := service_containers demo_env;
  engine := engine demo_env;
  subprocess_call := fun _ _ => inr (-9)%Z;
  project_str := project_str demo_env
|}.

(** [env] with another engine and another child process; every question
    is answered as in [env]. *)
Definition with_engine (env : Env)
    (engine' : list call -> call -> option exn)
    (subprocess_call' : list call -> list string -> exn + Z) : Env := {|
  docopt := docopt env;
  getcwd := getcwd env;
  listdir := listdir env;
  docker_client := docker_client env;
  config_load := config_load env;
  from_dicts := from_dicts env;
  client_containers := client_containers env;
  inspect_container := inspect_container env;
  project_containers := project_containers env;
  get_services := get_services env;
  get_convergence_plans := get_convergence_plans env;
  service_containers := service_containers env;
  engine := engine';
  subprocess_call := subprocess_call';
  project_str := project_str env
|}.

(** ** More reference functions *)

(** The names of the twelve command handlers of [class Usage]. *)
Definition handler_names : list string :=
  ["ps"; "build"; "rebuild"; "kill"; "logs"; "pull"; "rm"; "down"; "cull";
   "recreate"; "up"; "diff"].

(** The ids of the containers removed in a run of calls, in order. *)
Definition removed_ids (l : list call) : list string :=
  flat_map (fun c => match c with
                     | ContainerRemove id => [id]
                     | _ => []
                     end) l.

(** The one exception the module swallows: [ReadTimeout] out of
    [client.wait]. *)
Definition tolerated (c : call) (e : exn) : bool :=
  match c, e with
  | ClientWait _ _, ReadTimeout => true
  | _, _ => false
  end.

(** Issuing a run of calls one after the other from the history [h], up to
    and including the first call whose exception is not tolerated: the
    exception, if any, and the history reached. *)
Fixpoint issue (env : Env) (h : list call) (cs : list call)
    : option exn * list call :=
  match cs with
  | [] => (None, h)
  | c :: rest =>
      match engine env h c with
      | None => issue env (h ++ [c]) rest
      | Some e =>
          if tolerated c e then issue env (h ++ [c]) rest
          else (Some e, h ++ [c])
      end
  end.

(** The outcome of [issue] as a result of the monad. *)
Definition issued (w : World) (r : option exn * list call)
    : (exn + unit) * World :=
  (match fst r with
   | None => inr tt
   | Some e => inl e
   end, {| calls := snd r; out := out w |}).

(** The project-level calls of the lifecycle commands, in the order the
    handlers issue them, and whether the handler ends with the status
    view. *)
Definition lifecycle_calls (command : string) (project : Project)
    (servicenames : list string) : list call :=
  if String.eqb command "build" then [ProjectBuild project servicenames false]
  else if String.eqb command "rebuild"
  then [ProjectBuild project servicenames true]
  else if String.eqb command "pull" then [ProjectPull project servicenames]
  else if String.eqb command "kill"
  then [ProjectKill project servicenames "SIGTERM"]
  else if String.eqb command "rm"
  then [ProjectRemoveStopped project servicenames]
  else if String.eqb command "down"
  then [ProjectKill project servicenames "SIGTERM";
        ProjectStop project servicenames]
  else if String.eqb command "cull"
  then [ProjectKill project servicenames "SIGTERM";
        ProjectStop project servicenames;
        ProjectRemoveStopped project servicenames]
  else if String.eqb command "recreate"
  then [ProjectRestart project servicenames]
  else [].

Definition prints_status (command : string) : bool :=
  negb (String.eqb command "build" || String.eqb command "rebuild"
        || String.eqb command "pull").

(** How often [s] occurs in [states]. *)
Definition occurrences (s : string) (states : list string) : nat :=
  length (List.filter (String.eqb s) states).




(** The different states of a run, each once, in the order in which they
    first appear. *)
Fixpoint distinct (states : list string) : list string :=
  match states with
  | [] => []
  | s :: rest =>
      s :: List.filter (fun x => negb (String.eqb x s)) (distinct rest)
  end.

(** The summary line of one project in the bare [ps], from the states that
    were counted: the name, then [<tally> <state>] for each different
    state. *)
Definition tally_line (projectname : string) (states : list string) : string :=
  "  " +:+ ljust 24 projectname
  +:+ join ","
        (map (fun state =>
                pretty (N.of_nat (occurrences state states)) +:+ " " +:+ state)
           (distinct states)).


(** The row of one untracked container in the bare [ps]. *)
Definition untracked_row (item : string * Detail) : string :=
  status_row
    (if startswith (detail_Name (snd item)) "/"
     then slice_from 1 (detail_Name (snd item))
     else detail_Name (snd item))
    "" (address_shown (detail_IPAddress (snd item))).

(** The concrete environment, with the project file present under both
    suffixes. *)
Definition twin_env : Env := {|
  docopt := docopt demo_env;
  getcwd := getcwd demo_env;
  listdir := fun _ => ["web.yml"; "web.yaml"];
  docker_client := docker_client demo_env;
  config_load := config_load demo_env;
  from_dicts := from_dicts demo_env;
  client_containers := client_containers demo_env;
  inspect_container := inspect_container demo_env;
  project_containers := project_containers demo_env;
  get_services := get_services demo_env;
  get_convergence_plans := get_convergence_plans demo_env;
  service_containers := service_containers demo_env;
  engine := engine demo_env;
  subprocess_call := subprocess_call demo_env;
  project_str := project_str demo_env
|}.

(** * Properties *)

(** ** Dictionaries *)

Section DictFacts.

Context {V : Type}.
Implicit Types (d : dict V) (k : string) (v : V).

Lemma dict_del_None d k : dict_del d k = None <-> k ∉ dict_keys d.
Proof.
  induction d as [|[k' v] d IH]; simpl.
  - split; [intros _; apply not_elem_of_nil | done].
  - destruct (String.eqb_spec k' k) as [->|Hne].
    + split; [done | intros H; exfalso; apply H; left].
    + destruct (dict_del d k) eqn:E.
      * split; [done |]. intros H. exfalso.
        apply not_elem_of_cons in H as [_ H]. apply IH in H. done.
      * split; [| done]. intros _. apply not_elem_of_cons. split; [congruence |].
        by apply IH.
Qed.

Lemma dict_del_Some_elem d k d' : dict_del d k = Some d' -> k ∈ dict_keys d.
Proof.
  intros H. destruct (decide (k ∈ dict_keys d)) as [|Hn]; [done |].
  apply dict_del_None in Hn. congruence.
Qed.

Lemma dict_del_is_Some d k : k ∈ dict_keys d -> is_Some (dict_del d k).
Proof.
  intros H. destruct (dict_del d k) eqn:E; [eauto |].
  apply dict_del_None in E. done.
Qed.

(** Deleting keeps the other items, in order. *)
Lemma dict_del_filter d k d' :
  NoDup (dict_keys d) -> dict_del d k = Some d' ->
  d' = List.filter (fun kv => negb (String.eqb (fst kv) k)) d.
Proof.
  revert d'. induction d as [|[k' v] d IH]; simpl; intros d' Hnd H; [done |].
  apply NoDup_cons in Hnd as [Hk' Hnd].
  destruct (String.eqb_spec k' k) as [->|Hne]; simpl.
  - injection H as <-. symmetry. apply forallb_filter_id.
    apply forallb_forall. intros [k1 v1] Hin. simpl.
    destruct (String.eqb_spec k1 k) as [->|]; [| done].
    exfalso. apply Hk'. apply list_elem_of_In in Hin.
    by apply (list_elem_of_fmap_2 fst) in Hin.
  - destruct (dict_del d k) eqn:E; [| done]. injection H as <-.
    f_equal. by apply IH.
Qed.

Lemma dict_keys_filter_sub (P : string * V -> bool) d k :
  k ∈ dict_keys (List.filter P d) -> k ∈ dict_keys d.
Proof.
  unfold dict_keys. intros H. apply list_elem_of_fmap in H as [kv [-> H]].
  apply list_elem_of_In, filter_In in H as [H _].
  apply list_elem_of_fmap_2. by apply list_elem_of_In.
Qed.

Lemma dict_keys_filter_NoDup (P : string * V -> bool) d :
  NoDup (dict_keys d) -> NoDup (dict_keys (List.filter P d)).
Proof.
  induction d as [|[k v] d IH]; simpl; intros Hnd; [done |].
  apply NoDup_cons in Hnd as [Hk Hnd].
  destruct (P (k, v)); simpl; [| by apply IH].
  apply NoDup_cons. split; [| by apply IH].
  intros H. apply Hk. by apply dict_keys_filter_sub in H.
Qed.

Lemma dict_set_keys_elem d k v x :
  x ∈ dict_keys (dict_set d k v) <-> x = k \/ x ∈ dict_keys d.
Proof.
  induction d as [|[k' v'] d IH]; simpl.
  - rewrite list_elem_of_singleton. split; [auto |].
    intros [H|H]; [done | by apply not_elem_of_nil in H].
  - destruct (String.eqb_spec k' k) as [->|Hne]; simpl.
    + rewrite !elem_of_cons. tauto.
    + rewrite !elem_of_cons, IH. tauto.
Qed.

Lemma dict_set_keys_NoDup d k v :
  NoDup (dict_keys d) -> NoDup (dict_keys (dict_set d k v)).
Proof.
  induction d as [|[k' v'] d IH]; simpl; intros Hnd.
  - apply NoDup_singleton.
  - apply NoDup_cons in Hnd as [Hk Hnd].
    destruct (String.eqb_spec k' k) as [->|Hne]; simpl.
    + apply NoDup_cons. done.
    + apply NoDup_cons. split; [| by apply IH].
      rewrite dict_set_keys_elem. intros [?|?]; done.
Qed.

Lemma dict_set_Forall (P : string * V -> Prop) d k v :
  Forall P d -> P (k, v) -> (forall k' v', P (k', v') -> k' = k -> P (k', v)) ->
  Forall P (dict_set d k v).
Proof.
  intros Hd Hkv Hrep. induction d as [|[k' v'] d IH]; simpl.
  - by constructor.
  - apply Forall_cons in Hd as [Hh Ht].
    destruct (String.eqb_spec k' k) as [->|Hne]; constructor; auto.
Qed.

End DictFacts.

Section DictDelAll.

Context {V : Type}.
Implicit Types (d : dict V) (k : string) (ks : list string).

Lemma dict_del_all_app d ks1 ks2 :
  dict_del_all d (ks1 ++ ks2) =
  match dict_del_all d ks1 with
  | inr d1 => dict_del_all d1 ks2
  | inl k => inl k
  end.
Proof.
  revert d. induction ks1 as [|k ks1 IH]; intros d; simpl; [done |].
  destruct (dict_del d k); [apply IH | done].
Qed.

Lemma dict_without_keys d ks k :
  k ∈ dict_keys (dict_without d ks) <-> k ∈ dict_keys d /\ k ∉ ks.
Proof.
  unfold dict_without, dict_keys. induction d as [|[k' v] d IH]; simpl.
  - split; [intros H; by apply not_elem_of_nil in H |].
    intros [H _]. by apply not_elem_of_nil in H.
  - destruct (bool_decide_reflect (k' ∉ ks)) as [Hin|Hin]; simpl.
    + rewrite !elem_of_cons, IH. split; [| tauto].
      intros [->|[? ?]]; auto.
    + rewrite elem_of_cons, IH. split; [tauto |].
      intros [[->|?] ?]; [done | auto].
Qed.

Lemma dict_without_NoDup d ks :
  NoDup (dict_keys d) -> NoDup (dict_keys (dict_without d ks)).
Proof. apply dict_keys_filter_NoDup. Qed.

Lemma dict_without_nil d : dict_without d [] = d.
Proof.
  unfold dict_without. apply forallb_filter_id, forallb_forall.
  intros kv _. apply bool_decide_eq_true, not_elem_of_nil.
Qed.

Lemma dict_without_cons d k ks :
  dict_without (List.filter (fun kv => negb (String.eqb (fst kv) k)) d) ks
  = dict_without d (k :: ks).
Proof.
  unfold dict_without. induction d as [|[k' v] d IH]; simpl; [done |].
  destruct (String.eqb_spec k' k) as [->|Hne]; simpl.
  - rewrite IH. rewrite (bool_decide_eq_false_2 (k ∉ k :: ks)); [done |].
    intros H. apply H. left.
  - rewrite IH.
    destruct (bool_decide_reflect (k' ∉ ks)) as [H|H].
    + rewrite (bool_decide_eq_true_2 (k' ∉ k :: ks)); [done |].
      apply not_elem_of_cons. done.
    + rewrite (bool_decide_eq_false_2 (k' ∉ k :: ks)); [done |].
      intros H'. apply H. by apply not_elem_of_cons in H' as [_ ?].
Qed.

(** The unguarded deletions all succeed exactly when the keys are pairwise
    different and all present; what is left is then the rest of the
    dictionary, in its order. *)
Lemma dict_del_all_inr d ks d' :
  NoDup (dict_keys d) ->
  dict_del_all d ks = inr d' ->
  NoDup ks /\ (forall k, k ∈ ks -> k ∈ dict_keys d) /\ d' = dict_without d ks.
Proof.
  revert d d'. induction ks as [|k ks IH]; simpl; intros d d' Hnd H.
  - injection H as <-. split; [constructor |]. split.
    + intros k Hk. by apply not_elem_of_nil in Hk.
    + by rewrite dict_without_nil.
  - destruct (dict_del d k) as [d1|] eqn:E; [| done].
    pose proof (dict_del_filter _ _ _ Hnd E) as Hd1.
    assert (Hnd1 : NoDup (dict_keys d1))
      by (rewrite Hd1; by apply dict_keys_filter_NoDup).
    destruct (IH _ _ Hnd1 H) as (Hks & Hsub & Hd').
    assert (Hk1 : k ∉ dict_keys d1).
    { rewrite Hd1. unfold dict_keys. intros Hin.
      apply list_elem_of_fmap in Hin as [[k1 v1] [-> Hin]].
      apply list_elem_of_In, filter_In in Hin as [_ Hin]. simpl in Hin.
      by rewrite String.eqb_refl in Hin. }
    split; [| split].
    + apply NoDup_cons. split; [| done]. intros Hin. apply Hk1. auto.
    + intros x Hx. apply elem_of_cons in Hx as [->|Hx].
      * by apply dict_del_Some_elem in E.
      * apply Hsub in Hx. rewrite Hd1 in Hx.
        by apply dict_keys_filter_sub in Hx.
    + rewrite Hd', Hd1. apply dict_without_cons.
Qed.

Lemma dict_del_all_inl d ks k :
  NoDup (dict_keys d) ->
  dict_del_all d ks = inl k ->
  k ∈ ks /\ ~ (NoDup ks /\ forall x, x ∈ ks -> x ∈ dict_keys d).
Proof.
  revert d. induction ks as [|k0 ks IH]; simpl; intros d Hnd H; [done |].
  destruct (dict_del d k0) as [d1|] eqn:E.
  - pose proof (dict_del_filter _ _ _ Hnd E) as Hd1.
    assert (Hnd1 : NoDup (dict_keys d1))
      by (rewrite Hd1; by apply dict_keys_filter_NoDup).
    destruct (IH _ Hnd1 H) as [Hk Hbad]. split; [by right |].
    intros [Hks Hsub]. apply NoDup_cons in Hks as [Hk0 Hks].
    apply Hbad. split; [done |]. intros x Hx.
    assert (Hxd : x ∈ dict_keys d) by (apply Hsub; by right).
    assert (Hne : x <> k0) by (intros ->; done).
    rewrite Hd1. clear -Hxd Hne. unfold dict_keys in *.
    apply list_elem_of_fmap in Hxd as [[k1 v1] [-> Hin]]. simpl in Hne.
    apply (list_elem_of_fmap_2 fst _ (k1, v1)).
    apply list_elem_of_In, filter_In. split; [by apply list_elem_of_In |].
    simpl. by apply negb_true_iff, String.eqb_neq.
  - injection H as <-. split; [by left |].
    intros [_ Hsub]. apply dict_del_None in E. apply E, Hsub. by left.
Qed.

(** The two lemmas above as one equivalence. *)
Lemma dict_del_all_ok d ks :
  NoDup (dict_keys d) ->
  (exists d', dict_del_all d ks = inr d') <->
  (NoDup ks /\ forall x, x ∈ ks -> x ∈ dict_keys d).
Proof.
  intros Hnd. split.
  - intros [d' H]. destruct (dict_del_all_inr _ _ _ Hnd H) as (? & ? & _). done.
  - intros Hok. destruct (dict_del_all d ks) as [k|d'] eqn:E; [| eauto].
    destruct (dict_del_all_inl _ _ _ Hnd E) as [_ Hbad]. done.
Qed.

End DictDelAll.

(** ** The monad *)

Ltac run_bind H :=
  unfold bind in H;
  match type of H with
  | context [match ?m ?w with _ => _ end] =>
      let E := fresh "E" in
      destruct (m w) as [[?e|?a] ?w] eqn:E
  end.

Section MonadFacts.

Context {A B : Type}.

Lemma quiet_ret (a : A) : quiet (ret a).
Proof. intros w r w' H. by injection H as _ <-. Qed.

Lemma quiet_raise (e : exn) : quiet (@raise A e).
Proof. intros w r w' H. by injection H as _ <-. Qed.

Lemma quiet_query (q : list call -> exn + A) : quiet (query q).
Proof. intros w r w' H. by injection H as _ <-. Qed.

Lemma quiet_bind (m : M A) (k : A -> M B) :
  quiet m -> (forall a, quiet (k a)) -> quiet (bind m k).
Proof.
  intros Hm Hk w r w' H. run_bind H.
  - injection H as _ <-. eauto.
  - apply Hk in H. apply Hm in E. congruence.
Qed.

Lemma quiet_try_except (m : M A) (handler : exn -> M A) :
  quiet m -> (forall e, quiet (handler e)) -> quiet (try_except m handler).
Proof.
  intros Hm Hh w r w' H. unfold try_except in H.
  destruct (m w) as [[e|a] w1] eqn:E.
  - apply Hh in H. apply Hm in E. congruence.
  - injection H as _ <-. eauto.
Qed.

Lemma quiet_emits (P : call -> Prop) (m : M A) : quiet m -> emits P m.
Proof.
  intros Hm w r w' H. exists []. rewrite app_nil_r. split; [eauto | constructor].
Qed.

Lemma emits_bind (P : call -> Prop) (m : M A) (k : A -> M B) :
  emits P m -> (forall a, emits P (k a)) -> emits P (bind m k).
Proof.
  intros Hm Hk w r w' H. run_bind H.
  - injection H as _ <-. eauto.
  - apply Hk in H as (l2 & -> & H2). apply Hm in E as (l1 & -> & H1).
    exists (l1 ++ l2). rewrite app_assoc. split; [done |].
    apply Forall_app. done.
Qed.

Lemma emits_try_except (P : call -> Prop) (m : M A) (handler : exn -> M A) :
  emits P m -> (forall e, emits P (handler e)) -> emits P (try_except m handler).
Proof.
  intros Hm Hh w r w' H. unfold try_except in H.
  destruct (m w) as [[e|a] w1] eqn:E.
  - apply Hh in H as (l2 & -> & H2). apply Hm in E as (l1 & -> & H1).
    exists (l1 ++ l2). rewrite app_assoc. split; [done |].
    apply Forall_app. done.
  - injection H as _ <-. eauto.
Qed.

End MonadFacts.

Lemma quiet_print (s : string) : quiet (print s).
Proof. intros w r w' H. by injection H as _ <-. Qed.

Lemma quiet_check (q : list call -> option exn) : quiet (check q).
Proof.
  intros w r w' H. unfold check in H.
  destruct (q (calls w)); by injection H as _ <-.
Qed.

Lemma quiet_del {V} (d : dict V) (k : string) : quiet (del d k).
Proof.
  unfold del. destruct (dict_del d k); [apply quiet_ret | apply quiet_raise].
Qed.

Lemma quiet_for_each {A} (l : list A) (body : A -> M unit) :
  (forall x, quiet (body x)) -> quiet (for_each l body).
Proof.
  intros Hb. induction l as [|x l IH]; simpl.
  - apply quiet_ret.
  - apply quiet_bind; auto.
Qed.

Lemma quiet_for_fold {A S} (l : list A) (s : S) (body : S -> A -> M S) :
  (forall s x, quiet (body s x)) -> quiet (for_fold l s body).
Proof.
  intros Hb. revert s. induction l as [|x l IH]; intros s; simpl.
  - apply quiet_ret.
  - apply quiet_bind; auto.
Qed.

Lemma emits_for_each (P : call -> Prop) {A} (l : list A) (body : A -> M unit) :
  Forall (fun x => emits P (body x)) l -> emits P (for_each l body).
Proof.
  induction 1 as [|x l Hx Hl IH]; simpl.
  - apply quiet_emits, quiet_ret.
  - apply emits_bind; auto.
Qed.

Lemma emits_perform (P : call -> Prop) env (c : call) :
  P c -> emits P (Usage.perform env c).
Proof.
  intros Hc w r w' H. unfold Usage.perform in H. exists [c].
  destruct (engine env (calls w) c); injection H as _ <-; simpl;
    (split; [done | by constructor]).
Qed.

Lemma emits_subprocess (P : call -> Prop) env (argv : list string) :
  P (SubprocessCall argv) -> emits P (Usage.subprocess env argv).
Proof.
  intros Hc w r w' H. unfold Usage.subprocess in H. exists [SubprocessCall argv].
  injection H as _ <-. simpl. split; [done | by constructor].
Qed.

Create HintDb quiet.

#[local] Hint Resolve quiet_ret quiet_raise quiet_query quiet_print quiet_check
  quiet_del : quiet.
#[local] Hint Extern 2 (quiet (bind _ _)) =>
  apply quiet_bind; [| intros ?] : quiet.
#[local] Hint Extern 2 (quiet (for_each _ _)) =>
  apply quiet_for_each; intros ? : quiet.
#[local] Hint Extern 2 (quiet (for_fold _ _ _)) =>
  apply quiet_for_fold; intros ? ? : quiet.
#[local] Hint Extern 3 (quiet (if ?b then _ else _)) => destruct b : quiet.
#[local] Hint Extern 3 (quiet (let '(_, _) := ?p in _)) => destruct p : quiet.

(** ** The status view issues no engine call *)

Lemma ps_service_quiet env project service :
  quiet (Usage.ps_service env project service).
Proof. unfold Usage.ps_service. auto 10 with quiet. Qed.

Lemma ps_quiet env project projectname servicenames :
  quiet (Usage.ps env project projectname servicenames).
Proof.
  unfold Usage.ps. pose proof (ps_service_quiet env project).
  auto 10 with quiet.
Qed.

(** ** Worlds *)

Lemma add_out_nil w : add_out w [] = w.
Proof. destruct w. unfold add_out. simpl. by rewrite app_nil_r. Qed.

Lemma add_out_app w l1 l2 : add_out (add_out w l1) l2 = add_out w (l1 ++ l2).
Proof. unfold add_out. simpl. by rewrite app_assoc. Qed.

Lemma add_calls_nil w : add_calls w [] = w.
Proof. destruct w. unfold add_calls. simpl. by rewrite app_nil_r. Qed.

Lemma add_calls_app w l1 l2 :
  add_calls (add_calls w l1) l2 = add_calls w (l1 ++ l2).
Proof. unfold add_calls. simpl. by rewrite app_assoc. Qed.

(** ** The inventory dictionary *)

Lemma index_by_id_acc (containers : list Container) (acc : dict Container) :
  let d := fold_left (fun unknown container =>
                        dict_set unknown (container_id container) container)
             containers acc in
  (NoDup (dict_keys acc) -> NoDup (dict_keys d)) /\
  (forall k, k ∈ dict_keys d <->
             k ∈ dict_keys acc \/ k ∈ map container_id containers) /\
  (Forall (fun kv => container_id (snd kv) = fst kv) acc ->
   Forall (fun kv => container_id (snd kv) = fst kv) d).
Proof.
  revert acc. induction containers as [|c cs IH]; intros acc; simpl.
  - split; [done |]. split; [| done]. intros k. split; [auto |].
    intros [?|H]; [done | by apply not_elem_of_nil in H].
  - destruct (IH (dict_set acc (container_id c) c)) as (Hnd & Hk & Hid).
    split; [| split].
    + intros H. by apply Hnd, dict_set_keys_NoDup.
    + intros k. rewrite Hk, dict_set_keys_elem, elem_of_cons. tauto.
    + intros H. apply Hid. apply dict_set_Forall; [done | done |].
      intros k' v' _ ->. done.
Qed.

Lemma index_by_id_NoDup containers :
  NoDup (dict_keys (Usage.index_by_id containers)).
Proof. apply (index_by_id_acc containers []). constructor. Qed.

Lemma index_by_id_keys containers k :
  k ∈ dict_keys (Usage.index_by_id containers) <->
  k ∈ map container_id containers.
Proof.
  destruct (index_by_id_acc containers []) as (_ & H & _).
  unfold Usage.index_by_id. rewrite H. split; [| auto].
  intros [H'|?]; [by apply not_elem_of_nil in H' | done].
Qed.

Lemma index_by_id_ids containers :
  Forall (fun kv => container_id (snd kv) = fst kv)
    (Usage.index_by_id containers).
Proof. apply (index_by_id_acc containers []). constructor. Qed.

(** ** The deletion loops *)

Lemma del_run {V} (d : dict V) (k : string) w :
  del d k w = (key_error (dict_del_all d [k]), w).
Proof. unfold del. simpl. by destruct (dict_del d k). Qed.

Lemma forget_plan_run (cs : list Container) (unknown : dict Container) w :
  for_fold cs unknown (fun unknown container =>
                         del unknown (container_id container)) w
  = (key_error (dict_del_all unknown (map container_id cs)), w).
Proof.
  revert unknown. induction cs as [|c cs IH]; intros unknown; simpl; [done |].
  unfold bind, del. destruct (dict_del unknown (container_id c)); [| done].
  apply IH.
Qed.

Lemma forget_planned_run (unknown : dict Container) plans w :
  Usage.forget_planned unknown plans w
  = (key_error (dict_del_all unknown (planned_ids plans)), w).
Proof.
  unfold Usage.forget_planned, planned_ids.
  revert unknown. induction plans as [|[s p] plans IH]; intros unknown; simpl.
  - done.
  - unfold bind. rewrite forget_plan_run, dict_del_all_app.
    destruct (dict_del_all unknown (map container_id (plan_containers p)));
      simpl; [done | apply IH].
Qed.

Lemma diff_names_run (cs : list Container) (unknown : dict Container)
    (names : list string) w :
  for_fold cs (unknown, names)
    (fun '(unknown, service_containers) container =>
       unknown <- del unknown (container_id container) ;;
       ret (unknown, service_containers ++ [container_name container])) w
  = (match dict_del_all unknown (map container_id cs) with
     | inl k => inl (KeyError k)
     | inr d => inr (d, names ++ map container_name cs)
     end, w).
Proof.
  revert unknown names. induction cs as [|c cs IH]; intros unknown names; simpl.
  - by rewrite app_nil_r.
  - unfold bind at 1. unfold bind at 1. unfold del.
    destruct (dict_del unknown (container_id c)); [| done]. simpl.
    rewrite IH. by rewrite <- app_assoc.
Qed.

Lemma diff_plan_run (unknown : dict Container) item w :
  Usage.diff_plan unknown item w
  = match dict_del_all unknown (map container_id (plan_containers (snd item))) with
    | inl k => (inl (KeyError k), w)
    | inr d => (inr d, add_out w [plan_view_row item])
    end.
Proof.
  destruct item as [s p]. unfold Usage.diff_plan, bind. rewrite diff_names_run.
  simpl. by destruct (dict_del_all unknown _).
Qed.

Lemma diff_plans_run (plans : dict ConvergencePlan) (unknown : dict Container) w :
  match dict_del_all unknown (planned_ids plans) with
  | inl k => exists n,
      for_fold plans unknown Usage.diff_plan w
      = (inl (KeyError k), add_out w (take n (map plan_view_row plans)))
  | inr d =>
      for_fold plans unknown Usage.diff_plan w
      = (inr d, add_out w (map plan_view_row plans))
  end.
Proof.
  unfold planned_ids. revert unknown w.
  induction plans as [|item plans IH]; intros unknown w; simpl.
  - by rewrite add_out_nil.
  - unfold bind. rewrite diff_plan_run, dict_del_all_app.
    destruct (dict_del_all unknown _) as [k|d1]; simpl.
    + exists 0. by rewrite add_out_nil.
    + specialize (IH d1 (add_out w [plan_view_row item])).
      destruct (dict_del_all d1 _) as [k|d2].
      * destruct IH as [n IH]. exists (S n). rewrite IH, add_out_app. done.
      * rewrite IH, add_out_app. done.
Qed.

(** ** [up], phase by phase *)

(** When the four queries answer, [up] either stops at the first deletion
    that raises, before anything is applied, or goes on with the orphan
    dictionary it has computed. *)
Lemma up_run env project projectname servicenames w c1 c2 services plans :
  project_containers env (calls w) project None true false = inr c1 ->
  project_containers env (calls w) project None false true = inr c2 ->
  get_services env (calls w) project (Some servicenames) true = inr services ->
  get_convergence_plans env (calls w) project services true = inr plans ->
  Usage.up env project projectname servicenames w
  = match dict_del_all (Usage.index_by_id (c1 ++ c2)) (planned_ids plans) with
    | inl k => (inl (KeyError k), w)
    | inr unknown => up_apply env project projectname servicenames unknown w
    end.
Proof.
  intros H1 H2 H3 H4. unfold Usage.up, bind at 1, query at 1. rewrite H1.
  unfold bind at 1, query at 1. rewrite H2.
  unfold bind at 1, query at 1. rewrite H3.
  unfold bind at 1, query at 1. rewrite H4.
  unfold bind at 1. rewrite forget_planned_run.
  by destruct (dict_del_all _ _).
Qed.

(** Without assumptions on the queries: a run of [up] that issues any call
    has computed its orphan dictionary from the inventory queried in the
    initial world. *)
Lemma up_cases env project projectname servicenames w r w' :
  Usage.up env project projectname servicenames w = (r, w') ->
  ((exists e, r = inl e) /\ w' = w) \/
  exists c1 c2 services plans unknown,
    project_containers env (calls w) project None true false = inr c1 /\
    project_containers env (calls w) project None false true = inr c2 /\
    get_services env (calls w) project (Some servicenames) true = inr services /\
    get_convergence_plans env (calls w) project services true = inr plans /\
    dict_del_all (Usage.index_by_id (c1 ++ c2)) (planned_ids plans)
      = inr unknown /\
    up_apply env project projectname servicenames unknown w = (r, w').
Proof.
  intros H.
  destruct (project_containers env (calls w) project None true false)
    as [e|c1] eqn:H1.
  { unfold Usage.up, bind at 1, query at 1 in H. rewrite H1 in H.
    injection H as <- <-. left. eauto. }
  destruct (project_containers env (calls w) project None false true)
    as [e|c2] eqn:H2.
  { unfold Usage.up, bind at 1, query at 1 in H. rewrite H1 in H.
    unfold bind at 1, query at 1 in H. rewrite H2 in H.
    injection H as <- <-. left. eauto. }
  destruct (get_services env (calls w) project (Some servicenames) true)
    as [e|services] eqn:H3.
  { unfold Usage.up, bind at 1, query at 1 in H. rewrite H1 in H.
    unfold bind at 1, query at 1 in H. rewrite H2 in H.
    unfold bind at 1, query at 1 in H. rewrite H3 in H.
    injection H as <- <-. left. eauto. }
  destruct (get_convergence_plans env (calls w) project services true)
    as [e|plans] eqn:H4.
  { unfold Usage.up, bind at 1, query at 1 in H. rewrite H1 in H.
    unfold bind at 1, query at 1 in H. rewrite H2 in H.
    unfold bind at 1, query at 1 in H. rewrite H3 in H.
    unfold bind at 1, query at 1 in H. rewrite H4 in H.
    injection H as <- <-. left. eauto. }
  rewrite (up_run _ _ _ _ _ _ _ _ _ H1 H2 H3 H4) in H.
  destruct (dict_del_all _ _) as [k|unknown] eqn:E.
  - injection H as <- <-. left. eauto.
  - right. exists c1, c2, services, plans, unknown. done.
Qed.

Lemma wait_for_exit_emits env container :
  emits (fun c => container_call c = Some (container_id container))
    (Usage.wait_for_exit env container).
Proof.
  unfold Usage.wait_for_exit. apply emits_try_except.
  - by apply emits_perform.
  - intros e. apply quiet_emits. destruct e; auto with quiet.
Qed.

Lemma reclaim_emits env container :
  emits (fun c => container_call c = Some (container_id container))
    (Usage.reclaim env container).
Proof.
  unfold Usage.reclaim. apply emits_bind; [| intros _; by apply emits_perform].
  destruct (is_running container); [| apply quiet_emits, quiet_ret].
  repeat (apply emits_bind; [| intros _]);
    try apply wait_for_exit_emits; by apply emits_perform.
Qed.

Lemma emits_weaken (P Q : call -> Prop) {A} (m : M A) :
  (forall c, P c -> Q c) -> emits P m -> emits Q m.
Proof.
  intros HPQ Hm w r w' H. apply Hm in H as (l & ? & Hl).
  exists l. split; [done |]. eapply Forall_impl; eauto.
Qed.

(** The reclaimer only addresses containers that are keys of the dictionary
    it walks. *)
Lemma reclaim_all_emits env (unknown : dict Container) :
  Forall (fun kv => container_id (snd kv) = fst kv) unknown ->
  emits (fun c => exists id, container_call c = Some id /\ id ∈ dict_keys unknown)
    (for_each unknown (fun '(id, container) => Usage.reclaim env container)).
Proof.
  intros Hid. apply emits_for_each. apply Forall_forall.
  intros [k c] Hin. eapply emits_weaken; [| apply reclaim_emits].
  intros x Hx. exists (container_id c). split; [done |].
  rewrite Forall_forall in Hid. specialize (Hid _ Hin). simpl in Hid.
  rewrite Hid. by apply (list_elem_of_fmap_2 fst _ (k, c)).
Qed.

Lemma dict_without_ids (d : dict Container) ks :
  Forall (fun kv => container_id (snd kv) = fst kv) d ->
  Forall (fun kv => container_id (snd kv) = fst kv) (dict_without d ks).
Proof.
  intros H. apply Forall_forall. intros kv Hin.
  apply list_elem_of_In, filter_In in Hin as [Hin _].
  rewrite Forall_forall in H. apply H. by apply list_elem_of_In.
Qed.

(** The shape of the calls of [up] after the planning phase. *)
Lemma up_apply_calls env project projectname servicenames unknown w r w' :
  Forall (fun kv => container_id (snd kv) = fst kv) unknown ->
  up_apply env project projectname servicenames unknown w = (r, w') ->
  exists after,
    calls w' = calls w ++ ProjectUp project servicenames true :: after /\
    (servicenames <> [] -> after = []) /\
    Forall (fun c => exists id, container_call c = Some id
                                /\ id ∈ dict_keys unknown) after.
Proof.
  intros Hid H. unfold up_apply in H. unfold bind at 1 in H.
  unfold Usage.perform at 1 in H.
  destruct (engine env (calls w) (ProjectUp project servicenames true)).
  { injection H as _ <-. exists []. simpl. repeat split; auto. }
  match type of H with
  | bind ?m ?k ?w1 = _ =>
      assert (Hm : emits
                (fun c => exists id, container_call c = Some id
                                     /\ id ∈ dict_keys unknown /\
                                     servicenames = []) m)
  end.
  { destruct servicenames; simpl.
    - eapply emits_weaken; [| by apply reclaim_all_emits].
      intros c (id & ? & ?). eauto.
    - apply quiet_emits, quiet_ret. }
  eapply emits_bind in Hm.
  2:{ intros a. apply quiet_emits. apply ps_quiet. }
  apply Hm in H as (after & Hc & Hafter). simpl in Hc.
  exists after. rewrite Hc, <- app_assoc. simpl. split; [done |]. split.
  - intros Hne. destruct after as [|c after]; [done |].
    apply Forall_cons in Hafter as [(id & _ & _ & ?) _]. done.
  - eapply Forall_impl; [exact Hafter |]. intros c (id & ? & ? & _). eauto.
Qed.

(** ** Orphans and plans *)


(** C3.  Whatever the environment does, a run of [up] that reaches plan
    application has by then computed its orphan dictionary, from the
    inventory and the plans queried in the initial world; [project.up] is
    the first engine call, and every later call is addressed to a key of
    that dictionary, hence to a container of the pre-plan inventory.  A
    container whose id is not in that inventory, such as one created by
    plan application, is never addressed. *)
Theorem up_orphans_fixed_before_apply env project projectname servicenames
    w r w' :
  Usage.up env project projectname servicenames w = (r, w') ->
  calls w' = calls w \/
  exists c1 c2 services plans unknown after,
    project_containers env (calls w) project None true false = inr c1 /\
    project_containers env (calls w) project None false true = inr c2 /\
    get_services env (calls w) project (Some servicenames) true = inr services /\
    get_convergence_plans env (calls w) project services true = inr plans /\
    Usage.forget_planned (Usage.index_by_id (c1 ++ c2)) plans w
      = (inr unknown, w) /\
    calls w' = calls w ++ ProjectUp project servicenames true :: after /\
    Forall (fun c => exists id, container_call c = Some id
                                /\ id ∈ dict_keys unknown) after /\
    (forall id, id ∈ dict_keys unknown ->
                id ∈ map container_id (c1 ++ c2) /\ id ∉ planned_ids plans) /\
    (forall id, id ∉ map container_id (c1 ++ c2) ->
                Forall (fun c => container_call c <> Some id) after).
Proof.
  intros H. apply up_cases in H as [[_ ->]|H]; [by left | right].
  destruct H as (c1 & c2 & services & plans & unknown & H1 & H2 & H3 & H4 & Hd & H).
  destruct (dict_del_all_inr _ _ _ (index_by_id_NoDup (c1 ++ c2)) Hd)
    as (_ & _ & Hu).
  assert (Hkeys : forall id, id ∈ dict_keys unknown ->
            id ∈ map container_id (c1 ++ c2) /\ id ∉ planned_ids plans).
  { intros id Hin. rewrite Hu in Hin. apply dict_without_keys in Hin as [Hin ?].
    by apply index_by_id_keys in Hin. }
  apply up_apply_calls in H as (after & Hc & _ & Hafter).
  2:{ rewrite Hu. apply dict_without_ids, index_by_id_ids. }
  exists c1, c2, services, plans, unknown, after.
  repeat (split; [done |]).
  split; [by rewrite forget_planned_run, Hd |].
  repeat (split; [done |]).
  intros id Hid. eapply Forall_impl; [exact Hafter |].
  intros c (id' & Hc' & Hin) Heq. rewrite Hc' in Heq. injection Heq as ->.
  apply Hkeys in Hin as [? _]. done.
Qed.

(** C4.  With service names given, [up] issues at most one engine call, the
    plan application itself: no kill, wait, stop or remove reaches any
    container, orphan candidates included. *)
Theorem up_scoped_skips_reclaim env project projectname servicenames w r w' :
  servicenames <> [] ->
  Usage.up env project projectname servicenames w = (r, w') ->
  exists l,
    calls w' = calls w ++ l /\
    (l = [] \/ l = [ProjectUp project servicenames true]) /\
    Forall (fun c => container_call c = None) l.
Proof.
  intros Hne H. apply up_cases in H as [[_ ->]|H].
  { exists []. rewrite app_nil_r. auto. }
  destruct H as (c1 & c2 & services & plans & unknown & _ & _ & _ & _ & Hd & H).
  destruct (dict_del_all_inr _ _ _ (index_by_id_NoDup (c1 ++ c2)) Hd)
    as (_ & _ & Hu).
  apply up_apply_calls in H as (after & Hc & Hnil & _).
  2:{ rewrite Hu. apply dict_without_ids, index_by_id_ids. }
  rewrite (Hnil Hne) in Hc. exists [ProjectUp project servicenames true].
  split; [done |]. split; [by right |]. by repeat constructor.
Qed.

Lemma up_orphans_fixed_before_apply_witness :
  let w' := snd (Usage.up demo_env demo_project "web" [] w0) in
  calls w' = calls w0 \/
  exists c1 c2 services plans unknown after,
    project_containers demo_env (calls w0) demo_project None true false
      = inr c1 /\
    project_containers demo_env (calls w0) demo_project None false true
      = inr c2 /\
    get_services demo_env (calls w0) demo_project (Some []) true
      = inr services /\
    get_convergence_plans demo_env (calls w0) demo_project services true
      = inr plans /\
    Usage.forget_planned (Usage.index_by_id (c1 ++ c2)) plans w0
      = (inr unknown, w0) /\
    calls w' = calls w0 ++ ProjectUp demo_project [] true :: after /\
    Forall (fun c => exists id, container_call c = Some id
                                /\ id ∈ dict_keys unknown) after /\
    (forall id, id ∈ dict_keys unknown ->
                id ∈ map container_id (c1 ++ c2) /\ id ∉ planned_ids plans) /\
    (forall id, id ∉ map container_id (c1 ++ c2) ->
                Forall (fun c => container_call c <> Some id) after).
Proof.
  apply (up_orphans_fixed_before_apply demo_env demo_project "web" [] w0
           (fst (Usage.up demo_env demo_project "web" [] w0))).
  reflexivity.
Defined.

Lemma up_scoped_skips_reclaim_witness :
  ["app"] <> [] /\
  exists l,
    calls (snd (Usage.up demo_env demo_project "web" ["app"] w0))
      = calls w0 ++ l /\
    (l = [] \/ l = [ProjectUp demo_project ["app"] true]) /\
    Forall (fun c => container_call c = None) l.
Proof.
  split; [discriminate |].
  apply (up_scoped_skips_reclaim demo_env demo_project "web" ["app"] w0
           (fst (Usage.up demo_env demo_project "web" ["app"] w0))).
  - discriminate.
  - reflexivity.
Defined.

(** ** The reclaimer on an obedient engine *)

Section Reclaim.

Variable env : Env.
Hypothesis Hengine : engine_obeys env.

Lemma wait_for_exit_run container w :
  Usage.wait_for_exit env container w
  = (inr tt, add_calls w [ClientWait (container_id container) 10]).
Proof.
  unfold Usage.wait_for_exit, try_except, Usage.perform.
  destruct (Hengine (calls w) (ClientWait (container_id container) 10))
    as [-> | ->]; reflexivity.
Qed.

Lemma perform_kill_run id signal w :
  Usage.perform env (ContainerKill id signal) w
  = (inr tt, add_calls w [ContainerKill id signal]).
Proof.
  unfold Usage.perform.
  by rewrite (Hengine (calls w) (ContainerKill id signal)).
Qed.

Lemma perform_stop_run id w :
  Usage.perform env (ContainerStop id) w
  = (inr tt, add_calls w [ContainerStop id]).
Proof.
  unfold Usage.perform. by rewrite (Hengine (calls w) (ContainerStop id)).
Qed.

Lemma perform_remove_run id w :
  Usage.perform env (ContainerRemove id) w
  = (inr tt, add_calls w [ContainerRemove id]).
Proof.
  unfold Usage.perform. by rewrite (Hengine (calls w) (ContainerRemove id)).
Qed.

Lemma reclaim_run container w :
  Usage.reclaim env container w = (inr tt, add_calls w (teardown container)).
Proof.
  unfold Usage.reclaim, teardown.
  destruct (is_running container); unfold bind.
  - rewrite perform_kill_run, wait_for_exit_run, perform_stop_run,
      wait_for_exit_run, perform_remove_run.
    by rewrite !add_calls_app.
  - simpl. by rewrite perform_remove_run.
Qed.

Lemma reclaim_all_run (unknown : dict Container) w :
  for_each unknown (fun '(id, container) => Usage.reclaim env container) w
  = (inr tt, add_calls w (concat (map (fun kv => teardown (snd kv)) unknown))).
Proof.
  revert w. induction unknown as [|[k c] unknown IH]; intros w; simpl.
  - by rewrite add_calls_nil.
  - unfold bind. rewrite reclaim_run, IH, add_calls_app. done.
Qed.

End Reclaim.

Lemma removals_app id l1 l2 :
  removals id (l1 ++ l2) = removals id l1 + removals id l2.
Proof. unfold removals. by rewrite List.filter_app, length_app. Qed.

Lemma removals_teardown id container :
  removals id (teardown container)
  = if String.eqb (container_id container) id then 1 else 0.
Proof.
  unfold teardown, removals.
  destruct (is_running container); simpl;
    by destruct (String.eqb (container_id container) id).
Qed.

(** Over a dictionary keyed by container id, the teardowns remove each key
    once and nothing else. *)
Lemma removals_reclaimed (unknown : dict Container) id :
  NoDup (dict_keys unknown) ->
  Forall (fun kv => container_id (snd kv) = fst kv) unknown ->
  removals id (concat (map (fun kv => teardown (snd kv)) unknown))
  = if bool_decide (id ∈ dict_keys unknown) then 1 else 0.
Proof.
  induction unknown as [|[k c] unknown IH]; intros Hnd Hid.
  - rewrite bool_decide_eq_false_2; [done | apply not_elem_of_nil].
  - apply NoDup_cons in Hnd as [Hk Hnd]. apply Forall_cons in Hid as [Hc Hid].
    simpl in Hc. change (dict_keys ((k, c) :: unknown)) with (k :: dict_keys unknown).
    change (concat (map (fun kv => teardown (snd kv)) ((k, c) :: unknown)))
      with (teardown c ++ concat (map (fun kv => teardown (snd kv)) unknown)).
    rewrite removals_app, removals_teardown, IH, Hc by done.
    destruct (String.eqb_spec k id) as [->|Hne].
    + rewrite (bool_decide_eq_false_2 (id ∈ dict_keys unknown)) by done.
      rewrite bool_decide_eq_true_2; [done | left].
    + destruct (bool_decide_reflect (id ∈ dict_keys unknown)) as [Hin|Hin].
      * rewrite bool_decide_eq_true_2; [done | by right].
      * rewrite bool_decide_eq_false_2; [done |].
        apply not_elem_of_cons. split; [congruence | done].
Qed.

(** C1.  [up] without service names, on an engine where kill, stop and
    remove succeed and a bounded wait either returns or raises
    [ReadTimeout]: after plan application the reclaimer walks the orphan
    dictionary and issues, for a running orphan, SIGTERM, a wait of at most
    10 seconds, a stop, a second wait of at most 10 seconds and the
    removal, and for a stopped orphan the removal alone; a timeout of
    either wait changes nothing.  Every orphan is removed exactly once and
    no other container is removed. *)
Theorem up_reclaims_every_orphan env project projectname w
    c1 c2 services plans unknown :
  project_containers env (calls w) project None true false = inr c1 ->
  project_containers env (calls w) project None false true = inr c2 ->
  get_services env (calls w) project (Some []) true = inr services ->
  get_convergence_plans env (calls w) project services true = inr plans ->
  Usage.forget_planned (Usage.index_by_id (c1 ++ c2)) plans w
    = (inr unknown, w) ->
  engine env (calls w) (ProjectUp project [] true) = None ->
  engine_obeys env ->
  let reclaimed := concat (map (fun kv => teardown (snd kv)) unknown) in
  Usage.up env project projectname [] w
  = Usage.ps env project projectname []
      (add_calls w (ProjectUp project [] true :: reclaimed))
  /\ calls (snd (Usage.up env project projectname [] w))
     = calls w ++ ProjectUp project [] true :: reclaimed
  /\ (forall id, id ∈ dict_keys unknown -> removals id reclaimed = 1)
  /\ (forall id, id ∉ dict_keys unknown -> removals id reclaimed = 0).
Proof.
  intros H1 H2 H3 H4 Hf Hup Hengine reclaimed.
  rewrite forget_planned_run in Hf.
  destruct (dict_del_all _ _) as [k|d] eqn:Hd; simpl in Hf; [congruence |].
  assert (d = unknown) as -> by congruence. clear Hf.
  destruct (dict_del_all_inr _ _ _ (index_by_id_NoDup (c1 ++ c2)) Hd)
    as (_ & _ & Hu).
  assert (Hrun : Usage.up env project projectname [] w
                 = Usage.ps env project projectname []
                     (add_calls w (ProjectUp project [] true :: reclaimed))).
  { rewrite (up_run _ _ _ _ _ _ _ _ _ H1 H2 H3 H4), Hd.
    unfold up_apply, bind at 1, Usage.perform at 1. rewrite Hup.
    unfold bind at 1. cbn [Nat.eqb length].
    rewrite (reclaim_all_run env Hengine).
    fold (add_calls w [ProjectUp project [] true]).
    by rewrite add_calls_app. }
  assert (Hnd : NoDup (dict_keys unknown)).
  { rewrite Hu. apply dict_without_NoDup, index_by_id_NoDup. }
  assert (Hid : Forall (fun kv => container_id (snd kv) = fst kv) unknown).
  { rewrite Hu. apply dict_without_ids, index_by_id_ids. }
  split; [exact Hrun |]. split; [| split].
  - rewrite Hrun.
    destruct (Usage.ps env project projectname []
                (add_calls w (ProjectUp project [] true :: reclaimed)))
      as [r w'] eqn:E.
    apply ps_quiet in E. simpl in *. done.
  - intros id Hin. unfold reclaimed.
    rewrite removals_reclaimed by done. by rewrite bool_decide_eq_true_2.
  - intros id Hin. unfold reclaimed.
    rewrite removals_reclaimed by done. by rewrite bool_decide_eq_false_2.
Qed.

Lemma demo_engine_obeys : engine_obeys demo_env.
Proof.
  intros h c. destruct c; simpl; auto. destruct (has_call _ h); auto.
Qed.

Lemma up_reclaims_every_orphan_witness :
  let unknown := [("o1", web_old_1); ("t1", web_tmp_1)] in
  let reclaimed := concat (map (fun kv => teardown (snd kv)) unknown) in
  Usage.up demo_env demo_project "web" [] w0
  = Usage.ps demo_env demo_project "web" []
      (add_calls w0 (ProjectUp demo_project [] true :: reclaimed))
  /\ calls (snd (Usage.up demo_env demo_project "web" [] w0))
     = calls w0 ++ ProjectUp demo_project [] true :: reclaimed
  /\ (forall id, id ∈ dict_keys unknown -> removals id reclaimed = 1)
  /\ (forall id, id ∉ dict_keys unknown -> removals id reclaimed = 0).
Proof.
  apply (up_reclaims_every_orphan demo_env demo_project "web" w0
           [web_app_1; web_old_1; web_tmp_1] []
           [ {| service_name := "app" |}; {| service_name := "db" |} ]
           demo_plans [("o1", web_old_1); ("t1", web_tmp_1)]);
    try reflexivity.
  apply demo_engine_obeys.
Defined.

(** The same run, call by call: the first wait on [o1] times out. *)
Example up_demo_calls :
  calls (snd (Usage.up demo_env demo_project "web" [] w0))
  = [ProjectUp demo_project [] true;
     ContainerKill "o1" "SIGTERM"; ClientWait "o1" 10;
     ContainerStop "o1"; ClientWait "o1" 10; ContainerRemove "o1";
     ContainerRemove "t1"]
  /\ engine demo_env [ProjectUp demo_project [] true; ContainerKill "o1" "SIGTERM"]
       (ClientWait "o1" 10) = Some ReadTimeout.
Proof. split; reflexivity. Qed.

(** ** The status view *)

Lemma print_run s w : print s w = (inr tt, add_out w [s]).
Proof. reflexivity. Qed.

Lemma for_each_ext {A} (l : list A) (f g : A -> M unit) :
  (forall x, f x = g x) -> for_each l f = for_each l g.
Proof.
  intros H. induction l as [|x l IH]; simpl; [done |]. by rewrite H, IH.
Qed.

Lemma print_rows_run {A} (l : list A) (row : A -> string) w :
  for_each l (fun x => print (row x)) w = (inr tt, add_out w (map row l)).
Proof.
  revert w. induction l as [|x l IH]; intros w; simpl.
  - by rewrite add_out_nil.
  - unfold bind. rewrite print_run, IH, add_out_app. done.
Qed.

Lemma ps_service_run env project service w c1 c2 :
  service_containers env (calls w) project service true false = inr c1 ->
  service_containers env (calls w) project service false true = inr c2 ->
  Usage.ps_service env project service w
  = (inr tt, add_out w (status_view_rows service (c1 ++ c2))).
Proof.
  intros H1 H2. unfold Usage.ps_service, bind at 1, query at 1. rewrite H1.
  unfold bind at 1, query at 1. rewrite H2.
  unfold bind at 1.
  destruct (c1 ++ c2) as [|c cs] eqn:E.
  - reflexivity.
  - cbn [length Nat.eqb]. unfold ret at 1.
    rewrite (print_rows_run (c :: cs)
               (fun c => status_row (name_without_project c)
                           (human_readable_state c)
                           (address_shown (container_ip c)))).
    done.
Qed.

Lemma ps_services_run env project (services : list Service)
    (live : Service -> list Container) w :
  (forall s, s ∈ services -> exists c1 c2,
     service_containers env (calls w) project s true false = inr c1 /\
     service_containers env (calls w) project s false true = inr c2 /\
     live s = c1 ++ c2) ->
  for_each services (Usage.ps_service env project) w
  = (inr tt,
     add_out w (concat (map (fun s => status_view_rows s (live s)) services))).
Proof.
  revert w. induction services as [|s services IH]; intros w Hq; simpl.
  - by rewrite add_out_nil.
  - destruct (Hq s) as (c1 & c2 & H1 & H2 & ->); [left |].
    unfold bind. rewrite (ps_service_run _ _ _ _ _ _ H1 H2).
    rewrite IH, add_out_app; [done |].
    intros s' Hs'. apply Hq. by right.
Qed.

Lemma ps_run env project projectname servicenames services
    (live : Service -> list Container) w :
  get_services env (calls w) project (Some servicenames) false = inr services ->
  (forall s, s ∈ services -> exists c1 c2,
     service_containers env (calls w) project s true false = inr c1 /\
     service_containers env (calls w) project s false true = inr c2 /\
     live s = c1 ++ c2) ->
  Usage.ps env project projectname servicenames w
  = (inr tt,
     add_out w
       ([""; "  " +:+ projectname +:+ " services:"; ""]
        ++ concat (map (fun s => status_view_rows s (live s)) services)
        ++ [""])).
Proof.
  intros Hs Hq. unfold Usage.ps. unfold bind. rewrite !print_run.
  unfold query. simpl calls. rewrite Hs.
  rewrite (ps_services_run env project services live); [| exact Hq].
  rewrite print_run, !add_out_app. done.
Qed.

(** C8.  [ps PROJECT] prints, between its header and the closing empty
    line, the rows of each listed service in turn: a single row with state
    Uncreated and an empty address for a service without live containers,
    otherwise a row per container, where an empty bridge address is shown
    as (host).  The unknown-container rows of the bare [ps] show (host) in
    the same way.  No engine call is issued, whatever the environment
    answers. *)
Theorem ps_status_view env project projectname servicenames services
    (live : Service -> list Container) w :
  get_services env (calls w) project (Some servicenames) false = inr services ->
  (forall s, s ∈ services -> exists c1 c2,
     service_containers env (calls w) project s true false = inr c1 /\
     service_containers env (calls w) project s false true = inr c2 /\
     live s = c1 ++ c2) ->
  Usage.ps env project projectname servicenames w
  = (inr tt,
     {| calls := calls w;
        out := out w
               ++ [""; "  " +:+ projectname +:+ " services:"; ""]
               ++ concat (map (fun s => status_view_rows s (live s)) services)
               ++ [""] |})
  /\ (forall s, live s = [] ->
        status_view_rows s (live s)
        = ["  " +:+ ljust 24 (service_name s) +:+ ljust 12 "Uncreated"
           +:+ ljust 17 ""])
  /\ (forall s i c, live s !! i = Some c -> container_ip c = "" ->
        status_view_rows s (live s) !! i
        = Some ("  " +:+ ljust 24 (name_without_project c)
                +:+ ljust 12 (human_readable_state c) +:+ ljust 17 "(host)"))
  /\ (forall detail w2, detail_IPAddress detail = "" ->
        exists name,
          Usage._ps_unknown detail w2
          = (inr tt, add_out w2 ["  " +:+ ljust 24 name +:+ ljust 12 ""
                                 +:+ ljust 17 "(host)"]))
  /\ (forall env2 w2 r w', Usage.ps env2 project projectname servicenames w2
                           = (r, w') -> calls w' = calls w2).
Proof.
  intros Hs Hq. split; [| split; [| split; [| split]]].
  - by rewrite (ps_run _ _ _ _ _ live _ Hs Hq).
  - intros s ->. reflexivity.
  - intros s i c Hi Hip. destruct (live s) as [|c0 cs] eqn:E; [done |].
    unfold status_view_rows. rewrite list_lookup_fmap, Hi. simpl.
    by rewrite Hip.
  - intros detail w2 Hip. unfold Usage._ps_unknown. rewrite Hip. simpl.
    eexists. rewrite print_run. reflexivity.
  - intros env2 w2 r w' H. by apply ps_quiet in H.
Qed.

Lemma ps_status_view_witness :
  let live := fun s => if String.eqb (service_name s) "app" then [web_app_1]
                       else if String.eqb (service_name s) "db" then [web_db_1]
                       else [] in
  let services := [ {| service_name := "app" |}; {| service_name := "db" |} ] in
  Usage.ps demo_env demo_project "web" [] w1
  = (inr tt,
     {| calls := calls w1;
        out := out w1
               ++ [""; "  " +:+ "web" +:+ " services:"; ""]
               ++ concat (map (fun s => status_view_rows s (live s)) services)
               ++ [""] |})
  /\ (forall s, live s = [] ->
        status_view_rows s (live s)
        = ["  " +:+ ljust 24 (service_name s) +:+ ljust 12 "Uncreated"
           +:+ ljust 17 ""])
  /\ (forall s i c, live s !! i = Some c -> container_ip c = "" ->
        status_view_rows s (live s) !! i
        = Some ("  " +:+ ljust 24 (name_without_project c)
                +:+ ljust 12 (human_readable_state c) +:+ ljust 17 "(host)"))
  /\ (forall detail w2, detail_IPAddress detail = "" ->
        exists name,
          Usage._ps_unknown detail w2
          = (inr tt, add_out w2 ["  " +:+ ljust 24 name +:+ ljust 12 ""
                                 +:+ ljust 17 "(host)"]))
  /\ (forall env2 w2 r w', Usage.ps env2 demo_project "web" [] w2
                           = (r, w') -> calls w' = calls w2).
Proof.
  apply (ps_status_view demo_env demo_project "web" []
           [ {| service_name := "app" |}; {| service_name := "db" |} ]
           (fun s => if String.eqb (service_name s) "app" then [web_app_1]
                     else if String.eqb (service_name s) "db" then [web_db_1]
                     else [])
           w1).
  - reflexivity.
  - intros s Hs. apply elem_of_cons in Hs as [->|Hs].
    + exists [web_app_1], []. repeat split; reflexivity.
    + apply list_elem_of_singleton in Hs as ->.
      exists [web_db_1], []. repeat split; reflexivity.
Defined.

(** The two views of the concrete project, before and after [up]. *)
Example ps_demo_before :
  out (snd (Usage.ps demo_env demo_project "web" [] w0))
  = [""; "  web services:"; "";
     "  app_1                   Up          172.17.0.2       ";
     "  db                      Uncreated                    "; ""].
Proof. reflexivity. Qed.

Example ps_demo_after :
  out (snd (Usage.ps demo_env demo_project "web" [] w1))
  = [""; "  web services:"; "";
     "  app_1                   Up          172.17.0.2       ";
     "  db_1                    Up          (host)           "; ""].
Proof. reflexivity. Qed.

(** ** [main] *)

(** The handlers of [main] print and exit; they issue no engine call. *)
Lemma main_calls env argv w :
  calls (snd (main env argv w)) = calls (snd (Usage.__init__ env argv w)).
Proof.
  unfold main, try_except.
  destruct (Usage.__init__ env argv w) as [[e|[]] w1]; [| done].
  destruct e; reflexivity.
Qed.

Lemma init_exec env argv PROJECT SERVICE COMMANDS w :
  docopt env argv = inr (OptExec PROJECT SERVICE COMMANDS) ->
  Usage.__init__ env argv w = Usage._exec env PROJECT SERVICE (Some COMMANDS) w.
Proof.
  intros H. unfold Usage.__init__, bind at 1, try_except, query. by rewrite H.
Qed.

(** C9.  [exec] runs [docker exec -it] on the container named
    [{project}_{service}_1], the first replica, and on nothing else; the
    command is [/bin/bash] when none is given (no list at all, or an empty
    one) and the given command otherwise.  This is what [main] does for
    every command line [docopt] reads as [exec PROJECT SERVICE COMMANDS]. *)
Theorem exec_targets_first_replica env projectname servicename commands w :
  exists command,
    calls (snd (Usage._exec env projectname servicename commands w))
    = calls w ++ [SubprocessCall
                    (["docker"; "exec"; "-it";
                      projectname +:+ "_" +:+ servicename +:+ "_1"]
                     ++ command)]
    /\ (commands = None \/ commands = Some [] -> command = ["/bin/bash"])
    /\ (forall c, commands = Some c -> c <> [] -> command = c)
    /\ (forall argv COMMANDS,
          docopt env argv = inr (OptExec projectname servicename COMMANDS) ->
          commands = Some COMMANDS ->
          calls (snd (main env argv w))
          = calls w ++ [SubprocessCall
                          (["docker"; "exec"; "-it";
                            projectname +:+ "_" +:+ servicename +:+ "_1"]
                           ++ command)]).
Proof.
  exists (match commands with
          | None | Some [] => ["/bin/bash"]
          | Some c => c
          end).
  assert (Hrun :
    calls (snd (Usage._exec env projectname servicename commands w))
    = calls w ++ [SubprocessCall
                    (["docker"; "exec"; "-it";
                      projectname +:+ "_" +:+ servicename +:+ "_1"]
                     ++ match commands with
                        | None | Some [] => ["/bin/bash"]
                        | Some c => c
                        end)]).
  { unfold Usage._exec, bind, print, Usage.subprocess, sys_exit, raise. simpl.
    by destruct (subprocess_call env (calls w) _). }
  split; [exact Hrun |]. split; [| split].
  - by intros [-> | ->].
  - intros c -> Hc. by destruct c.
  - intros argv COMMANDS Hd ->.
    by rewrite main_calls, (init_exec _ _ _ _ _ _ Hd).
Qed.

Lemma exec_targets_first_replica_witness :
  exists command,
    calls (snd (Usage._exec demo_env "web" "app" (Some []) w0))
    = calls w0 ++ [SubprocessCall
                     (["docker"; "exec"; "-it"; "web" +:+ "_" +:+ "app" +:+ "_1"]
                      ++ command)]
    /\ (@Some (list string) [] = None \/ @Some (list string) [] = Some [] -> command = ["/bin/bash"])
    /\ (forall c, @Some (list string) [] = Some c -> c <> [] -> command = c)
    /\ (forall argv COMMANDS,
          docopt demo_env argv = inr (OptExec "web" "app" COMMANDS) ->
          @Some (list string) [] = Some COMMANDS ->
          calls (snd (main demo_env argv w0))
          = calls w0 ++ [SubprocessCall
                           (["docker"; "exec"; "-it";
                             "web" +:+ "_" +:+ "app" +:+ "_1"]
                            ++ command)]).
Proof.
  apply (exec_targets_first_replica demo_env "web" "app" (Some []) w0).
Defined.

Example exec_demo :
  main demo_env ["exec"; "web"; "app"] w0
  = (inl (SystemExit (ExitCode 0)),
     {| calls := [SubprocessCall
                    ["docker"; "exec"; "-it"; "web_app_1"; "/bin/bash"]];
        out := [""; "  docker exec -it web_app_1 /bin/bash"; ""] |})
  /\ calls (snd (main demo_env ["exec"; "web"; "app"; "ls"; "-l"] w0))
     = [SubprocessCall ["docker"; "exec"; "-it"; "web_app_1"; "ls"; "-l"]].
Proof. split; reflexivity. Qed.

(** C7, with [LegacyContainersError] among the configuration errors.  When
    [Usage()] raises, [main] prints one message and exits with status 1 for
    [ConfigurationError], [NoSuchService] and [LegacyContainersError]
    (their own message), for an engine [APIError]
    (the engine's explanation), for [BuildError] (service and reason) and
    for [KeyboardInterrupt] (the abort notice); every other exception
    leaves [main] as it came. *)
Theorem main_reports_and_exits env argv w e w' :
  Usage.__init__ env argv w = (inl e, w') ->
  match e with
  | ConfigurationError msg | NoSuchService msg | LegacyContainersError msg =>
      main env argv w = (inl (SystemExit (ExitCode 1)), add_out w' [msg])
      /\ exit_status (fst (main env argv w)) = 1%Z
  | APIError explanation =>
      main env argv w = (inl (SystemExit (ExitCode 1)), add_out w' [explanation])
      /\ exit_status (fst (main env argv w)) = 1%Z
  | BuildError service reason =>
      main env argv w
      = (inl (SystemExit (ExitCode 1)),
         add_out w' ["Service '" +:+ service +:+ "' failed to build: "
                     +:+ reason])
      /\ exit_status (fst (main env argv w)) = 1%Z
  | KeyboardInterrupt =>
      main env argv w
      = (inl (SystemExit (ExitCode 1)), add_out w' [newline +:+ "Aborting."])
      /\ exit_status (fst (main env argv w)) = 1%Z
  | _ => main env argv w = (inl e, w')
  end.
Proof.
  intros H. unfold main, try_except. rewrite H.
  destruct e; try reflexivity; split; reflexivity.
Qed.

Lemma main_reports_and_exits_witness :
  main demo_env ["up"; "web.yml"] w0
  = (inl (SystemExit (ExitCode 1)),
     add_out w0 ["No such file: /srv/web.yml.yml"])
  /\ exit_status (fst (main demo_env ["up"; "web.yml"] w0)) = 1%Z.
Proof.
  apply (main_reports_and_exits demo_env ["up"; "web.yml"] w0
           (ConfigurationError "No such file: /srv/web.yml.yml") w0).
  reflexivity.
Defined.

(** C7 with five kinds of caught exception only (configuration error, no
    such service, API error, build error, interrupt) does not hold:
    [LegacyContainersError] is a sixth, and [main] does not let it
    through. *)
Lemma main_catches_legacy_error :
  ~ (forall env argv w e w',
       Usage.__init__ env argv w = (inl e, w') ->
       match e with
       | ConfigurationError _ | NoSuchService _ | APIError _
       | BuildError _ _ | KeyboardInterrupt => True
       | _ => main env argv w = (inl e, w')
       end).
Proof.
  intros H.
  specialize (H legacy_env ["up"; "web"] w0
                (LegacyContainersError "legacy containers found") w0
                eq_refl).
  simpl in H. discriminate H.
Qed.

(** ** Paths *)

Lemma append_cons a s t : String a s +:+ t = String a (s +:+ t).
Proof. reflexivity. Qed.

Lemma append_nil_r s : s +:+ "" = s.
Proof.
  induction s as [|a s IH]; [done |]. by rewrite append_cons, IH.
Qed.

Lemma append_assoc a b c : (a +:+ b) +:+ c = a +:+ b +:+ c.
Proof.
  induction a as [|x a IH]; [done |]. by rewrite !append_cons, IH.
Qed.

Lemma append_inv_head a x y : a +:+ x = a +:+ y -> x = y.
Proof.
  induction a as [|c a IH]; [done |]. rewrite !append_cons.
  intros H. injection H. auto.
Qed.

Lemma append_length a b :
  String.length (a +:+ b) = String.length a + String.length b.
Proof.
  induction a as [|x a IH]; [done |]. rewrite append_cons. simpl.
  by rewrite IH.
Qed.

Lemma append_inv_tail x y a : x +:+ a = y +:+ a -> x = y.
Proof.
  revert y. induction x as [|c x IH]; intros [|d y] H.
  - done.
  - apply (f_equal String.length) in H.
    rewrite !append_length in H. simpl in H. lia.
  - apply (f_equal String.length) in H.
    rewrite !append_length in H. simpl in H. lia.
  - rewrite !append_cons in H. injection H as -> H. f_equal. by apply IH.
Qed.

Lemma join_cons sep x y l :
  join sep (x :: y :: l) = x +:+ sep +:+ join sep (y :: l).
Proof. reflexivity. Qed.

Lemma join_snoc_inj sep comps a b :
  join sep (comps ++ [a]) = join sep (comps ++ [b]) -> a = b.
Proof.
  induction comps as [|c comps IH]; [done |].
  destruct comps as [|c' comps].
  - change (join sep ([c] ++ [a])) with (c +:+ sep +:+ a).
    change (join sep ([c] ++ [b])) with (c +:+ sep +:+ b).
    intros H. by apply append_inv_head, append_inv_head in H.
  - change (join sep ((c :: c' :: comps) ++ [a]))
      with (c +:+ sep +:+ join sep ((c' :: comps) ++ [a])).
    change (join sep ((c :: c' :: comps) ++ [b]))
      with (c +:+ sep +:+ join sep ((c' :: comps) ++ [b])).
    intros H. apply append_inv_head, append_inv_head in H. by apply IH.
Qed.

Lemma split_slash_cons s : exists h t, split_slash s = h :: t.
Proof.
  induction s as [|a s (h & t & IH)]; simpl; [eauto |].
  destruct (Ascii.eqb a "/"); [eauto |]. rewrite IH. eauto.
Qed.

Lemma split_slash_no_slash s : no_slash s = true -> split_slash s = [s].
Proof.
  induction s as [|a s IH]; simpl; [done |].
  intros H. apply andb_true_iff in H as [Ha Hs].
  apply negb_true_iff in Ha. rewrite Ha, (IH Hs). done.
Qed.

(** ['a/b'.split('/') == 'a'.split('/') + 'b'.split('/')] *)
Lemma split_slash_app a b :
  split_slash (a +:+ "/" +:+ b) = split_slash a ++ split_slash b.
Proof.
  induction a as [|c a IH]; simpl; [done |].
  destruct (Ascii.eqb c "/"); simpl in *; rewrite IH; [done |].
  by destruct (split_slash_cons a) as (h & t & ->).
Qed.

Lemma split_slash_join comps :
  comps <> [] -> Forall (fun c => no_slash c = true) comps ->
  split_slash (join "/" comps) = comps.
Proof.
  induction comps as [|c comps IH]; [done |]. intros _ H.
  apply Forall_cons in H as [Hc H]. destruct comps as [|c' comps].
  - simpl. by apply split_slash_no_slash.
  - rewrite join_cons, split_slash_app, (split_slash_no_slash _ Hc), IH; done.
Qed.

Lemma plain_no_slash s : plain s = true -> no_slash s = true.
Proof. unfold plain. rewrite !andb_true_iff. tauto. Qed.

Lemma normpath_step_plain n acc comp :
  plain comp = true -> normpath_step n acc comp = acc ++ [comp].
Proof.
  unfold plain, normpath_step. rewrite !andb_true_iff, !negb_true_iff.
  intros [[[_ H1] H2] H3]. by rewrite H1, H2, H3.
Qed.

Lemma normpath_fold_plain n comps acc :
  Forall (fun c => plain c = true) comps ->
  fold_left (normpath_step n) comps acc = acc ++ comps.
Proof.
  revert acc. induction comps as [|c comps IH]; intros acc H; simpl.
  - by rewrite app_nil_r.
  - apply Forall_cons in H as [Hc H].
    rewrite (normpath_step_plain _ _ _ Hc), IH, <- app_assoc; done.
Qed.

Lemma substring_last s :
  s <> "" -> substring (String.length s - 1) 1 s = String (last_char s) "".
Proof.
  induction s as [|a s IH]; [done |]. intros _. destruct s as [|b s].
  - reflexivity.
  - change (String.length (String a (String b s)) - 1)
      with (S (String.length s)).
    change (substring (S (String.length s)) 1 (String a (String b s)))
      with (substring (String.length s) 1 (String b s)).
    change (last_char (String a (String b s))) with (last_char (String b s)).
    rewrite <- IH; [| done]. simpl. by rewrite Nat.sub_0_r.
Qed.

Lemma endswith_slash s :
  s <> "" -> endswith s "/" = Ascii.eqb (last_char s) "/".
Proof.
  intros Hs. unfold endswith.
  change (String.length "/") with 1. rewrite (substring_last s Hs).
  destruct s as [|a s]; [done |].
  generalize (last_char (String a s)). intros c. simpl.
  by destruct (Ascii.eqb c "/").
Qed.

Lemma last_char_app a b : b <> "" -> last_char (a +:+ b) = last_char b.
Proof.
  intros Hb. induction a as [|c a IH]; [done |].
  simpl. destruct (a +:+ b) eqn:E; [| done].
  destruct a; simpl in E; [done | discriminate E].
Qed.

Lemma no_slash_last s :
  no_slash s = true -> s <> "" -> Ascii.eqb (last_char s) "/" = false.
Proof.
  induction s as [|a s IH]; [done |]. intros H _.
  simpl in H. apply andb_true_iff in H as [Ha Hs].
  destruct s as [|b s]; [by apply negb_true_iff in Ha |].
  apply IH; done.
Qed.

Lemma plain_nonempty s : plain s = true -> s <> "".
Proof.
  unfold plain. rewrite !andb_true_iff, !negb_true_iff.
  intros [[[_ H] _] _] ->. done.
Qed.

Lemma join_last comps :
  comps <> [] -> Forall (fun c => plain c = true) comps ->
  join "/" comps <> "" /\ Ascii.eqb (last_char (join "/" comps)) "/" = false.
Proof.
  induction comps as [|c comps IH]; [done |]. intros _ H.
  apply Forall_cons in H as [Hc H]. destruct comps as [|c' comps].
  - simpl. split; [by apply plain_nonempty |].
    apply no_slash_last; [by apply plain_no_slash | by apply plain_nonempty].
  - destruct IH as [Hne Hl]; [done | done |]. rewrite join_cons. split.
    + pose proof (plain_nonempty _ Hc). by destruct c.
    + rewrite <- append_assoc, last_char_app; done.
Qed.

Lemma startswith_slash s :
  startswith s "/"
  = match s with
    | String a _ => Ascii.eqb a "/"
    | EmptyString => false
    end.
Proof.
  destruct s as [|a s]; [done |]. unfold startswith. cbn [String.prefix].
  destruct (ascii_dec "/" a) as [<-|Hne].
  - by destruct s.
  - symmetry. apply Ascii.eqb_neq. congruence.
Qed.

Lemma startswith_two_slashes s :
  startswith (String "/" s) "//" = startswith s "/".
Proof.
  unfold startswith. cbn [String.prefix]. by destruct (ascii_dec "/" "/").
Qed.

Lemma plain_first s : plain s = true -> startswith s "/" = false.
Proof.
  intros H. rewrite startswith_slash. pose proof (plain_nonempty _ H).
  apply plain_no_slash in H. destruct s as [|a s]; [done |].
  simpl in H. apply andb_true_iff in H as [H _]. by apply negb_true_iff in H.
Qed.

Lemma append_first a b :
  a <> "" -> startswith (a +:+ b) "/" = startswith a "/".
Proof. intros H. rewrite !startswith_slash. by destruct a. Qed.

Lemma join_first c comps :
  plain c = true -> startswith (join "/" (c :: comps)) "/" = false.
Proof.
  intros H. destruct comps as [|c' comps].
  - by apply plain_first.
  - rewrite join_cons, append_first; [by apply plain_first |].
    by apply plain_nonempty.
Qed.

Lemma path_of_String comps : path_of comps = String "/" (join "/" comps).
Proof. reflexivity. Qed.

Lemma eqb_String_empty a s : String.eqb (String a s) "" = false.
Proof. reflexivity. Qed.

Lemma split_slash_rooted s :
  split_slash (String "/" s) = "" :: split_slash s.
Proof. reflexivity. Qed.

(** [normpath] of a path with a single leading slash. *)
Lemma normpath_rooted s :
  startswith s "/" = false ->
  normpath (String "/" s)
  = path_of (fold_left (normpath_step 1) (split_slash s) []).
Proof.
  intros Hs. unfold normpath.
  rewrite eqb_String_empty, startswith_two_slashes, Hs.
  rewrite (startswith_slash (String "/" s)).
  rewrite split_slash_rooted. reflexivity.
Qed.

Lemma path_join_plain comps p :
  Forall (fun c => plain c = true) comps -> plain p = true ->
  path_join (path_of comps) p
  = String "/" (match comps with
                | [] => p
                | _ => join "/" comps +:+ "/" +:+ p
                end).
Proof.
  intros Hcomps Hp. unfold path_join. rewrite (plain_first _ Hp).
  rewrite path_of_String, eqb_String_empty.
  destruct comps as [|c comps]; [reflexivity |].
  destruct (join_last (c :: comps)) as [Hne Hlast]; [done | done |].
  rewrite endswith_slash by done.
  change (String "/" (join "/" (c :: comps)))
    with ("/" +:+ join "/" (c :: comps)) at 1.
  rewrite last_char_app, Hlast by done. reflexivity.
Qed.

(** [abspath] of a plain file name under a normalised working
    directory: the name becomes the last component. *)
Lemma abspath_plain comps p :
  Forall (fun c => plain c = true) comps -> plain p = true ->
  abspath (path_of comps) p = path_of (comps ++ [p]).
Proof.
  intros Hcomps Hp. unfold abspath.
  rewrite (plain_first _ Hp), (path_join_plain _ _ Hcomps Hp).
  destruct comps as [|c comps].
  - rewrite normpath_rooted by (by apply plain_first).
    rewrite (split_slash_no_slash p) by (by apply plain_no_slash).
    rewrite normpath_fold_plain; [done | by repeat constructor].
  - apply Forall_cons in Hcomps as Hcc. destruct Hcc as [Hc _].
    rewrite normpath_rooted.
    2:{ rewrite append_first; [by apply join_first |].
        by destruct (join_last (c :: comps)). }
    rewrite split_slash_app, split_slash_join; [| done |].
    2:{ eapply Forall_impl; [exact Hcomps |]. intros x. apply plain_no_slash. }
    rewrite (split_slash_no_slash p) by (by apply plain_no_slash).
    rewrite normpath_fold_plain; [done |].
    apply Forall_app. split; [done |]. by repeat constructor.
Qed.

Example abspath_demo :
  abspath "/srv" "web.yml" = "/srv/web.yml"
  /\ abspath "/srv" "web.yml.yml" = "/srv/web.yml.yml"
  /\ abspath "/srv/tug" "../a/./b//c.yml" = "/srv/a/b/c.yml"
  /\ abspath "/" "web.yaml.yml" = "/web.yaml.yml".
Proof. repeat split; reflexivity. Qed.

Lemma no_slash_app a b : no_slash (a +:+ b) = no_slash a && no_slash b.
Proof.
  induction a as [|c a IH]; [done |]. rewrite append_cons. simpl.
  by rewrite IH, andb_assoc.
Qed.

Lemma plain_yml name : no_slash name = true -> plain (name +:+ ".yml") = true.
Proof.
  intros H. unfold plain. rewrite no_slash_app, H.
  assert (Hlen : String.length (name +:+ ".yml") = String.length name + 4)
    by apply append_length.
  assert (Hne : forall s, String.length s < 4 ->
                          String.eqb (name +:+ ".yml") s = false).
  { intros s Hs. apply String.eqb_neq. intros Heq. rewrite Heq in Hlen. lia. }
  rewrite !Hne by (simpl; lia). reflexivity.
Qed.

(** ** Which file a project argument names *)

Lemma get_config_run env name w :
  Usage._get_config env name w
  = (config_load env (calls w) (abspath (getcwd env) (name +:+ ".yml")), w).
Proof. reflexivity. Qed.

Lemma init_command env argv command projectname servicenames handle w :
  docopt env argv = inr (OptCommand command projectname servicenames) ->
  Usage.getattr env command = Some (Usage.Handler handle) ->
  docker_client env (calls w) = None ->
  Usage.__init__ env argv w
  = match config_load env (calls w)
            (abspath (getcwd env) (projectname +:+ ".yml")) with
    | inl e => (inl e, w)
    | inr config =>
        match from_dicts env (calls w) projectname config with
        | Some e => (inl e, w)
        | None =>
            handle {| project_name := projectname; project_config := config |}
              projectname servicenames w
        end
    end.
Proof.
  intros Hd Hh Hc. unfold Usage.__init__, bind at 1, try_except, query.
  rewrite Hd, Hh. unfold bind at 1, check at 1. rewrite Hc.
  unfold bind at 1. rewrite get_config_run.
  destruct (config_load env (calls w) _) as [e|config]; [done |].
  unfold bind at 1, Usage.new_project, bind at 1, check.
  by destruct (from_dicts env (calls w) projectname config).
Qed.

Lemma getattr_handler env command :
  command ∈ handler_names ->
  exists handle, Usage.getattr env command = Some (Usage.Handler handle).
Proof.
  intros H. apply list_elem_of_In in H. simpl in H.
  repeat (destruct H as [<-|H]; [eexists; reflexivity |]).
  destruct H.
Qed.

(** C5, for the argument taken as it is.  Each of the twelve commands that
    run on a project ([ps PROJECT], [build], [rebuild], [kill], [logs],
    [pull], [rm], [down], [cull], [recreate], [up], [diff]) uses a PROJECT
    argument without a slash verbatim: with the working directory an
    absolute normalised path, as [os.getcwd] returns it, and the docker
    client created, the file handed to [config.load] is PROJECT.yml in that
    directory and no other, a failed load ends the command, and the handler
    receives the argument unchanged as the project name.  No two such
    arguments name the same file, so [web.yml] does not stand for [web]: it
    names [web.yml.yml]. *)
Theorem project_argument_taken_verbatim env argv command projectname
    servicenames comps w :
  docopt env argv = inr (OptCommand command projectname servicenames) ->
  command ∈ handler_names ->
  docker_client env (calls w) = None ->
  getcwd env = path_of comps ->
  Forall (fun c => plain c = true) comps ->
  no_slash projectname = true ->
  let filename := abspath (getcwd env) (projectname +:+ ".yml") in
  filename = path_of (comps ++ [projectname +:+ ".yml"])
  /\ (exists handle,
        Usage.getattr env command = Some (Usage.Handler handle)
        /\ Usage.__init__ env argv w
           = match config_load env (calls w) filename with
             | inl e => (inl e, w)
             | inr config =>
                 match from_dicts env (calls w) projectname config with
                 | Some e => (inl e, w)
                 | None =>
                     handle {| project_name := projectname;
                               project_config := config |}
                       projectname servicenames w
                 end
             end)
  /\ (forall other,
        no_slash other = true ->
        abspath (getcwd env) (other +:+ ".yml") = filename ->
        other = projectname).
Proof.
  intros Hd Hin Hc Hcwd Hcomps Hname filename.
  assert (Hfile : forall name, no_slash name = true ->
            abspath (getcwd env) (name +:+ ".yml")
            = path_of (comps ++ [name +:+ ".yml"])).
  { intros name Hn. rewrite Hcwd.
    apply abspath_plain; [done | by apply plain_yml]. }
  split; [by apply Hfile |]. split.
  - destruct (getattr_handler env command Hin) as [handle Hh].
    exists handle. split; [done |].
    by rewrite (init_command _ _ _ _ _ _ _ Hd Hh Hc).
  - intros other Ho H. unfold filename in H.
    rewrite (Hfile other Ho), (Hfile projectname Hname) in H.
    unfold path_of in H. apply append_inv_head in H.
    apply join_snoc_inj in H. by apply append_inv_tail in H.
Qed.

Lemma project_argument_taken_verbatim_witness :
  let filename := abspath (getcwd demo_env) ("web.yml" +:+ ".yml") in
  filename = path_of (["srv"] ++ ["web.yml" +:+ ".yml"])
  /\ (exists handle,
        Usage.getattr demo_env "ps" = Some (Usage.Handler handle)
        /\ Usage.__init__ demo_env ["ps"; "web.yml"] w0
           = match config_load demo_env (calls w0) filename with
             | inl e => (inl e, w0)
             | inr config =>
                 match from_dicts demo_env (calls w0) "web.yml" config with
                 | Some e => (inl e, w0)
                 | None =>
                     handle {| project_name := "web.yml";
                               project_config := config |}
                       "web.yml" [] w0
                 end
             end)
  /\ (forall other,
        no_slash other = true ->
        abspath (getcwd demo_env) (other +:+ ".yml") = filename ->
        other = "web.yml").
Proof.
  apply (project_argument_taken_verbatim demo_env ["ps"; "web.yml"] "ps"
           "web.yml" [] ["srv"] w0); try reflexivity.
  - apply list_elem_of_In; simpl; tauto.
  - repeat constructor.
Defined.

(** C5 with an optional suffix does not hold: [web.yml] and [web.yaml] do
    not load what [web] loads.  In a directory that holds [web.yml], only
    the bare name finds it. *)
Lemma suffixed_project_argument_not_stripped :
  ~ (forall env name w,
       Usage._get_config env (name +:+ ".yml") w = Usage._get_config env name w
       /\ Usage._get_config env (name +:+ ".yaml") w
          = Usage._get_config env name w).
Proof.
  intros H. destruct (H demo_env "web" w0) as [H1 _].
  vm_compute in H1. discriminate H1.
Qed.

Example project_argument_demo :
  fst (main demo_env ["ps"; "web"] w0) = inr tt
  /\ main demo_env ["ps"; "web.yml"] w0
     = (inl (SystemExit (ExitCode 1)),
        add_out w0 ["No such file: /srv/web.yml.yml"])
  /\ main demo_env ["ps"; "web.yaml"] w0
     = (inl (SystemExit (ExitCode 1)),
        add_out w0 ["No such file: /srv/web.yaml.yml"]).
Proof. repeat split; reflexivity. Qed.

(** An argument with a slash is a path: [./web] names the file of [web],
    and [../etc/web] a file outside the working directory. *)
Example slash_argument_demo :
  abspath "/srv" ("./web" +:+ ".yml") = abspath "/srv" ("web" +:+ ".yml")
  /\ abspath "/srv" ("../etc/web" +:+ ".yml") = "/etc/web.yml"
  /\ snd (main demo_env ["ps"; "./web"] w0)
     = add_out w0
         [""; "  ./web services:"; "";
          "  app_1                   Up          172.17.0.2       ";
          "  db                      Uncreated                    "; ""].
Proof. repeat split; reflexivity. Qed.

(** ** [diff], phase by phase *)

Lemma diff_run env project projectname servicenames w c1 c2 services plans :
  project_containers env (calls w) project None true false = inr c1 ->
  project_containers env (calls w) project None false true = inr c2 ->
  get_services env (calls w) project (Some servicenames) true = inr services ->
  get_convergence_plans env (calls w) project services true = inr plans ->
  let header := [""; "  " +:+ projectname +:+ " convergence plan:"; ""] in
  match dict_del_all (Usage.index_by_id (c1 ++ c2)) (planned_ids plans) with
  | inl k => exists n,
      Usage.diff env project projectname servicenames w
      = (inl (KeyError k),
         add_out w (header ++ take n (map plan_view_row plans)))
  | inr unknown =>
      Usage.diff env project projectname servicenames w
      = (inr tt,
         add_out w (header ++ map plan_view_row plans
                    ++ map orphan_view_row unknown ++ [""]))
  end.
Proof.
  intros H1 H2 H3 H4 header.
  assert (Hstart : forall k : dict Container -> M unit,
    Usage.diff env project projectname servicenames w
    = bind (for_fold plans (Usage.index_by_id (c1 ++ c2)) Usage.diff_plan) k
        (add_out w header) ->
    match dict_del_all (Usage.index_by_id (c1 ++ c2)) (planned_ids plans) with
    | inl k' => exists n,
        Usage.diff env project projectname servicenames w
        = (inl (KeyError k'),
           add_out w (header ++ take n (map plan_view_row plans)))
    | inr unknown =>
        Usage.diff env project projectname servicenames w
        = k unknown (add_out w (header ++ map plan_view_row plans))
    end).
  { intros k Hk. rewrite Hk. unfold bind.
    pose proof (diff_plans_run plans (Usage.index_by_id (c1 ++ c2))
                  (add_out w header)) as Hd.
    destruct (dict_del_all _ _) as [k'|unknown].
    - destruct Hd as [n Hd]. exists n. by rewrite Hd, add_out_app.
    - by rewrite Hd, add_out_app. }
  specialize (Hstart (fun unknown =>
    for_each unknown (fun '(id, container) =>
      print (orphan_row (container_name container) "delete")) ;;;
    print "")).
  destruct (dict_del_all _ _) as [k'|unknown] eqn:E.
  - apply Hstart. unfold Usage.diff, bind at 1, query at 1. rewrite H1.
    unfold bind at 1, query at 1. rewrite H2.
    unfold bind at 1, query at 1. rewrite H3.
    unfold bind at 1, query at 1. rewrite H4.
    do 3 (unfold bind at 1; rewrite print_run).
    by rewrite !add_out_app.
  - rewrite Hstart.
    + unfold bind.
      rewrite (for_each_ext unknown _ (fun x => print (orphan_view_row x)))
        by (by intros [? ?]).
      rewrite (print_rows_run unknown orphan_view_row).
      by rewrite print_run, !add_out_app, <- !app_assoc.
    + unfold Usage.diff, bind at 1, query at 1. rewrite H1.
      unfold bind at 1, query at 1. rewrite H2.
      unfold bind at 1, query at 1. rewrite H3.
      unfold bind at 1, query at 1. rewrite H4.
      do 3 (unfold bind at 1; rewrite print_run).
      by rewrite !add_out_app.
Qed.



(** The orphans of the concrete project, as both commands see them. *)
Example orphans_demo :
  Usage.forget_planned
    (Usage.index_by_id [web_app_1; web_old_1; web_tmp_1]) demo_plans w0
  = (inr [("o1", web_old_1); ("t1", web_tmp_1)], w0)
  /\ Usage.diff demo_env demo_project "web" [] w0
     = (inr tt,
        add_out w0
          [""; "  web convergence plan:"; "";
           "  app                     noop        web_app_1";
           "  db                      create      ";
           "  web_old_1               delete      ";
           "  web_tmp_1               delete      "; ""]).
Proof. split; reflexivity. Qed.

(** ** The bare [ps], phase by phase *)

Lemma inspect_all_run env (ids : list string) (acc : dict Detail) w :
  Forall (fun id => exists d, inspect_container env (calls w) id = inr d) ids ->
  NoDup (dict_keys acc) ->
  exists d0,
    for_fold ids acc (fun unknown Id =>
      detail <- query (fun h => inspect_container env h Id) ;;
      ret (dict_set unknown Id detail)) w = (inr d0, w)
    /\ NoDup (dict_keys d0)
    /\ forall k, k ∈ dict_keys d0 <-> k ∈ dict_keys acc \/ k ∈ ids.
Proof.
  intros Hq. revert acc. induction Hq as [|id ids [d Hd] _ IH]; intros acc Hnd.
  - exists acc. split; [done |]. split; [done |]. intros k.
    split; [auto |]. intros [?|H]; [done | by apply not_elem_of_nil in H].
  - destruct (IH (dict_set acc id d)) as (d0 & Hrun & Hnd0 & Hk).
    { by apply dict_set_keys_NoDup. }
    exists d0. split; [| split; [done |]].
    + simpl. unfold bind at 1, bind at 1, query. rewrite Hd. exact Hrun.
    + intros k. rewrite Hk, dict_set_keys_elem, elem_of_cons. tauto.
Qed.

Lemma ps_count_run (cs : list Container) (unknown : dict Detail)
    (counts : dict N) w :
  exists counts',
    for_fold cs (unknown, counts)
      (fun '(unknown, counts) container =>
         unknown <- del unknown (container_id container) ;;
         ret (unknown,
              Usage.count_state counts (human_readable_state container))) w
    = (match dict_del_all unknown (map container_id cs) with
       | inl k => inl (KeyError k)
       | inr u => inr (u, counts')
       end, w).
Proof.
  revert unknown counts. induction cs as [|c cs IH]; intros unknown counts.
  - exists counts. reflexivity.
  - simpl. unfold bind at 1, bind at 1, del.
    destruct (dict_del unknown (container_id c)) as [u1|]; [| by exists counts].
    apply IH.
Qed.

Lemma ps_service_count_run env project service (unknown : dict Detail)
    (counts : dict N) w cs :
  service_listing env (calls w) project service = inr cs ->
  exists counts',
    Usage._ps_service env project (unknown, counts) service w
    = (match dict_del_all unknown (map container_id cs) with
       | inl k => inl (KeyError k)
       | inr u => inr (u, counts')
       end, w).
Proof.
  unfold service_listing, Usage._ps_service. intros H.
  destruct (service_containers env (calls w) project service true false)
    as [e|c1] eqn:H1; [done |].
  destruct (service_containers env (calls w) project service false true)
    as [e|c2] eqn:H2; [done |].
  injection H as <-.
  unfold bind at 1, query at 1. rewrite H1.
  unfold bind at 1, query at 1. rewrite H2.
  apply ps_count_run.
Qed.

Lemma ps_services_count_run env project services (unknown : dict Detail)
    (counts : dict N) w cs :
  services_listing env (calls w) project services = inr cs ->
  exists counts',
    for_fold services (unknown, counts) (Usage._ps_service env project) w
    = (match dict_del_all unknown (map container_id cs) with
       | inl k => inl (KeyError k)
       | inr u => inr (u, counts')
       end, w).
Proof.
  revert unknown counts cs.
  induction services as [|s services IH]; intros unknown counts cs H.
  - injection H as <-. exists counts. reflexivity.
  - simpl in H.
    destruct (service_listing env (calls w) project s) as [e|cs1] eqn:H1;
      [done |].
    destruct (services_listing env (calls w) project services)
      as [e|cs2] eqn:H2; [done |].
    injection H as <-.
    destruct (ps_service_count_run env project s unknown counts w cs1 H1)
      as [counts1 Hs].
    cbn [for_fold]. unfold bind at 1. rewrite Hs.
    rewrite map_app, dict_del_all_app.
    destruct (dict_del_all unknown (map container_id cs1)) as [k|u1].
    + by exists counts.
    + apply IH. done.
Qed.

Lemma ps_project_run env (unknown : dict Detail) projectname w cs :
  project_listing env (calls w) projectname = inr cs ->
  match dict_del_all unknown (map container_id cs) with
  | inl k => Usage._ps_project env unknown projectname w = (inl (KeyError k), w)
  | inr u => exists line,
      Usage._ps_project env unknown projectname w = (inr u, add_out w [line])
  end.
Proof.
  unfold project_listing. intros H.
  destruct (config_load env (calls w) _) as [e|config] eqn:Hc; [done |].
  destruct (from_dicts env (calls w) projectname config) eqn:Hf; [done |].
  destruct (get_services env (calls w) _ None false) as [e|services] eqn:Hg;
    [done |].
  destruct (ps_services_count_run env _ services unknown [] w cs H)
    as [counts' Hs].
  assert (Hrun :
    Usage._ps_project env unknown projectname w
    = match dict_del_all unknown (map container_id cs) with
      | inl k => (inl (KeyError k), w)
      | inr u =>
          (inr u,
           add_out w
             ["  " +:+ ljust 24 projectname
              +:+ join "," (map (fun '(state, count) =>
                                   pretty count +:+ " " +:+ state) counts')])
      end).
  { unfold Usage._ps_project, bind at 1. rewrite get_config_run, Hc.
    unfold bind at 1, Usage.new_project, bind at 1, check. rewrite Hf.
    unfold ret at 1. unfold bind at 1, query at 1. rewrite Hg.
    unfold bind. rewrite Hs.
    by destruct (dict_del_all unknown (map container_id cs)). }
  rewrite Hrun. destruct (dict_del_all unknown (map container_id cs)); eauto.
Qed.

Lemma ps_projects_run env projectnames (unknown : dict Detail) w cs :
  projects_listing env (calls w) projectnames = inr cs ->
  exists lines,
    for_fold projectnames unknown (Usage._ps_project env) w
    = (key_error (dict_del_all unknown (map container_id cs)),
       add_out w lines).
Proof.
  revert unknown w cs.
  induction projectnames as [|pn pns IH]; intros unknown w cs H.
  - injection H as <-. exists []. by rewrite add_out_nil.
  - simpl in H.
    destruct (project_listing env (calls w) pn) as [e|cs1] eqn:H1; [done |].
    destruct (projects_listing env (calls w) pns) as [e|cs2] eqn:H2; [done |].
    injection H as <-.
    pose proof (ps_project_run env unknown pn w cs1 H1) as Hp.
    cbn [for_fold]. unfold bind at 1. rewrite map_app, dict_del_all_app.
    destruct (dict_del_all unknown (map container_id cs1)) as [k|u1].
    + rewrite Hp. exists []. by rewrite add_out_nil.
    + destruct Hp as [line ->].
      destruct (IH u1 (add_out w [line]) cs2 H2) as [lines ->].
      exists ([line] ++ lines). by rewrite add_out_app.
Qed.

Lemma ps_unknown_run detail w :
  exists row, Usage._ps_unknown detail w = (inr tt, add_out w [row]).
Proof. unfold Usage._ps_unknown. rewrite print_run. eauto. Qed.

Lemma ps_tail_run (unknown : dict Detail) w :
  exists lines,
    ((if negb (Nat.eqb (length unknown) 0) then
        print "" ;;;
        print "  Containers not tracked by compose/tugboat:" ;;;
        print ""
      else ret tt) ;;;
     for_each unknown (fun '(key, detail) => Usage._ps_unknown detail) ;;;
     print "") w = (inr tt, add_out w lines).
Proof.
  assert (Hrows : forall (d : dict Detail) w1, exists rows,
    for_each d (fun '(key, detail) => Usage._ps_unknown detail) w1
    = (inr tt, add_out w1 rows)).
  { induction d as [|[k detail] d IH]; intros w1.
    - exists []. by rewrite add_out_nil.
    - cbn [for_each]. unfold bind at 1.
      destruct (ps_unknown_run detail w1) as [row ->].
      destruct (IH (add_out w1 [row])) as [rows ->].
      eexists. by rewrite add_out_app. }
  destruct (negb (Nat.eqb (length unknown) 0)).
  - unfold bind at 1. unfold bind at 1. rewrite print_run.
    unfold bind at 1. rewrite !print_run.
    unfold bind at 1.
    destruct (Hrows unknown
                (add_out (add_out (add_out w [""])
                   ["  Containers not tracked by compose/tugboat:"]) [""]))
      as [rows ->].
    rewrite print_run, !add_out_app. eauto.
  - unfold bind at 1, ret at 1. unfold bind at 1.
    destruct (Hrows unknown w) as [rows ->].
    rewrite print_run, !add_out_app. eauto.
Qed.

Lemma bare_ps_run env w ids cs :
  docker_client env (calls w) = None ->
  client_containers env (calls w) true = inr ids ->
  Forall (fun id => exists d, inspect_container env (calls w) id = inr d) ids ->
  projects_listing env (calls w) (Usage._get_projectnames_in_dir env) = inr cs ->
  (NoDup (map container_id cs) /\ map container_id cs ⊆ ids ->
   exists lines, Usage._ps env w = (inr tt, add_out w lines)) /\
  (~ (NoDup (map container_id cs) /\ map container_id cs ⊆ ids) ->
   exists k lines, Usage._ps env w = (inl (KeyError k), add_out w lines)).
Proof.
  intros H0 H1 H2 H3.
  destruct (inspect_all_run env ids [] w H2) as (d0 & Hd0 & Hnd & Hk);
    [constructor |].
  assert (Hstart : exists lines1 lines2,
    Usage._ps env w
    = bind (for_fold (Usage._get_projectnames_in_dir env) d0
              (Usage._ps_project env))
        (fun unknown =>
           (if negb (Nat.eqb (length unknown) 0) then
              print "" ;;;
              print "  Containers not tracked by compose/tugboat:" ;;;
              print ""
            else ret tt) ;;;
           for_each unknown (fun '(key, detail) => Usage._ps_unknown detail) ;;;
           print "") (add_out w lines1)
    /\ lines2 = lines1).
  { unfold Usage._ps. unfold bind at 1, check at 1. rewrite H0.
    unfold bind at 1, query at 1. rewrite H1.
    unfold bind at 1. rewrite Hd0. unfold bind at 1.
    destruct (negb (Nat.eqb (length (Usage._get_projectnames_in_dir env)) 0)).
    - rewrite print_run. exists [""], [""]. done.
    - unfold ret at 1. exists [], []. by rewrite add_out_nil. }
  destruct Hstart as (lines1 & _ & Hstart & _).
  destruct (ps_projects_run env _ d0 (add_out w lines1) cs H3) as [lines2 Hp].
  assert (Hok : (exists d', dict_del_all d0 (map container_id cs) = inr d')
                <-> NoDup (map container_id cs) /\ map container_id cs ⊆ ids).
  { rewrite (dict_del_all_ok d0 _ Hnd). split; intros [? Hsub]; split; try done.
    - intros x Hx. apply Hsub, Hk in Hx as [Hx|Hx]; [| done].
      by apply not_elem_of_nil in Hx.
    - intros x Hx. apply Hk. right. by apply Hsub. }
  split.
  - intros Hpre. apply Hok in Hpre as [d' Hd'].
    rewrite Hstart. unfold bind at 1. rewrite Hp, Hd'. simpl.
    destruct (ps_tail_run d' (add_out (add_out w lines1) lines2))
      as [lines3 ->].
    rewrite !add_out_app. eauto.
  - intros Hpre. rewrite Hstart. unfold bind at 1. rewrite Hp.
    destruct (dict_del_all d0 (map container_id cs)) as [k|d'] eqn:E.
    + simpl. rewrite add_out_app. eauto.
    + exfalso. apply Hpre, Hok. eauto.
Qed.

(** ** The precondition of the unguarded deletions *)

Lemma planned_ok (containers : list Container) (plans : dict ConvergencePlan) :
  (exists unknown,
     dict_del_all (Usage.index_by_id containers) (planned_ids plans)
     = inr unknown)
  <-> NoDup (planned_ids plans)
      /\ planned_ids plans ⊆ map container_id containers.
Proof.
  rewrite (dict_del_all_ok _ _ (index_by_id_NoDup containers)).
  split; intros [? Hsub]; (split; [done |]); intros x Hx;
    apply index_by_id_keys; by apply Hsub.
Qed.

(** C10.  [up], [diff] and the bare [ps] delete with [del unknown[id]].
    When their queries answer, each of them gets past its deletions exactly
    when the container ids it meets (those of the plans, or those of the
    services of every project in the directory) are pairwise different and
    all present in the dictionary built at the start; otherwise it raises
    [KeyError], [up] before anything is applied.  [main] has no handler for
    [KeyError]: it leaves [main] and ends the process with status 1. *)
Theorem unguarded_deletion_precondition env project projectname servicenames w
    c1 c2 services plans :
  project_containers env (calls w) project None true false = inr c1 ->
  project_containers env (calls w) project None false true = inr c2 ->
  get_services env (calls w) project (Some servicenames) true = inr services ->
  get_convergence_plans env (calls w) project services true = inr plans ->
  let inventory := map container_id (c1 ++ c2) in
  let referenced := planned_ids plans in
  let safe := NoDup referenced /\ referenced ⊆ inventory in
  (safe -> exists after,
     calls (snd (Usage.up env project projectname servicenames w))
     = calls w ++ ProjectUp project servicenames true :: after) /\
  (~ safe -> exists k,
     k ∈ referenced /\
     Usage.up env project projectname servicenames w = (inl (KeyError k), w)) /\
  (safe -> exists lines,
     Usage.diff env project projectname servicenames w
     = (inr tt, add_out w lines)) /\
  (~ safe -> exists k lines,
     k ∈ referenced /\
     Usage.diff env project projectname servicenames w
     = (inl (KeyError k), add_out w lines)) /\
  (forall ids cs,
     docker_client env (calls w) = None ->
     client_containers env (calls w) true = inr ids ->
     Forall (fun id => exists d,
               inspect_container env (calls w) id = inr d) ids ->
     projects_listing env (calls w) (Usage._get_projectnames_in_dir env)
       = inr cs ->
     let owned := map container_id cs in
     (NoDup owned /\ owned ⊆ ids ->
      exists lines, Usage._ps env w = (inr tt, add_out w lines)) /\
     (~ (NoDup owned /\ owned ⊆ ids) ->
      exists k lines, Usage._ps env w = (inl (KeyError k), add_out w lines))) /\
  (forall argv w1 k w',
     Usage.__init__ env argv w1 = (inl (KeyError k), w') ->
     main env argv w1 = (inl (KeyError k), w')
     /\ exit_status (fst (main env argv w1)) = 1%Z).
Proof.
  intros H1 H2 H3 H4 inventory referenced safe.
  pose proof (planned_ok (c1 ++ c2) plans) as Hok. fold referenced in Hok.
  fold inventory in Hok. fold safe in Hok.
  pose proof (up_run env project projectname servicenames w _ _ _ _
                H1 H2 H3 H4) as Hup.
  pose proof (diff_run env project projectname servicenames w _ _ _ _
                H1 H2 H3 H4) as Hdiff.
  simpl in Hdiff. fold referenced in Hup, Hdiff.
  split; [| split; [| split; [| split; [| split]]]].
  - intros Hsafe. apply Hok in Hsafe as [unknown Hd]. rewrite Hd in Hup.
    destruct (dict_del_all_inr _ _ _ (index_by_id_NoDup (c1 ++ c2)) Hd)
      as (_ & _ & Hu).
    rewrite Hup.
    destruct (up_apply env project projectname servicenames unknown w)
      as [r w'] eqn:E.
    apply up_apply_calls in E as (after & Hc & _).
    + exists after. exact Hc.
    + rewrite Hu. apply dict_without_ids, index_by_id_ids.
  - intros Hbad.
    destruct (dict_del_all (Usage.index_by_id (c1 ++ c2)) referenced)
      as [k|unknown] eqn:Hd.
    + exists k. split; [| done].
      by destruct (dict_del_all_inl _ _ _ (index_by_id_NoDup (c1 ++ c2)) Hd).
    + exfalso. apply Hbad, Hok. eauto.
  - intros Hsafe. apply Hok in Hsafe as [unknown Hd]. rewrite Hd in Hdiff.
    eauto.
  - intros Hbad.
    destruct (dict_del_all (Usage.index_by_id (c1 ++ c2)) referenced)
      as [k|unknown] eqn:Hd.
    + destruct Hdiff as [n Hdiff]. exists k. eexists. split; [| exact Hdiff].
      by destruct (dict_del_all_inl _ _ _ (index_by_id_NoDup (c1 ++ c2)) Hd).
    + exfalso. apply Hbad, Hok. eauto.
  - intros ids cs Hc Hl Hi Hp. by apply bare_ps_run.
  - intros argv w1 k w' H. unfold main, try_except. by rewrite H.
Qed.

Lemma unguarded_deletion_precondition_witness :
  let env := stale_env in
  let plans :=
    [("app", {| plan_action := "recreate";
                plan_containers :=
                  [web_app_1;
                   mk_container "zz" "web_app_2" "app_2" true "Up" ""] |})] in
  let inventory := map container_id ([web_app_1; web_old_1; web_tmp_1] ++ []) in
  let referenced := planned_ids plans in
  let safe := NoDup referenced /\ referenced ⊆ inventory in
  (safe -> exists after,
     calls (snd (Usage.up env demo_project "web" [] w0))
     = calls w0 ++ ProjectUp demo_project [] true :: after) /\
  (~ safe -> exists k,
     k ∈ referenced /\
     Usage.up env demo_project "web" [] w0 = (inl (KeyError k), w0)) /\
  (safe -> exists lines,
     Usage.diff env demo_project "web" [] w0 = (inr tt, add_out w0 lines)) /\
  (~ safe -> exists k lines,
     k ∈ referenced /\
     Usage.diff env demo_project "web" [] w0
     = (inl (KeyError k), add_out w0 lines)) /\
  (forall ids cs,
     docker_client env (calls w0) = None ->
     client_containers env (calls w0) true = inr ids ->
     Forall (fun id => exists d,
               inspect_container env (calls w0) id = inr d) ids ->
     projects_listing env (calls w0) (Usage._get_projectnames_in_dir env)
       = inr cs ->
     let owned := map container_id cs in
     (NoDup owned /\ owned ⊆ ids ->
      exists lines, Usage._ps env w0 = (inr tt, add_out w0 lines)) /\
     (~ (NoDup owned /\ owned ⊆ ids) ->
      exists k lines, Usage._ps env w0 = (inl (KeyError k), add_out w0 lines))) /\
  (forall argv w1 k w',
     Usage.__init__ env argv w1 = (inl (KeyError k), w') ->
     main env argv w1 = (inl (KeyError k), w')
     /\ exit_status (fst (main env argv w1)) = 1%Z).
Proof.
  apply (unguarded_deletion_precondition stale_env demo_project "web" [] w0
           [web_app_1; web_old_1; web_tmp_1] []
           [ {| service_name := "app" |}; {| service_name := "db" |} ]);
    reflexivity.
Defined.

(** A plan that refers to a container outside the inventory: [up] and
    [diff] fail on it, nothing is applied, and the error leaves [main]. *)
Example stale_plan_demo :
  main stale_env ["up"; "web"] w0 = (inl (KeyError "zz"), w0)
  /\ main stale_env ["diff"; "web"] w0
     = (inl (KeyError "zz"),
        add_out w0 [""; "  web convergence plan:"; ""])
  /\ exit_status (inl (KeyError "zz")) = 1%Z.
Proof. repeat split; reflexivity. Qed.

(** The bare [ps] in the concrete directory: the project owns [a1], the
    engine lists [a1] and [x9]. *)
Example bare_ps_demo :
  main demo_env ["ps"] w0
  = (inr tt,
     add_out w0
       [""; "  web                     1 Up,1 Uncreated"; "";
        "  Containers not tracked by compose/tugboat:"; "";
        "  x9                                  (host)           "; ""]).
Proof. reflexivity. Qed.

(** ** Printing *)

Lemma mute_bind {A B} (m : M A) (k : A -> M B) :
  mute m -> (forall a, mute (k a)) -> mute (bind m k).
Proof.
  intros Hm Hk w r w' H. run_bind H.
  - injection H as _ <-. eauto.
  - apply Hk in H. apply Hm in E. congruence.
Qed.

Lemma mute_ret {A} (a : A) : mute (ret a).
Proof. intros w r w' H. by injection H as _ <-. Qed.

Lemma mute_perform env c : mute (Usage.perform env c).
Proof.
  intros w r w' H. unfold Usage.perform in H.
  destruct (engine env (calls w) c); by injection H as _ <-.
Qed.

Lemma mute_wait_for_exit env container :
  mute (Usage.wait_for_exit env container).
Proof.
  intros w r w' H. unfold Usage.wait_for_exit, try_except in H.
  destruct (Usage.perform env _ w) as [[e|a] w1] eqn:E.
  - apply mute_perform in E. destruct e; injection H as _ <-; done.
  - apply mute_perform in E. by injection H as _ <-.
Qed.

Lemma mute_reclaim env container : mute (Usage.reclaim env container).
Proof.
  unfold Usage.reclaim. apply mute_bind; [| intros _; apply mute_perform].
  destruct (is_running container); [| apply mute_ret].
  repeat (apply mute_bind; [| intros _]);
    try apply mute_wait_for_exit; apply mute_perform.
Qed.

Lemma mute_for_each {A} (l : list A) (body : A -> M unit) :
  (forall x, mute (body x)) -> mute (for_each l body).
Proof.
  intros Hb. induction l as [|x l IH]; simpl.
  - apply mute_ret.
  - apply mute_bind; auto.
Qed.

(** ** Plans, as rendered *)

(** Whatever [up] prints, the closing [ps] prints. *)
Lemma up_prints_through_ps env project projectname servicenames w r w' :
  Usage.up env project projectname servicenames w = (r, w') ->
  out w' = out w
  \/ exists w2,
       out w2 = out w
       /\ Usage.ps env project projectname servicenames w2 = (r, w').
Proof.
  intros H. apply up_cases in H as [[_ ->]|H]; [by left |].
  destruct H as (c1 & c2 & services & plans & unknown & _ & _ & _ & _ & _ & H).
  unfold up_apply in H. unfold bind at 1 in H.
  destruct (Usage.perform env _ w) as [[e|[]] w1] eqn:E1.
  { apply mute_perform in E1. injection H as _ <-. by left. }
  apply mute_perform in E1. unfold bind at 1 in H.
  match type of H with
  | match ?m w1 with _ => _ end = _ =>
      assert (Hm : mute m);
      [| destruct (m w1) as [[e|[]] w2] eqn:E2; apply Hm in E2]
  end.
  { destruct (Nat.eqb (length servicenames) 0); [| apply mute_ret].
    apply mute_for_each. intros [id c]. apply mute_reclaim. }
  - injection H as _ <-. left. congruence.
  - right. exists w2. split; [congruence | done].
Qed.

(** C6, as the code has it.  The plans come from compose: [diff] and [up]
    hand the services that [get_services] returned for the requested names
    to [_get_convergence_plans] and take the mapping it returns.  [diff]
    renders that mapping entry by entry in the mapping's own order, one row
    per plan, and never rearranges it: a [diff] that completes prints,
    after its header, the rows of all the plans in that order and then the
    orphan rows; a [diff] that raises has printed the rows of an initial
    run of the plans.  [up] renders no plan: whatever it prints is printed
    by the [ps] it ends with. *)
Theorem plans_rendered_in_planner_order env project projectname servicenames w
    c1 c2 services plans :
  project_containers env (calls w) project None true false = inr c1 ->
  project_containers env (calls w) project None false true = inr c2 ->
  get_services env (calls w) project (Some servicenames) true = inr services ->
  get_convergence_plans env (calls w) project services true = inr plans ->
  let header := [""; "  " +:+ projectname +:+ " convergence plan:"; ""] in
  match Usage.diff env project projectname servicenames w with
  | (inr _, w') =>
      exists orphans : dict Container,
        out w' = out w ++ header ++ map plan_view_row plans
                 ++ map orphan_view_row orphans ++ [""]
  | (inl _, w') =>
      exists n, out w' = out w ++ header ++ take n (map plan_view_row plans)
  end
  /\ (forall r w',
        Usage.up env project projectname servicenames w = (r, w') ->
        out w' = out w
        \/ exists w2,
             out w2 = out w
             /\ Usage.ps env project projectname servicenames w2 = (r, w')).
Proof.
  intros H1 H2 H3 H4 header. split.
  - pose proof (diff_run env project projectname servicenames w c1 c2 services
                  plans H1 H2 H3 H4) as Hdiff.
    simpl in Hdiff. fold header in Hdiff.
    destruct (dict_del_all _ _) as [k|unknown].
    + destruct Hdiff as [n ->]. by exists n.
    + rewrite Hdiff. by exists unknown.
  - apply up_prints_through_ps.
Qed.

Lemma plans_rendered_in_planner_order_witness :
  let header := [""; "  " +:+ "web" +:+ " convergence plan:"; ""] in
  match Usage.diff declared_env demo_project "web" ["db"; "app"] w0 with
  | (inr _, w') =>
      exists orphans : dict Container,
        out w' = out w0 ++ header ++ map plan_view_row demo_plans
                 ++ map orphan_view_row orphans ++ [""]
  | (inl _, w') =>
      exists n, out w' = out w0 ++ header ++ take n (map plan_view_row demo_plans)
  end
  /\ (forall r w',
        Usage.up declared_env demo_project "web" ["db"; "app"] w0 = (r, w') ->
        out w' = out w0
        \/ exists w2,
             out w2 = out w0
             /\ Usage.ps declared_env demo_project "web" ["db"; "app"] w2
                = (r, w')).
Proof.
  apply (plans_rendered_in_planner_order declared_env demo_project "web"
           ["db"; "app"] w0 [web_app_1; web_old_1; web_tmp_1] []
           [ {| service_name := "app" |}; {| service_name := "db" |} ]
           demo_plans); reflexivity.
Defined.

(** The plan view of the concrete project, asked for [db] then [app], where
    the services come back in declared order. *)
Example diff_demo :
  Usage.diff declared_env demo_project "web" ["db"; "app"] w0
  = (inr tt,
     add_out w0
       [""; "  web convergence plan:"; "";
        "  app                     noop        web_app_1";
        "  db                      create      ";
        "  web_old_1               delete      ";
        "  web_tmp_1               delete      "; ""]).
Proof. reflexivity. Qed.

(** C6 with the order of the request does not hold: the plan rows of
    [diff] are not bound to come in the order in which the service names
    were given.  Where the services come back in the project's declared
    order, [diff] asked for [db] then [app] prints [app] before [db]. *)
Lemma plans_not_in_requested_order :
  ~ (forall env project projectname servicenames w w',
       NoDup servicenames -> servicenames <> [] ->
       Usage.diff env project projectname servicenames w = (inr tt, w') ->
       exists (plans : dict ConvergencePlan) (orphans : dict Container),
         map fst plans = servicenames
         /\ out w'
            = out w
              ++ [""; "  " +:+ projectname +:+ " convergence plan:"; ""]
              ++ map plan_view_row plans
              ++ map orphan_view_row orphans ++ [""]).
Proof.
  intros H.
  assert (Hnd : NoDup ["db"; "app"]).
  { apply NoDup_cons. split; [| apply NoDup_singleton].
    intros Hin. apply list_elem_of_singleton in Hin. discriminate Hin. }
  destruct (H declared_env demo_project "web" ["db"; "app"] w0 _ Hnd
              ltac:(discriminate) diff_demo)
    as (plans & orphans & Hkeys & Hout).
  destruct plans as [|[s1 p1] plans]; [discriminate Hkeys |].
  injection Hkeys as -> _.
  simpl in Hout. injection Hout as Hrow _.
  unfold plan_view_row, plan_row in Hrow. simpl in Hrow.
  discriminate Hrow.
Qed.

(** * Further properties *)

(** ** Suffixes *)

Lemma substring_skip a n m s :
  substring (String.length a + n) m (a +:+ s) = substring n m s.
Proof.
  induction a as [|c a IH]; [done |]. rewrite append_cons. exact IH.
Qed.

Lemma substring_all s : substring 0 (String.length s) s = s.
Proof. induction s as [|c s IH]; [done |]. simpl. by rewrite IH. Qed.

Lemma substring_head a s :
  substring 0 (String.length a) (a +:+ s) = a.
Proof.
  induction a as [|c a IH]; [by destruct s |].
  rewrite append_cons. simpl. by rewrite IH.
Qed.

Lemma substring_split k s :
  k <= String.length s ->
  s = substring 0 k s +:+ substring k (String.length s - k) s.
Proof.
  revert k. induction s as [|c s IH]; intros k Hk.
  - simpl in Hk. assert (k = 0) as -> by lia. done.
  - destruct k as [|k].
    + simpl. by rewrite substring_all.
    + simpl in Hk. simpl. rewrite append_cons. f_equal. apply IH. lia.
Qed.

(** A suffix test only looks at the end of the string. *)
Lemma endswith_app a s t :
  String.length t <= String.length s ->
  endswith (a +:+ s) t = endswith s t.
Proof.
  intros Hlen. unfold endswith. rewrite append_length.
  replace (String.length a + String.length s - String.length t)
    with (String.length a + (String.length s - String.length t)) by lia.
  rewrite substring_skip.
  destruct (Nat.leb_spec (String.length t) (String.length s)) as [_|?]; [| lia].
  destruct (Nat.leb_spec (String.length t)
              (String.length a + String.length s)) as [_|?]; [done | lia].
Qed.

Lemma endswith_self a t : endswith (a +:+ t) t = true.
Proof.
  rewrite endswith_app by done. unfold endswith.
  rewrite Nat.sub_diag, substring_all, Nat.leb_refl, String.eqb_refl. done.
Qed.

Lemma slice_to_neg_app a t : slice_to_neg (String.length t) (a +:+ t) = a.
Proof.
  unfold slice_to_neg. rewrite append_length.
  replace (String.length a + String.length t - String.length t)
    with (String.length a) by lia.
  apply substring_head.
Qed.

(** A string that passes the suffix test is what is left of it plus the
    suffix. *)
Lemma endswith_split s t :
  endswith s t = true -> s = slice_to_neg (String.length t) s +:+ t.
Proof.
  unfold endswith, slice_to_neg. intros H.
  apply andb_true_iff in H as [Hlen H].
  apply Nat.leb_le in Hlen. apply String.eqb_eq in H.
  rewrite (substring_split (String.length s - String.length t) s) at 1 by lia.
  f_equal.
  replace (String.length s - (String.length s - String.length t))
    with (String.length t) by lia.
  exact H.
Qed.

(** ** Project names and project files *)

(** X1.  [_clean_project_name] removes one [.yaml], or one [.yml] and then
    a [.yaml] that this uncovers; it never removes a [.yml] uncovered by
    removing [.yaml], and leaves any other name alone. *)
Theorem clean_project_name_suffixes (n : string) :
  Usage._clean_project_name (n +:+ ".yaml") = n
  /\ Usage._clean_project_name (n +:+ ".yml")
     = (if endswith n ".yaml" then slice_to_neg 5 n else n)
  /\ Usage._clean_project_name (n +:+ ".yaml" +:+ ".yml") = n
  /\ Usage._clean_project_name (n +:+ ".yml" +:+ ".yaml") = n +:+ ".yml"
  /\ (endswith n ".yml" = false -> endswith n ".yaml" = false ->
      Usage._clean_project_name n = n).
Proof.
  assert (Hyaml : forall m, Usage._clean_project_name (m +:+ ".yaml") = m).
  { intros m. unfold Usage._clean_project_name.
    rewrite (endswith_app m ".yaml" ".yml") by (simpl; lia).
    change (endswith ".yaml" ".yml") with false. cbn iota.
    rewrite endswith_self. apply (slice_to_neg_app m ".yaml"). }
  assert (Hyml : forall m, Usage._clean_project_name (m +:+ ".yml")
                           = (if endswith m ".yaml" then slice_to_neg 5 m
                              else m)).
  { intros m. unfold Usage._clean_project_name.
    pose proof (slice_to_neg_app m ".yml") as Hs. simpl String.length in Hs.
    by rewrite endswith_self, Hs. }
  split; [apply Hyaml |]. split; [apply Hyml |]. split; [| split].
  - rewrite <- append_assoc, Hyml, endswith_self.
    apply (slice_to_neg_app n ".yaml").
  - rewrite <- append_assoc. apply Hyaml.
  - intros H1 H2. unfold Usage._clean_project_name. by rewrite H1, H2.
Qed.

Lemma clean_project_name_suffixes_witness :
  endswith "web" ".yml" = false /\ endswith "web" ".yaml" = false
  /\ Usage._clean_project_name "web" = "web".
Proof.
  split; [reflexivity |]. split; [reflexivity |].
  apply (clean_project_name_suffixes "web"); reflexivity.
Defined.

(** X2.  From a directory entry back to a file: the bare [ps] turns the
    entry [n.yml] into a project name whose configuration file is [n.yml]
    again, provided [n] does not itself end in [.yaml]; for an entry
    [n.yaml] the configuration is loaded from [n.yml], never from the entry
    that was listed. *)
Theorem listed_entry_config_file env (n : string) w :
  (endswith n ".yaml" = false ->
   Usage._get_config env (Usage._clean_project_name (n +:+ ".yml")) w
   = (config_load env (calls w) (abspath (getcwd env) (n +:+ ".yml")), w))
  /\ Usage._get_config env (Usage._clean_project_name (n +:+ ".yaml")) w
     = (config_load env (calls w) (abspath (getcwd env) (n +:+ ".yml")), w)
  /\ n +:+ ".yml" <> n +:+ ".yaml".
Proof.
  destruct (clean_project_name_suffixes n) as (Hyaml & Hyml & _).
  split; [| split].
  - intros H. rewrite Hyml, H. apply get_config_run.
  - rewrite Hyaml. apply get_config_run.
  - intros H. apply append_inv_head in H. discriminate H.
Qed.

Lemma listed_entry_config_file_witness :
  endswith "web" ".yaml" = false /\
  Usage._get_config demo_env (Usage._clean_project_name ("web" +:+ ".yml")) w0
  = (config_load demo_env (calls w0)
       (abspath (getcwd demo_env) ("web" +:+ ".yml")), w0).
Proof.
  split; [reflexivity |].
  destruct (listed_entry_config_file demo_env "web" w0) as [H _].
  apply H. reflexivity.
Defined.

(** X3.  The project names of the bare [ps] come from the directory: a name
    is listed exactly when some entry ends in [.yml] or [.yaml] and cleans
    to it, and every listed name is its entry minus [.yml], [.yaml] or
    [.yaml.yml].  Entries with neither suffix are never listed. *)
Theorem projectnames_from_directory env (p : string) :
  p ∈ Usage._get_projectnames_in_dir env <->
  exists file,
    file ∈ listdir env (getcwd env)
    /\ (endswith file ".yaml" = true \/ endswith file ".yml" = true)
    /\ p = Usage._clean_project_name file
    /\ (file = p +:+ ".yml" \/ file = p +:+ ".yaml"
        \/ file = p +:+ ".yaml" +:+ ".yml").
Proof.
  unfold Usage._get_projectnames_in_dir. split.
  - intros H. apply list_elem_of_fmap in H as (file & -> & H).
    apply list_elem_of_In, filter_In in H as [Hin Hok].
    apply list_elem_of_In in Hin. apply orb_true_iff in Hok.
    exists file. split; [done |]. split; [done |]. split; [done |].
    unfold Usage._clean_project_name.
    destruct (endswith file ".yml") eqn:Hyml.
    + apply endswith_split in Hyml. simpl String.length in Hyml.
      remember (slice_to_neg 4 file) as a eqn:Ha. clear Ha.
      destruct (endswith a ".yaml") eqn:Hyaml.
      * apply endswith_split in Hyaml. simpl String.length in Hyaml.
        remember (slice_to_neg 5 a) as b eqn:Hb. clear Hb.
        right. right. by rewrite Hyml, Hyaml, append_assoc.
      * by left.
    + destruct Hok as [Hyaml|?]; [| done]. rewrite Hyaml.
      apply endswith_split in Hyaml. by right; left.
  - intros (file & Hin & Hok & -> & _).
    apply (list_elem_of_fmap_2 Usage._clean_project_name).
    apply list_elem_of_In, filter_In. split; [by apply list_elem_of_In |].
    by apply orb_true_iff.
Qed.

(** ** Dispatch *)

Lemma getattr_unknown env command :
  command ∉ handler_names -> startswith command "_" = false ->
  Usage.getattr env command = None.
Proof.
  intros Hnot Hus. unfold Usage.getattr.
  repeat match goal with
  | |- context [String.eqb command ?s] =>
      destruct (String.eqb_spec command s) as [->|_];
      [first [ discriminate Hus
             | exfalso; apply Hnot; apply list_elem_of_In; simpl; tauto ] |]
  end.
  reflexivity.
Qed.

(** X4.  A command that is none of the twelve handlers (and does not start
    with an underscore) is refused before anything else happens: [main]
    prints [<command> command not found] and exits with status 1, without
    creating the docker client, loading the project file or issuing an
    engine call. *)
Theorem unknown_command_refused env argv command projectname servicenames w :
  docopt env argv = inr (OptCommand command projectname servicenames) ->
  command ∉ handler_names ->
  startswith command "_" = false ->
  main env argv w
  = (inl (SystemExit (ExitCode 1)),
     {| calls := calls w; out := out w ++ [command +:+ " command not found"] |})
  /\ exit_status (fst (main env argv w)) = 1%Z.
Proof.
  intros Hd Hnot Hus.
  assert (Hrun : main env argv w
                 = (inl (SystemExit (ExitCode 1)),
                    {| calls := calls w;
                       out := out w ++ [command +:+ " command not found"] |})).
  { unfold main, try_except, Usage.__init__, bind at 1, try_except, query.
    rewrite Hd, (getattr_unknown env command Hnot Hus). reflexivity. }
  by rewrite Hrun.
Qed.

Lemma unknown_command_refused_witness :
  main legacy_env ["frob"; "web"] w0
  = (inl (SystemExit (ExitCode 1)),
     {| calls := calls w0; out := out w0 ++ ["frob" +:+ " command not found"] |})
  /\ exit_status (fst (main legacy_env ["frob"; "web"] w0)) = 1%Z.
Proof.
  apply (unknown_command_refused legacy_env ["frob"; "web"] "frob" "web" [] w0).
  - reflexivity.
  - unfold handler_names. intros H.
    repeat (apply elem_of_cons in H as [H|H]; [discriminate H |]).
    by apply not_elem_of_nil in H.
  - reflexivity.
Defined.

(** [_exec] named as the command: the project object takes the place of
    the project name, the PROJECT argument that of the service, and the
    services that of the command. *)
Example exec_as_command_demo :
  main demo_env ["_exec"; "web"; "app"] w0
  = (inl (SystemExit (ExitCode 0)),
     {| calls := [SubprocessCall
                    ["docker"; "exec"; "-it"; "<Project web>_web_1"; "app"]];
        out := [""; "  docker exec -it <Project web>_web_1 app"; ""] |}).
Proof. reflexivity. Qed.

(** X5.  A command line [docopt] rejects ends in [SystemExit] carrying the
    usage text: nothing is printed through [print], no engine call is
    issued, [main] does not catch it, and the status is 1. *)
Theorem rejected_command_line_shows_usage env argv w :
  docopt env argv = inl DocoptExit ->
  main env argv w = (inl (SystemExit (ExitText usage_doc)), w)
  /\ exit_status (fst (main env argv w)) = 1%Z.
Proof.
  intros Hd.
  assert (Hrun : main env argv w = (inl (SystemExit (ExitText usage_doc)), w)).
  { unfold main, try_except, Usage.__init__, bind at 1, try_except, query.
    by rewrite Hd. }
  by rewrite Hrun.
Qed.

Lemma rejected_command_line_shows_usage_witness :
  main demo_env ["up"] w0 = (inl (SystemExit (ExitText usage_doc)), w0)
  /\ exit_status (fst (main demo_env ["up"] w0)) = 1%Z.
Proof.
  apply (rejected_command_line_shows_usage demo_env ["up"] w0). reflexivity.
Defined.

Lemma low_byte (n : Z) :
  (-256 < n < 256)%Z ->
  Z.land n 255 = (if (n <? 0)%Z then 256 + n else n)%Z.
Proof.
  intros H. change 255%Z with (Z.ones 8). rewrite Z.land_ones by lia.
  change (2 ^ 8)%Z with 256%Z.
  destruct (Z.ltb_spec n 0).
  - symmetry. apply (Z.mod_unique_pos n 256 (-1)); lia.
  - apply Z.mod_small. lia.
Qed.

(** X6.  [exec] hands the child's return code on: when [docker] returns
    [rc] (an exit status from 0 to 255, or minus the number of the signal
    that killed the child), [sys.exit(rc)] is raised after the command line
    is printed between two empty lines, and the process ends with the low
    eight bits of [rc]: [rc] itself for an exit status, [256 - n] for a
    child killed by signal [n].  Neither the docker client nor the project
    file is consulted, so the project and the service need not exist. *)
Theorem exec_exit_status env argv PROJECT SERVICE COMMANDS rc w :
  docopt env argv = inr (OptExec PROJECT SERVICE COMMANDS) ->
  let containername := PROJECT +:+ "_" +:+ SERVICE +:+ "_1" in
  let command := match COMMANDS with [] => ["/bin/bash"] | _ => COMMANDS end in
  subprocess_call env (calls w)
    (["docker"; "exec"; "-it"; containername] ++ command) = inr rc ->
  (-256 < rc < 256)%Z ->
  main env argv w
  = (inl (SystemExit (ExitCode rc)),
     {| calls := calls w ++ [SubprocessCall
                               (["docker"; "exec"; "-it"; containername]
                                ++ command)];
        out := out w
               ++ [""; "  docker exec -it " +:+ containername +:+ " "
                        +:+ join " " command; ""] |})
  /\ exit_status (fst (main env argv w))
     = (if (rc <? 0)%Z then 256 + rc else rc)%Z.
Proof.
  intros Hd containername command Hrc Hrange.
  assert (Hrun : Usage.__init__ env argv w
    = (inl (SystemExit (ExitCode rc)),
       {| calls := calls w ++ [SubprocessCall
                                 (["docker"; "exec"; "-it"; containername]
                                  ++ command)];
          out := out w
                 ++ [""; "  docker exec -it " +:+ containername +:+ " "
                          +:+ join " " command; ""] |})).
  { rewrite (init_exec _ _ _ _ _ _ Hd). unfold Usage._exec.
    fold containername.
    replace (match COMMANDS with [] => ["/bin/bash"] | _ :: _ => COMMANDS end)
      with command by (by destruct COMMANDS).
    do 3 (unfold bind at 1; rewrite print_run).
    unfold bind, Usage.subprocess. simpl calls. rewrite Hrc.
    unfold sys_exit, raise, add_out. simpl. by rewrite <- !app_assoc. }
  unfold main, try_except. rewrite Hrun. split; [done |].
  cbn [fst exit_status]. apply low_byte. exact Hrange.
Qed.

Lemma exec_exit_status_witness :
  main signalled_env ["exec"; "web"; "app"; "ls"] w0
  = (inl (SystemExit (ExitCode (-9))),
     {| calls := calls w0 ++ [SubprocessCall
                                (["docker"; "exec"; "-it";
                                  "web" +:+ "_" +:+ "app" +:+ "_1"] ++ ["ls"])];
        out := out w0
               ++ [""; "  docker exec -it " +:+ ("web" +:+ "_" +:+ "app" +:+ "_1")
                        +:+ " " +:+ join " " ["ls"]; ""] |})
  /\ exit_status (fst (main signalled_env ["exec"; "web"; "app"; "ls"] w0))
     = 247%Z.
Proof.
  apply (exec_exit_status signalled_env ["exec"; "web"; "app"; "ls"]
           "web" "app" ["ls"] (-9)%Z w0); [reflexivity | reflexivity | lia].
Defined.

(** ** What the commands leave alone *)

Lemma diff_plan_quiet unknown item : quiet (Usage.diff_plan unknown item).
Proof.
  intros w r w' H. rewrite diff_plan_run in H.
  destruct (dict_del_all unknown _); by injection H as _ <-.
Qed.

Lemma diff_quiet env project projectname servicenames :
  quiet (Usage.diff env project projectname servicenames).
Proof.
  unfold Usage.diff. pose proof diff_plan_quiet. auto 12 with quiet.
Qed.

Lemma ps_unknown_quiet detail : quiet (Usage._ps_unknown detail).
Proof. unfold Usage._ps_unknown. apply quiet_print. Qed.

Lemma get_config_quiet env name : quiet (Usage._get_config env name).
Proof. unfold Usage._get_config. apply quiet_query. Qed.

Lemma new_project_quiet env projectname config :
  quiet (Usage.new_project env projectname config).
Proof. unfold Usage.new_project. auto with quiet. Qed.

Lemma bare_ps_service_quiet env project st service :
  quiet (Usage._ps_service env project st service).
Proof.
  unfold Usage._ps_service. destruct st as [unknown counts].
  repeat (apply quiet_bind; [apply quiet_query | intros ?]).
  apply quiet_for_fold. intros [u c] x. auto with quiet.
Qed.

Lemma bare_ps_project_quiet env unknown projectname :
  quiet (Usage._ps_project env unknown projectname).
Proof.
  unfold Usage._ps_project.
  apply quiet_bind; [apply get_config_quiet | intros config].
  apply quiet_bind; [apply new_project_quiet | intros project].
  apply quiet_bind; [apply quiet_query | intros services].
  apply quiet_bind.
  - apply quiet_for_fold. intros st s. apply bare_ps_service_quiet.
  - intros [u c]. auto with quiet.
Qed.

Lemma bare_ps_quiet env : quiet (Usage._ps env).
Proof.
  unfold Usage._ps.
  pose proof (bare_ps_project_quiet env). pose proof ps_unknown_quiet.
  auto 14 with quiet.
Qed.

Lemma init_ps env argv w :
  docopt env argv = inr OptPs -> Usage.__init__ env argv w = Usage._ps env w.
Proof.
  intros H. unfold Usage.__init__, bind at 1, try_except, query. by rewrite H.
Qed.

(** What [__init__] does with a known handler, without assumptions on the
    docker client or the project file. *)
Lemma init_handler env argv command projectname servicenames handle w :
  docopt env argv = inr (OptCommand command projectname servicenames) ->
  Usage.getattr env command = Some (Usage.Handler handle) ->
  Usage.__init__ env argv w
  = (check (docker_client env) ;;;
     config <- Usage._get_config env projectname ;;
     project <- Usage.new_project env projectname config ;;
     handle project projectname servicenames) w.
Proof.
  intros Hd Hh. unfold Usage.__init__ at 1, bind at 1, try_except, query.
  by rewrite Hd, Hh.
Qed.

Lemma init_handler_quiet env argv command projectname servicenames handle :
  docopt env argv = inr (OptCommand command projectname servicenames) ->
  Usage.getattr env command = Some (Usage.Handler handle) ->
  (forall project, quiet (handle project projectname servicenames)) ->
  quiet (Usage.__init__ env argv).
Proof.
  intros Hd Hh Hq w r w' H. rewrite (init_handler _ _ _ _ _ _ _ Hd Hh) in H.
  revert H.
  assert (Hm : quiet (check (docker_client env) ;;;
                      config <- Usage._get_config env projectname ;;
                      project <- Usage.new_project env projectname config ;;
                      handle project projectname servicenames)).
  { apply quiet_bind; [apply quiet_check | intros _].
    apply quiet_bind; [apply get_config_quiet | intros config].
    apply quiet_bind; [apply new_project_quiet | intros project].
    apply Hq. }
  apply Hm.
Qed.

(** X7.  The read-only commands: the bare [ps], [ps PROJECT] and [diff]
    only ask.  They create the client, load configurations and query
    containers, services and plans, but issue none of the state-changing
    calls of [call] (project build, kill, stop, remove, restart, pull, up;
    container kill, wait, stop, remove; log printer; child process),
    whatever the environment answers and however the command ends; and
    their result and output are the same on any engine and any child
    process. *)
Theorem listing_commands_read_only env argv w :
  (docopt env argv = inr OptPs
   \/ (exists projectname servicenames,
         docopt env argv = inr (OptCommand "ps" projectname servicenames))
   \/ (exists projectname servicenames,
         docopt env argv = inr (OptCommand "diff" projectname servicenames))) ->
  calls (snd (main env argv w)) = calls w
  /\ (forall engine' subprocess_call',
        main (with_engine env engine' subprocess_call') argv w
        = main env argv w).
Proof.
  intros H. split.
  - rewrite main_calls.
    destruct (Usage.__init__ env argv w) as [r w'] eqn:E. simpl.
    destruct H as [H|[(pn & sn & H)|(pn & sn & H)]].
    + rewrite (init_ps _ _ _ H) in E. by apply bare_ps_quiet in E.
    + revert E. apply (fun Hm => Hm w r w').
      apply (init_handler_quiet env argv "ps" pn sn (Usage.ps env) H eq_refl).
      intros project. apply ps_quiet.
    + revert E. apply (fun Hm => Hm w r w').
      apply (init_handler_quiet env argv "diff" pn sn (Usage.diff env) H
               eq_refl).
      intros project. apply diff_quiet.
  - intros engine' subprocess_call'.
    set (env' := with_engine env engine' subprocess_call').
    assert (Hinit : Usage.__init__ env' argv w = Usage.__init__ env argv w).
    { destruct H as [H|[(pn & sn & H)|(pn & sn & H)]].
      + rewrite (init_ps env' argv w H), (init_ps env argv w H). reflexivity.
      + rewrite (init_handler env' argv "ps" pn sn (Usage.ps env') w H eq_refl),
          (init_handler env argv "ps" pn sn (Usage.ps env) w H eq_refl).
        reflexivity.
      + rewrite (init_handler env' argv "diff" pn sn (Usage.diff env') w H
                   eq_refl),
          (init_handler env argv "diff" pn sn (Usage.diff env) w H eq_refl).
        reflexivity. }
    unfold main, try_except. by rewrite Hinit.
Qed.

Lemma listing_commands_read_only_witness :
  calls (snd (main stale_env ["diff"; "web"] w1)) = calls w1
  /\ (forall engine' subprocess_call',
        main (with_engine stale_env engine' subprocess_call') ["diff"; "web"] w1
        = main stale_env ["diff"; "web"] w1).
Proof.
  apply (listing_commands_read_only stale_env ["diff"; "web"] w1).
  right. right. exists "web", []. reflexivity.
Defined.

Ltac emits_steps :=
  repeat first
    [ apply quiet_emits; first [ apply ps_quiet | apply quiet_query
                               | apply quiet_print | apply quiet_ret ]
    | apply emits_perform; reflexivity
    | apply emits_bind; [| intros ?] ].

(** X8.  Of the twelve command handlers only [up] ever addresses an
    individual container: every other handler issues project-level calls
    (or none), never a kill, wait, stop or remove on a container id,
    whatever the environment answers. *)
Theorem only_up_addresses_containers env command handle project projectname
    servicenames w r w' :
  Usage.getattr env command = Some (Usage.Handler handle) ->
  command <> "up" ->
  handle project projectname servicenames w = (r, w') ->
  exists l,
    calls w' = calls w ++ l /\ Forall (fun c => container_call c = None) l.
Proof.
  intros Hh Hup. apply (fun Hm => Hm w r w').
  change (emits (fun c => container_call c = None)
            (handle project projectname servicenames)).
  unfold Usage.getattr in Hh.
  repeat match type of Hh with
  | context [String.eqb command ?s] =>
      destruct (String.eqb_spec command s) as [->|_]
  end;
  try discriminate Hh; try (exfalso; by apply Hup);
  injection Hh as <-.
  - apply quiet_emits, ps_quiet.
  - unfold Usage.build. emits_steps.
  - unfold Usage.rebuild. emits_steps.
  - unfold Usage.kill. emits_steps.
  - unfold Usage.logs. emits_steps.
  - unfold Usage.pull. emits_steps.
  - unfold Usage.rm. emits_steps.
  - unfold Usage.down. emits_steps.
  - unfold Usage.cull. emits_steps.
  - unfold Usage.recreate. emits_steps.
  - apply quiet_emits, diff_quiet.
  - unfold Usage._exec.
    do 3 (apply emits_bind; [apply quiet_emits, quiet_print | intros _]).
    apply emits_bind; [by apply emits_subprocess | intros rc].
    apply quiet_emits. intros w0 r0 w0' H. by injection H as _ <-.
Qed.

Lemma only_up_addresses_containers_witness :
  exists l,
    calls (snd (Usage.cull demo_env demo_project "web" [] w0)) = calls w0 ++ l
    /\ Forall (fun c => container_call c = None) l.
Proof.
  apply (only_up_addresses_containers demo_env "cull" (Usage.cull demo_env)
           demo_project "web" [] w0
           (fst (Usage.cull demo_env demo_project "web" [] w0))).
  - reflexivity.
  - discriminate.
  - reflexivity.
Defined.

(** ** What [diff] announces and what [up] does *)

Lemma removed_ids_app l1 l2 :
  removed_ids (l1 ++ l2) = removed_ids l1 ++ removed_ids l2.
Proof. unfold removed_ids. apply flat_map_app. Qed.

Lemma removed_ids_teardown container :
  removed_ids (teardown container) = [container_id container].
Proof. unfold teardown. by destruct (is_running container). Qed.

Lemma removed_ids_reclaimed (unknown : dict Container) :
  removed_ids (concat (map (fun kv => teardown (snd kv)) unknown))
  = map (fun kv => container_id (snd kv)) unknown.
Proof.
  induction unknown as [|[k c] unknown IH]; [done |].
  simpl. by rewrite removed_ids_app, removed_ids_teardown, IH.
Qed.

Lemma removed_ids_none l :
  Forall (fun c => container_call c = None) l -> removed_ids l = [].
Proof.
  induction 1 as [|c l Hc _ IH]; [done |].
  simpl. rewrite IH. by destruct c.
Qed.

(** X9.  [diff] without service names announces what [up] without service
    names does: when the queries answer alike and the engine obeys, the
    rows [diff] prints with action [delete] name, one for one and in the
    same order, the containers [up] removes. *)
Theorem diff_announces_what_up_removes env project projectname w
    c1 c2 services plans unknown :
  project_containers env (calls w) project None true false = inr c1 ->
  project_containers env (calls w) project None false true = inr c2 ->
  get_services env (calls w) project (Some []) true = inr services ->
  get_convergence_plans env (calls w) project services true = inr plans ->
  Usage.forget_planned (Usage.index_by_id (c1 ++ c2)) plans w
    = (inr unknown, w) ->
  engine env (calls w) (ProjectUp project [] true) = None ->
  engine_obeys env ->
  let orphans := map snd unknown in
  Usage.diff env project projectname [] w
  = (inr tt,
     add_out w
       ([""; "  " +:+ projectname +:+ " convergence plan:"; ""]
        ++ map plan_view_row plans
        ++ map (fun c => orphan_row (container_name c) "delete") orphans
        ++ [""]))
  /\ exists l,
       calls (snd (Usage.up env project projectname [] w)) = calls w ++ l
       /\ removed_ids l = map container_id orphans.
Proof.
  intros H1 H2 H3 H4 Hf Hup Hengine orphans.
  rewrite forget_planned_run in Hf.
  destruct (dict_del_all _ _) as [k|d] eqn:Hd; simpl in Hf; [congruence |].
  assert (d = unknown) as -> by congruence. clear Hf. split.
  - pose proof (diff_run env project projectname [] w _ _ _ _ H1 H2 H3 H4)
      as Hdiff.
    simpl in Hdiff. rewrite Hd in Hdiff. rewrite Hdiff. unfold orphans.
    by rewrite map_map.
  - exists (ProjectUp project [] true
            :: concat (map (fun kv => teardown (snd kv)) unknown)).
    split.
    + rewrite (up_run _ _ _ _ _ _ _ _ _ H1 H2 H3 H4), Hd.
      unfold up_apply, bind at 1, Usage.perform at 1. rewrite Hup.
      unfold bind at 1. cbn [Nat.eqb length].
      rewrite (reclaim_all_run env Hengine).
      match goal with
      | |- calls (snd (Usage.ps ?e ?p ?n ?s ?w2)) = _ =>
          destruct (Usage.ps e p n s w2) as [r w'] eqn:E
      end.
      apply ps_quiet in E. simpl in *. by rewrite E, <- app_assoc.
    + change (removed_ids (ProjectUp project [] true :: ?l))
        with (removed_ids l).
      unfold orphans. by rewrite removed_ids_reclaimed, map_map.
Qed.

Lemma diff_announces_what_up_removes_witness :
  let orphans := map snd [("o1", web_old_1); ("t1", web_tmp_1)] in
  Usage.diff demo_env demo_project "web" [] w0
  = (inr tt,
     add_out w0
       ([""; "  " +:+ "web" +:+ " convergence plan:"; ""]
        ++ map plan_view_row demo_plans
        ++ map (fun c => orphan_row (container_name c) "delete") orphans
        ++ [""]))
  /\ exists l,
       calls (snd (Usage.up demo_env demo_project "web" [] w0)) = calls w0 ++ l
       /\ removed_ids l = map container_id orphans.
Proof.
  apply (diff_announces_what_up_removes demo_env demo_project "web" w0
           [web_app_1; web_old_1; web_tmp_1] []
           [ {| service_name := "app" |}; {| service_name := "db" |} ]
           demo_plans [("o1", web_old_1); ("t1", web_tmp_1)]);
    try reflexivity.
  apply demo_engine_obeys.
Defined.

(** X10.  With service names given the two part ways: [diff] still prints
    a [delete] row for every container left in its dictionary, while [up]
    with the same service names removes none of them, whatever the engine
    answers. *)
Theorem scoped_diff_announces_deletes_up_skips env project projectname
    servicenames w c1 c2 services plans unknown :
  servicenames <> [] ->
  project_containers env (calls w) project None true false = inr c1 ->
  project_containers env (calls w) project None false true = inr c2 ->
  get_services env (calls w) project (Some servicenames) true = inr services ->
  get_convergence_plans env (calls w) project services true = inr plans ->
  Usage.forget_planned (Usage.index_by_id (c1 ++ c2)) plans w
    = (inr unknown, w) ->
  let orphans := map snd unknown in
  Usage.diff env project projectname servicenames w
  = (inr tt,
     add_out w
       ([""; "  " +:+ projectname +:+ " convergence plan:"; ""]
        ++ map plan_view_row plans
        ++ map (fun c => orphan_row (container_name c) "delete") orphans
        ++ [""]))
  /\ exists l,
       calls (snd (Usage.up env project projectname servicenames w))
       = calls w ++ l
       /\ removed_ids l = [].
Proof.
  intros Hne H1 H2 H3 H4 Hf orphans.
  rewrite forget_planned_run in Hf.
  destruct (dict_del_all _ _) as [k|d] eqn:Hd; simpl in Hf; [congruence |].
  assert (d = unknown) as -> by congruence. clear Hf. split.
  - pose proof (diff_run env project projectname servicenames w _ _ _ _
                  H1 H2 H3 H4) as Hdiff.
    simpl in Hdiff. rewrite Hd in Hdiff. rewrite Hdiff. unfold orphans.
    by rewrite map_map.
  - destruct (Usage.up env project projectname servicenames w)
      as [r w'] eqn:E.
    rewrite (up_run _ _ _ _ _ _ _ _ _ H1 H2 H3 H4), Hd in E.
    destruct (dict_del_all_inr _ _ _ (index_by_id_NoDup (c1 ++ c2)) Hd)
      as (_ & _ & Hu).
    apply up_apply_calls in E as (after & Hc & Hnil & _).
    2:{ rewrite Hu. apply dict_without_ids, index_by_id_ids. }
    rewrite (Hnil Hne) in Hc.
    exists [ProjectUp project servicenames true]. done.
Qed.

Lemma scoped_diff_announces_deletes_up_skips_witness :
  let orphans := map snd [("o1", web_old_1); ("t1", web_tmp_1)] in
  Usage.diff demo_env demo_project "web" ["app"] w0
  = (inr tt,
     add_out w0
       ([""; "  " +:+ "web" +:+ " convergence plan:"; ""]
        ++ map plan_view_row
             [("app", {| plan_action := "noop";
                         plan_containers := [web_app_1] |})]
        ++ map (fun c => orphan_row (container_name c) "delete") orphans
        ++ [""]))
  /\ exists l,
       calls (snd (Usage.up demo_env demo_project "web" ["app"] w0))
       = calls w0 ++ l
       /\ removed_ids l = [].
Proof.
  apply (scoped_diff_announces_deletes_up_skips demo_env demo_project "web"
           ["app"] w0 [web_app_1; web_old_1; web_tmp_1] []
           [ {| service_name := "app" |} ]
           [("app", {| plan_action := "noop";
                       plan_containers := [web_app_1] |})]
           [("o1", web_old_1); ("t1", web_tmp_1)]);
    try reflexivity.
  discriminate.
Defined.

(** ** Calls in sequence *)

Lemma issue_app env cs1 cs2 h :
  issue env h (cs1 ++ cs2)
  = match issue env h cs1 with
    | (None, h') => issue env h' cs2
    | r => r
    end.
Proof.
  revert h. induction cs1 as [|c cs1 IH]; intros h; simpl; [done |].
  destruct (engine env h c) as [e|]; [| apply IH].
  destruct (tolerated c e); [apply IH | done].
Qed.

(** [issue] stops at the first call that raises an exception it does not
    tolerate, and not before. *)
Lemma issue_spec env cs h :
  match issue env h cs with
  | (None, h') => h' = h ++ cs
  | (Some e, h') =>
      exists before last rest,
        cs = before ++ last :: rest
        /\ h' = h ++ before ++ [last]
        /\ engine env (h ++ before) last = Some e
        /\ tolerated last e = false
  end.
Proof.
  revert h. induction cs as [|c cs IH]; intros h; simpl.
  - by rewrite app_nil_r.
  - assert (Hgo : match issue env (h ++ [c]) cs with
                  | (None, h') => h' = h ++ c :: cs
                  | (Some e, h') =>
                      exists before last rest,
                        c :: cs = before ++ last :: rest
                        /\ h' = h ++ before ++ [last]
                        /\ engine env (h ++ before) last = Some e
                        /\ tolerated last e = false
                  end).
    { specialize (IH (h ++ [c])).
      destruct (issue env (h ++ [c]) cs) as [[e|] h'].
      - destruct IH as (before & last & rest & -> & -> & He & Ht).
        exists (c :: before), last, rest. rewrite <- !app_assoc in *. done.
      - by rewrite <- app_assoc in IH. }
    destruct (engine env h c) as [e|] eqn:E; [| exact Hgo].
    destruct (tolerated c e) eqn:Ht; [exact Hgo |].
    exists [], c, cs. rewrite app_nil_r. done.
Qed.

Lemma bind_assoc {A B C} (m : M A) (k : A -> M B) (k' : B -> M C) w :
  bind (bind m k) k' w = bind m (fun a => bind (k a) k') w.
Proof.
  unfold bind. destruct (m w) as [[e|a] w1]; [done |].
  by destruct (k a w1) as [[e|b] w2].
Qed.

Lemma perform_cases env c w :
  Usage.perform env c w
  = (match engine env (calls w) c with
     | Some e => inl e
     | None => inr tt
     end, add_calls w [c]).
Proof. unfold Usage.perform. by destruct (engine env (calls w) c). Qed.

Lemma wait_for_exit_cases env container w :
  Usage.wait_for_exit env container w
  = (match engine env (calls w) (ClientWait (container_id container) 10) with
     | None | Some ReadTimeout => inr tt
     | Some e => inl e
     end, add_calls w [ClientWait (container_id container) 10]).
Proof.
  unfold Usage.wait_for_exit, try_except. rewrite perform_cases.
  destruct (engine env (calls w) _) as [e|]; [| done]. by destruct e.
Qed.

Lemma reclaim_issue env container w :
  Usage.reclaim env container w
  = issued w (issue env (calls w) (teardown container)).
Proof.
  assert (Hlast : forall w2, out w2 = out w ->
    Usage.perform env (ContainerRemove (container_id container)) w2
    = issued w (issue env (calls w2)
                  [ContainerRemove (container_id container)])).
  { intros w2 Hout2. unfold issued. cbn [issue]. rewrite perform_cases.
    unfold add_calls. rewrite Hout2.
    destruct (engine env (calls w2) (ContainerRemove _)) as [e|];
      [destruct e |]; reflexivity. }
  assert (Hrest : forall w1,
    out w1 = out w ->
    (Usage.perform env (ContainerStop (container_id container)) ;;;
     Usage.wait_for_exit env container ;;;
     Usage.perform env (ContainerRemove (container_id container))) w1
    = issued w
        (issue env (calls w1)
           [ContainerStop (container_id container);
            ClientWait (container_id container) 10;
            ContainerRemove (container_id container)])).
  { intros w1 Hout. cbn [issue].
    unfold bind at 1. rewrite perform_cases.
    destruct (engine env (calls w1) (ContainerStop _)) as [e|].
    { unfold issued, add_calls. rewrite Hout. by destruct e. }
    unfold bind at 1. rewrite wait_for_exit_cases. cbn [calls add_calls].
    destruct (engine env (calls w1 ++ [ContainerStop _]) (ClientWait _ _))
      as [e|].
    - destruct e; cbn [tolerated];
        try (unfold issued, add_calls; cbn [calls out fst snd];
             rewrite Hout; reflexivity).
      by rewrite Hlast.
    - by rewrite Hlast. }
  unfold Usage.reclaim, teardown.
  destruct (is_running container); cbn [app issue].
  - rewrite bind_assoc. unfold bind at 1. rewrite perform_cases.
    destruct (engine env (calls w) (ContainerKill _ _)) as [e|].
    { unfold issued, add_calls. by destruct e. }
    rewrite bind_assoc. unfold bind at 1.
    rewrite wait_for_exit_cases. cbn [calls add_calls].
    destruct (engine env (calls w ++ [ContainerKill _ _]) (ClientWait _ _))
      as [e|].
    + destruct e; cbn [tolerated];
        try (unfold issued, add_calls; reflexivity).
      rewrite bind_assoc. by rewrite Hrest.
    + rewrite bind_assoc. by rewrite Hrest.
  - unfold bind, ret. by rewrite Hlast.
Qed.

Lemma reclaim_all_issue env (unknown : dict Container) w :
  for_each unknown (fun '(id, container) => Usage.reclaim env container) w
  = issued w (issue env (calls w)
                (concat (map (fun kv => teardown (snd kv)) unknown))).
Proof.
  assert (Hgen : forall w1, out w1 = out w ->
    for_each unknown (fun '(id, container) => Usage.reclaim env container) w1
    = issued w (issue env (calls w1)
                  (concat (map (fun kv => teardown (snd kv)) unknown)))).
  { induction unknown as [|[k c] unknown IH]; intros w1 Hout.
    - unfold issued, ret. destruct w1 as [c o]. simpl in *. by rewrite Hout.
    - cbn [for_each map concat snd]. unfold bind.
      rewrite reclaim_issue, issue_app.
      unfold issued at 1.
      destruct (issue env (calls w1) (teardown c)) as [[e|] h']; simpl.
      + unfold issued. simpl. by rewrite Hout.
      + by rewrite IH. }
  by apply Hgen.
Qed.

Lemma perform_then env c (k : M unit) w :
  (Usage.perform env c ;;; k) w
  = match engine env (calls w) c with
    | Some e => (inl e, add_calls w [c])
    | None => k (add_calls w [c])
    end.
Proof.
  unfold bind. rewrite perform_cases. by destruct (engine env (calls w) c).
Qed.

(** X11.  [up] on any engine.  Once the orphan dictionary stands, [up]
    issues [project.up] and then, if no service was named, the teardown of
    each orphan in turn, and stops at the first call that raises anything
    but a wait's [ReadTimeout]: that exception ends [up], nothing after it
    is issued (the remaining orphans are left as they are), and no status
    view is printed.  Only when every call went through does the status
    view follow. *)
Theorem up_stops_at_first_error env project projectname servicenames w
    c1 c2 services plans unknown :
  project_containers env (calls w) project None true false = inr c1 ->
  project_containers env (calls w) project None false true = inr c2 ->
  get_services env (calls w) project (Some servicenames) true = inr services ->
  get_convergence_plans env (calls w) project services true = inr plans ->
  Usage.forget_planned (Usage.index_by_id (c1 ++ c2)) plans w
    = (inr unknown, w) ->
  let todo :=
    ProjectUp project servicenames true
    :: (if Nat.eqb (length servicenames) 0
        then concat (map (fun kv => teardown (snd kv)) unknown)
        else []) in
  match issue env (calls w) todo with
  | (None, h) =>
      h = calls w ++ todo
      /\ Usage.up env project projectname servicenames w
         = Usage.ps env project projectname servicenames
             {| calls := h; out := out w |}
  | (Some e, h) =>
      Usage.up env project projectname servicenames w
      = (inl e, {| calls := h; out := out w |})
      /\ exists before last rest,
           todo = before ++ last :: rest
           /\ h = calls w ++ before ++ [last]
           /\ engine env (calls w ++ before) last = Some e
           /\ tolerated last e = false
  end.
Proof.
  intros H1 H2 H3 H4 Hf todo.
  rewrite forget_planned_run in Hf.
  destruct (dict_del_all _ _) as [k|d] eqn:Hd; simpl in Hf; [congruence |].
  assert (d = unknown) as -> by congruence. clear Hf.
  assert (Hrun : Usage.up env project projectname servicenames w
    = match issue env (calls w) todo with
      | (None, h) =>
          Usage.ps env project projectname servicenames
            {| calls := h; out := out w |}
      | (Some e, h) => (inl e, {| calls := h; out := out w |})
      end).
  { rewrite (up_run _ _ _ _ _ _ _ _ _ H1 H2 H3 H4), Hd.
    unfold up_apply, todo. rewrite perform_then. cbn [issue tolerated].
    destruct (engine env (calls w) (ProjectUp project servicenames true))
      as [e|]; [done |].
    unfold bind. destruct (Nat.eqb (length servicenames) 0).
    - rewrite reclaim_all_issue. unfold issued. cbn [calls add_calls out].
      by destruct (issue env _ _) as [[e|] h].
    - by unfold ret. }
  pose proof (issue_spec env todo (calls w)) as Hspec.
  destruct (issue env (calls w) todo) as [[e|] h]; done.
Qed.

Lemma up_stops_at_first_error_witness :
  let todo :=
    ProjectUp demo_project [] true
    :: (if Nat.eqb (length (@nil string)) 0
        then concat (map (fun kv => teardown (snd kv))
                       [("o1", web_old_1); ("t1", web_tmp_1)])
        else []) in
  match issue demo_env (calls w0) todo with
  | (None, h) =>
      h = calls w0 ++ todo
      /\ Usage.up demo_env demo_project "web" [] w0
         = Usage.ps demo_env demo_project "web" []
             {| calls := h; out := out w0 |}
  | (Some e, h) =>
      Usage.up demo_env demo_project "web" [] w0
      = (inl e, {| calls := h; out := out w0 |})
      /\ exists before last rest,
           todo = before ++ last :: rest
           /\ h = calls w0 ++ before ++ [last]
           /\ engine demo_env (calls w0 ++ before) last = Some e
           /\ tolerated last e = false
  end.
Proof.
  apply (up_stops_at_first_error demo_env demo_project "web" [] w0
           [web_app_1; web_old_1; web_tmp_1] []
           [ {| service_name := "app" |}; {| service_name := "db" |} ]
           demo_plans [("o1", web_old_1); ("t1", web_tmp_1)]);
    reflexivity.
Defined.

(** X12.  The lifecycle commands issue their project-level calls in a fixed
    order ([cull]: kill with SIGTERM, stop, remove stopped; [down]: kill,
    stop) and end at the first call that raises: the later calls are not
    issued and nothing is printed.  [kill], [rm], [down], [cull] and
    [recreate] print the status view once all their calls went through;
    [build], [rebuild] and [pull] print nothing. *)
Theorem lifecycle_stops_at_first_error env command handle project projectname
    servicenames w :
  Usage.getattr env command = Some (Usage.Handler handle) ->
  lifecycle_calls command project servicenames <> [] ->
  let todo := lifecycle_calls command project servicenames in
  match issue env (calls w) todo with
  | (None, h) =>
      h = calls w ++ todo
      /\ handle project projectname servicenames w
         = if prints_status command
           then Usage.ps env project projectname servicenames
                  {| calls := h; out := out w |}
           else (inr tt, {| calls := h; out := out w |})
  | (Some e, h) =>
      handle project projectname servicenames w
      = (inl e, {| calls := h; out := out w |})
      /\ exists before last rest,
           todo = before ++ last :: rest
           /\ h = calls w ++ before ++ [last]
           /\ engine env (calls w ++ before) last = Some e
  end.
Proof.
  intros Hh Hne todo.
  assert (Hrun : handle project projectname servicenames w
    = match issue env (calls w) todo with
      | (None, h) =>
          if prints_status command
          then Usage.ps env project projectname servicenames
                 {| calls := h; out := out w |}
          else (inr tt, {| calls := h; out := out w |})
      | (Some e, h) => (inl e, {| calls := h; out := out w |})
      end).
  { unfold todo, lifecycle_calls, prints_status in *.
    unfold Usage.getattr in Hh.
    repeat match type of Hh with
    | context [String.eqb command ?s] =>
        destruct (String.eqb_spec command s) as [->|_]
    end;
    try discriminate Hh; try (exfalso; by apply Hne);
    injection Hh as <-; cbn [String.eqb Ascii.eqb Bool.eqb orb negb issue tolerated];
    simpl.
    all: unfold Usage.build, Usage.rebuild, Usage.kill, Usage.pull, Usage.rm,
           Usage.down, Usage.cull, Usage.recreate;
         rewrite ?perform_cases, ?perform_then;
         repeat (cbn [calls add_calls];
                 match goal with
                 | |- context [engine ?E ?h ?c] =>
                     destruct (engine E h c); [reflexivity |]
                 end;
                 rewrite ?perform_cases, ?perform_then);
         try reflexivity. }
  pose proof (issue_spec env todo (calls w)) as Hspec.
  destruct (issue env (calls w) todo) as [[e|] h]; [| done].
  split; [done |].
  destruct Hspec as (before & last & rest & ? & ? & ? & _). eauto 6.
Qed.

Lemma lifecycle_stops_at_first_error_witness :
  let todo := lifecycle_calls "cull" demo_project [] in
  match issue demo_env (calls w0) todo with
  | (None, h) =>
      h = calls w0 ++ todo
      /\ Usage.cull demo_env demo_project "web" [] w0
         = if prints_status "cull"
           then Usage.ps demo_env demo_project "web" []
                  {| calls := h; out := out w0 |}
           else (inr tt, {| calls := h; out := out w0 |})
  | (Some e, h) =>
      Usage.cull demo_env demo_project "web" [] w0
      = (inl e, {| calls := h; out := out w0 |})
      /\ exists before last rest,
           todo = before ++ last :: rest
           /\ h = calls w0 ++ before ++ [last]
           /\ engine demo_env (calls w0 ++ before) last = Some e
  end.
Proof.
  apply (lifecycle_stops_at_first_error demo_env "cull" (Usage.cull demo_env)
           demo_project "web" [] w0).
  - reflexivity.
  - discriminate.
Defined.

(** ** Counting states *)

Lemma dict_get_set_eq {V} (d : dict V) k v : dict_get (dict_set d k v) k = Some v.
Proof.
  induction d as [|[k' v'] d IH]; simpl.
  - by rewrite String.eqb_refl.
  - destruct (String.eqb_spec k' k) as [->|Hne]; simpl.
    + by rewrite String.eqb_refl.
    + by rewrite (proj2 (String.eqb_neq k' k) Hne).
Qed.

Lemma dict_get_set_ne {V} (d : dict V) k k' v :
  k <> k' -> dict_get (dict_set d k v) k' = dict_get d k'.
Proof.
  intros Hne. induction d as [|[k0 v0] d IH]; simpl.
  - by rewrite (proj2 (String.eqb_neq k k') Hne).
  - destruct (String.eqb_spec k0 k) as [->|Hne0]; simpl.
    + by rewrite (proj2 (String.eqb_neq k k') Hne).
    + by rewrite IH.
Qed.

Lemma dict_get_None {V} (d : dict V) k : dict_get d k = None <-> k ∉ dict_keys d.
Proof.
  induction d as [|[k' v] d IH]; simpl.
  - split; [intros _; apply not_elem_of_nil | done].
  - destruct (String.eqb_spec k' k) as [->|Hne].
    + split; [done |]. intros H. exfalso. apply H. left.
    + rewrite IH, not_elem_of_cons. split; [| tauto]. intros ?. split; congruence.
Qed.

Lemma count_state_get_eq counts s :
  dict_get (Usage.count_state counts s) s
  = Some (match dict_get counts s with
          | Some n => (n + 1)%N
          | None => 1%N
          end).
Proof.
  unfold Usage.count_state. destruct (dict_get counts s) as [n|] eqn:E.
  - by rewrite E, dict_get_set_eq.
  - by rewrite !dict_get_set_eq.
Qed.

Lemma count_state_get_ne counts s s' :
  s <> s' -> dict_get (Usage.count_state counts s) s' = dict_get counts s'.
Proof.
  intros Hne. unfold Usage.count_state.
  destruct (dict_get counts s) as [n|] eqn:E.
  - by rewrite E, dict_get_set_ne.
  - by rewrite dict_get_set_eq, !dict_get_set_ne.
Qed.

Lemma count_state_keys_NoDup counts s :
  NoDup (dict_keys counts) -> NoDup (dict_keys (Usage.count_state counts s)).
Proof.
  intros H. unfold Usage.count_state.
  destruct (dict_get counts s) as [n|] eqn:E.
  - rewrite E. by apply dict_set_keys_NoDup.
  - rewrite dict_get_set_eq. by do 2 apply dict_set_keys_NoDup.
Qed.

Lemma tally_acc states (acc : dict N) s :
  dict_get (fold_left Usage.count_state states acc) s
  = match dict_get acc s, occurrences s states with
    | None, 0 => None
    | None, n => Some (N.of_nat n)
    | Some m, n => Some (m + N.of_nat n)%N
    end.
Proof.
  unfold occurrences. revert acc.
  induction states as [|s0 states IH]; intros acc; simpl.
  - destruct (dict_get acc s) as [m|]; [| done]. f_equal. lia.
  - rewrite IH. destruct (String.eqb_spec s s0) as [<-|Hne].
    + rewrite count_state_get_eq. simpl length.
      destruct (dict_get acc s) as [m|]; f_equal; lia.
    + rewrite count_state_get_ne by congruence. done.
Qed.

(** X13.  The counting of lines 166-173 is a tally: after a run of states
    has been counted into an empty dictionary, a state that occurred [n]
    times is mapped to [n], a state that did not occur has no entry, and
    no state has two entries.  In particular the guarded [counts[state] +=
    1] never meets a missing key. *)
Theorem count_state_tallies (states : list string) (s : string) :
  let counts := fold_left Usage.count_state states ([] : dict N) in
  dict_get counts s
  = (if Nat.eqb (occurrences s states) 0 then None
     else Some (N.of_nat (occurrences s states)))
  /\ (s ∈ dict_keys counts <-> s ∈ states)
  /\ NoDup (dict_keys counts).
Proof.
  intros counts.
  assert (Hget : dict_get counts s
                 = (if Nat.eqb (occurrences s states) 0 then None
                    else Some (N.of_nat (occurrences s states)))).
  { unfold counts. rewrite tally_acc. simpl.
    by destruct (occurrences s states). }
  split; [exact Hget |]. split.
  - assert (Hocc : occurrences s states <> 0 <-> s ∈ states).
    { unfold occurrences. clear. induction states as [|s0 states IH]; simpl.
      - split; [done | intros H; by apply not_elem_of_nil in H].
      - destruct (String.eqb_spec s s0) as [<-|Hne]; simpl.
        + split; [intros _; left | done].
        + rewrite IH, elem_of_cons. split; [auto | intros [?|?]; done]. }
    rewrite <- Hocc. split.
    + intros Hin Hz. rewrite Hz in Hget. simpl in Hget.
      apply dict_get_None in Hget. done.
    + intros Hnz. destruct (decide (s ∈ dict_keys counts)) as [|Hn]; [done |].
      apply dict_get_None in Hn. rewrite Hn in Hget.
      destruct (occurrences s states); [done | discriminate Hget].
  - assert (Hgen : forall acc : dict N,
      NoDup (dict_keys acc) ->
      NoDup (dict_keys (fold_left Usage.count_state states acc))).
    { clear. induction states as [|s0 states IH]; intros acc Hacc; simpl;
        [done |].
      apply IH. by apply count_state_keys_NoDup. }
    apply Hgen. constructor.
Qed.

(** ** The inventory dictionary, looked up *)

Lemma find_app {A} (f : A -> bool) l1 l2 :
  List.find f (l1 ++ l2)
  = match List.find f l1 with
    | Some x => Some x
    | None => List.find f l2
    end.
Proof.
  induction l1 as [|x l1 IH]; simpl; [done |]. by destruct (f x).
Qed.

Lemma index_by_id_get_acc (containers : list Container) (acc : dict Container)
    id :
  dict_get (fold_left (fun unknown container =>
                         dict_set unknown (container_id container) container)
              containers acc) id
  = match List.find (fun c => String.eqb (container_id c) id)
            (rev containers) with
    | Some c => Some c
    | None => dict_get acc id
    end.
Proof.
  revert acc. induction containers as [|c cs IH]; intros acc; simpl; [done |].
  rewrite IH, find_app.
  destruct (find _ (rev cs)) as [c'|]; [done |]. simpl.
  destruct (String.eqb_spec (container_id c) id) as [<-|Hne].
  - apply dict_get_set_eq.
  - by apply dict_get_set_ne.
Qed.

(** X14.  Looking a container up in the inventory dictionary: an id that
    was queried is found, and what is found is the last queried container
    with that id (a later one replaces an earlier one); an id that was not
    queried is not found. *)
Theorem inventory_lookup (containers : list Container) (id : string) :
  match dict_get (Usage.index_by_id containers) id with
  | Some c =>
      container_id c = id
      /\ exists before after,
           containers = before ++ c :: after
           /\ id ∉ map container_id after
  | None => id ∉ map container_id containers
  end.
Proof.
  unfold Usage.index_by_id. rewrite index_by_id_get_acc. simpl.
  induction containers as [|c cs IH] using rev_ind; simpl.
  - apply not_elem_of_nil.
  - rewrite rev_app_distr. simpl.
    destruct (String.eqb_spec (container_id c) id) as [Heq|Hne].
    + split; [done |]. exists cs, []. split; [done | apply not_elem_of_nil].
    + destruct (find _ (rev cs)) as [c'|].
      * destruct IH as (Hid & before & after & -> & Hafter).
        split; [done |]. exists before, (after ++ [c]).
        split; [by rewrite <- app_assoc |].
        rewrite map_app. intros Hin. apply elem_of_app in Hin as [?|Hin];
          [done |]. apply list_elem_of_singleton in Hin. congruence.
      * rewrite map_app. intros Hin. apply elem_of_app in Hin as [?|Hin];
          [done |]. apply list_elem_of_singleton in Hin. congruence.
Qed.

(** ** The summary lines of the bare [ps] *)

Lemma dict_get_elem {V} (d : dict V) s n :
  NoDup (dict_keys d) -> (s, n) ∈ d -> dict_get d s = Some n.
Proof.
  induction d as [|[k v] d IH]; intros Hnd Hin.
  - by apply not_elem_of_nil in Hin.
  - apply NoDup_cons in Hnd as [Hk Hnd]. simpl.
    apply elem_of_cons in Hin as [Heq|Hin].
    + injection Heq as -> ->. by rewrite String.eqb_refl.
    + destruct (String.eqb_spec k s) as [->|_]; [| by apply IH].
      exfalso. apply Hk. by apply (list_elem_of_fmap_2 fst _ (s, n)).
Qed.


Lemma occurrences_elem s states : occurrences s states <> 0 <-> s ∈ states.
Proof.
  unfold occurrences. induction states as [|s0 states IH]; simpl.
  - split; [done | intros H; by apply not_elem_of_nil in H].
  - destruct (String.eqb_spec s s0) as [<-|Hne]; simpl.
    + split; [intros _; left | done].
    + rewrite IH, elem_of_cons. split; [auto | intros [?|?]; done].
Qed.
















(** A project whose states repeat: the tallies come in the order in which
    the states first appeared. *)
Example tally_line_demo :
  tally_line "web" ["Up"; "Exit 0"; "Up"; "Uncreated"; "Exit 0"; "Up"]
  = "  web                     3 Up,2 Exit 0,1 Uncreated".
Proof. reflexivity. Qed.

(** ** The untracked containers of the bare [ps] *)

Lemma inspect_all_values env (ids : list string) (acc : dict Detail) w :
  Forall (fun id => exists d, inspect_container env (calls w) id = inr d) ids ->
  NoDup (dict_keys acc) ->
  Forall (fun kv => inspect_container env (calls w) (fst kv) = inr (snd kv))
    acc ->
  exists d0,
    for_fold ids acc (fun unknown Id =>
      detail <- query (fun h => inspect_container env h Id) ;;
      ret (dict_set unknown Id detail)) w = (inr d0, w)
    /\ NoDup (dict_keys d0)
    /\ (forall k, k ∈ dict_keys d0 <-> k ∈ dict_keys acc \/ k ∈ ids)
    /\ Forall (fun kv => inspect_container env (calls w) (fst kv)
                         = inr (snd kv)) d0.
Proof.
  intros Hq. revert acc.
  induction Hq as [|id ids [d Hd] _ IH]; intros acc Hnd Hacc.
  - exists acc. split; [done |]. split; [done |]. split; [| done]. intros k.
    split; [auto |]. intros [?|H]; [done | by apply not_elem_of_nil in H].
  - destruct (IH (dict_set acc id d)) as (d0 & Hrun & Hnd0 & Hk & Hv).
    { by apply dict_set_keys_NoDup. }
    { apply dict_set_Forall; [done | done |]. intros k' v' _ ->. done. }
    exists d0. split; [| split; [done |]; split; [| done]].
    + simpl. unfold bind at 1, bind at 1, query. rewrite Hd. exact Hrun.
    + intros k. rewrite Hk, dict_set_keys_elem, elem_of_cons. tauto.
Qed.

Lemma ps_projects_lines env projectnames (unknown u : dict Detail) w cs :
  projects_listing env (calls w) projectnames = inr cs ->
  dict_del_all unknown (map container_id cs) = inr u ->
  exists lines,
    length lines = length projectnames
    /\ for_fold projectnames unknown (Usage._ps_project env) w
       = (inr u, add_out w lines).
Proof.
  revert unknown w cs.
  induction projectnames as [|pn pns IH]; intros unknown w cs H Hd.
  - injection H as <-. injection Hd as <-. exists []. by rewrite add_out_nil.
  - simpl in H.
    destruct (project_listing env (calls w) pn) as [e|cs1] eqn:H1; [done |].
    destruct (projects_listing env (calls w) pns) as [e|cs2] eqn:H2; [done |].
    injection H as <-. rewrite map_app, dict_del_all_app in Hd.
    pose proof (ps_project_run env unknown pn w cs1 H1) as Hp.
    destruct (dict_del_all unknown (map container_id cs1)) as [k|u1]; [done |].
    destruct Hp as [line Hp].
    destruct (IH u1 (add_out w [line]) cs2 H2 Hd) as (lines & Hlen & Hrun).
    exists (line :: lines). split; [simpl; by rewrite Hlen |].
    cbn [for_fold]. unfold bind at 1. by rewrite Hp, Hrun, add_out_app.
Qed.

Lemma ps_tail_explicit (unknown : dict Detail) w :
  ((if negb (Nat.eqb (length unknown) 0) then
      print "" ;;;
      print "  Containers not tracked by compose/tugboat:" ;;;
      print ""
    else ret tt) ;;;
   for_each unknown (fun '(key, detail) => Usage._ps_unknown detail) ;;;
   print "") w
  = (inr tt,
     add_out w
       (match unknown with
        | [] => []
        | _ => [""; "  Containers not tracked by compose/tugboat:"; ""]
        end ++ map untracked_row unknown ++ [""])).
Proof.
  assert (Hrows : forall w1,
    for_each unknown (fun '(key, detail) => Usage._ps_unknown detail) w1
    = (inr tt, add_out w1 (map untracked_row unknown))).
  { intros w1.
    rewrite (for_each_ext unknown _ (fun x => print (untracked_row x)))
      by (by intros [? ?]).
    apply print_rows_run. }
  destruct unknown as [|item unknown].
  - reflexivity.
  - cbn [length Nat.eqb negb].
    unfold bind at 1. unfold bind at 1. rewrite print_run.
    unfold bind at 1. rewrite !print_run.
    unfold bind. rewrite Hrows, print_run, !add_out_app. reflexivity.
Qed.

(** X16.  The last section of the bare [ps]: when every query answers and
    the deletions go through, the containers listed as not tracked are
    exactly the engine's containers that no service of any project in the
    directory owns, each once, each shown with the name and address the
    engine reports for it (without the leading slash, [(host)] for an empty
    address); the section heading is printed only if there is such a
    container, and one summary line per project precedes it. *)
Theorem untracked_section env w ids cs :
  docker_client env (calls w) = None ->
  client_containers env (calls w) true = inr ids ->
  Forall (fun id => exists d, inspect_container env (calls w) id = inr d) ids ->
  projects_listing env (calls w) (Usage._get_projectnames_in_dir env) = inr cs ->
  NoDup (map container_id cs) -> map container_id cs ⊆ ids ->
  exists (rest : dict Detail) (summaries : list string),
    NoDup (dict_keys rest)
    /\ (forall id, id ∈ dict_keys rest <->
                   id ∈ ids /\ id ∉ map container_id cs)
    /\ Forall (fun kv => inspect_container env (calls w) (fst kv)
                         = inr (snd kv)) rest
    /\ length summaries = length (Usage._get_projectnames_in_dir env)
    /\ Usage._ps env w
       = (inr tt,
          add_out w
            (match summaries with [] => [] | _ => [""] end
             ++ summaries
             ++ match rest with
                | [] => []
                | _ => [""; "  Containers not tracked by compose/tugboat:"; ""]
                end
             ++ map untracked_row rest ++ [""])).
Proof.
  intros H0 H1 H2 H3 Hnd Hsub.
  destruct (inspect_all_values env ids [] w H2) as (d0 & Hd0 & Hnd0 & Hk & Hv);
    [constructor | constructor |].
  assert (Hok : exists u, dict_del_all d0 (map container_id cs) = inr u).
  { apply (dict_del_all_ok d0 _ Hnd0). split; [done |].
    intros x Hx. apply Hk. right. by apply Hsub. }
  destruct Hok as [u Hu].
  destruct (dict_del_all_inr _ _ _ Hnd0 Hu) as (_ & _ & Hrest).
  exists u.
  set (names := Usage._get_projectnames_in_dir env) in *.
  assert (Hrun : forall w1, calls w1 = calls w ->
    exists summaries,
      length summaries = length names
      /\ for_fold names d0 (Usage._ps_project env) w1
         = (inr u, add_out w1 summaries)).
  { intros w1 Hw1. apply (ps_projects_lines env names d0 u w1 cs);
      [by rewrite Hw1 | done]. }
  destruct (Hrun (add_out w (match names with [] => [] | _ => [""] end)))
    as (summaries & Hlen & Hp); [done |].
  exists summaries. split; [| split; [| split; [| split; [done |]]]].
  - rewrite Hrest. by apply dict_without_NoDup.
  - intros id. rewrite Hrest, dict_without_keys, Hk. split.
    + intros [[Hin|?] ?]; [by apply not_elem_of_nil in Hin | done].
    + intros [? ?]. auto.
  - rewrite Hrest. apply Forall_forall. intros kv Hin.
    apply list_elem_of_In, filter_In in Hin as [Hin _].
    rewrite Forall_forall in Hv. apply Hv. by apply list_elem_of_In.
  - unfold Usage._ps. fold names. unfold bind at 1, check at 1. rewrite H0.
    unfold bind at 1, query at 1. rewrite H1.
    unfold bind at 1. rewrite Hd0. unfold bind at 1.
    assert (Hfirst :
      (if negb (Nat.eqb (length names) 0) then print "" else ret tt) w
      = (inr tt, add_out w (match names with [] => [] | _ => [""] end))).
    { destruct names; simpl; [by rewrite add_out_nil | done]. }
    rewrite Hfirst. unfold bind at 1. rewrite Hp.
    rewrite ps_tail_explicit, !add_out_app.
    assert (Hs : match summaries with [] => [] | _ => [""] end
                 = match names with [] => @nil string | _ => [""] end).
    { destruct summaries, names; simpl in Hlen; done. }
    by rewrite Hs.
Qed.

Lemma untracked_section_witness :
  exists (rest : dict Detail) (summaries : list string),
    NoDup (dict_keys rest)
    /\ (forall id, id ∈ dict_keys rest <->
                   id ∈ ["a1"; "x9"] /\ id ∉ map container_id [web_app_1])
    /\ Forall (fun kv => inspect_container demo_env (calls w0) (fst kv)
                         = inr (snd kv)) rest
    /\ length summaries = length (Usage._get_projectnames_in_dir demo_env)
    /\ Usage._ps demo_env w0
       = (inr tt,
          add_out w0
            (match summaries with [] => [] | _ => [""] end
             ++ summaries
             ++ match rest with
                | [] => []
                | _ => [""; "  Containers not tracked by compose/tugboat:"; ""]
                end
             ++ map untracked_row rest ++ [""])).
Proof.
  apply (untracked_section demo_env w0 ["a1"; "x9"] [web_app_1]).
  - reflexivity.
  - reflexivity.
  - repeat constructor; eexists; reflexivity.
  - reflexivity.
  - apply NoDup_singleton.
  - intros x Hx. apply list_elem_of_singleton in Hx as ->. left.
Defined.

(** ** Two files, one project *)

Lemma projects_listing_app env h names1 names2 cs :
  projects_listing env h (names1 ++ names2) = inr cs ->
  exists cs1 cs2,
    projects_listing env h names1 = inr cs1
    /\ projects_listing env h names2 = inr cs2
    /\ cs = cs1 ++ cs2.
Proof.
  revert cs. induction names1 as [|pn names1 IH]; intros cs H.
  - exists [], cs. done.
  - simpl in H. simpl.
    destruct (project_listing env h pn) as [e|lp]; [done |].
    destruct (projects_listing env h (names1 ++ names2)) as [e|cr] eqn:E;
      [done |].
    injection H as <-. destruct (IH cr eq_refl) as (cs1 & cs2 & -> & -> & ->).
    exists (lp ++ cs1), cs2. by rewrite app_assoc.
Qed.

(** X17.  A project name the directory yields twice (as [web.yml] and
    [web.yaml] do, both cleaning to [web]) is processed twice by the bare
    [ps]: when the project has a container, the second pass deletes an id
    the first pass already deleted, and [ps] ends in [KeyError]. *)
Theorem twice_listed_project_raises env w ids cs
    names1 names2 names3 projectname c lp :
  docker_client env (calls w) = None ->
  client_containers env (calls w) true = inr ids ->
  Forall (fun id => exists d, inspect_container env (calls w) id = inr d) ids ->
  Usage._get_projectnames_in_dir env
    = names1 ++ projectname :: names2 ++ projectname :: names3 ->
  projects_listing env (calls w) (Usage._get_projectnames_in_dir env) = inr cs ->
  project_listing env (calls w) projectname = inr (c :: lp) ->
  exists k lines, Usage._ps env w = (inl (KeyError k), add_out w lines).
Proof.
  intros H0 H1 H2 Hnames H3 Hp.
  apply (bare_ps_run env w ids cs H0 H1 H2 H3).
  intros [Hnd _]. rewrite Hnames in H3.
  apply projects_listing_app in H3 as (cs1 & cs2 & _ & H3 & ->).
  simpl in H3. rewrite Hp in H3.
  destruct (projects_listing env (calls w) (names2 ++ projectname :: names3))
    as [e|cr] eqn:E; [done |].
  injection H3 as <-.
  apply projects_listing_app in E as (cs3 & cs4 & _ & E & ->).
  simpl in E. rewrite Hp in E.
  destruct (projects_listing env (calls w) names3) as [e|cs5]; [done |].
  injection E as <-.
  rewrite !map_app in Hnd. apply NoDup_app in Hnd as (_ & _ & Hnd).
  simpl in Hnd. apply NoDup_cons in Hnd as [Hc _]. apply Hc.
  rewrite !map_app. simpl. rewrite !elem_of_app, elem_of_cons. auto.
Qed.

Lemma twice_listed_project_raises_witness :
  exists k lines, Usage._ps twin_env w0 = (inl (KeyError k), add_out w0 lines).
Proof.
  apply (twice_listed_project_raises twin_env w0 ["a1"; "x9"]
           [web_app_1; web_app_1] [] [] [] "web" web_app_1 []).
  - reflexivity.
  - reflexivity.
  - repeat constructor; eexists; reflexivity.
  - reflexivity.
  - reflexivity.
  - reflexivity.
Defined.

(** The run on the twin directory: the first pass prints its summary, the
    second raises on [a1]. *)
Example twin_directory_demo :
  main twin_env ["ps"] w0
  = (inl (KeyError "a1"),
     add_out w0 [""; "  web                     1 Up,1 Uncreated"]).
Proof. reflexivity. Qed.

(** ** [diff] as a rehearsal of [up] *)

(** X18.  [diff] rehearses the planning of [up]: when the queries answer
    alike, a [KeyError] out of [diff] is the [KeyError] [up] raises, on the
    same id and before anything is applied, and a [diff] that completes
    means that [up] gets as far as applying the plans. *)
Theorem diff_rehearses_up env project projectname servicenames w
    c1 c2 services plans :
  project_containers env (calls w) project None true false = inr c1 ->
  project_containers env (calls w) project None false true = inr c2 ->
  get_services env (calls w) project (Some servicenames) true = inr services ->
  get_convergence_plans env (calls w) project services true = inr plans ->
  match fst (Usage.diff env project projectname servicenames w) with
  | inl e =>
      exists k, e = KeyError k
                /\ Usage.up env project projectname servicenames w
                   = (inl (KeyError k), w)
  | inr _ =>
      exists after,
        calls (snd (Usage.up env project projectname servicenames w))
        = calls w ++ ProjectUp project servicenames true :: after
  end.
Proof.
  intros H1 H2 H3 H4.
  pose proof (diff_run env project projectname servicenames w _ _ _ _
                H1 H2 H3 H4) as Hdiff.
  pose proof (up_run env project projectname servicenames w _ _ _ _
                H1 H2 H3 H4) as Hup.
  simpl in Hdiff.
  destruct (dict_del_all (Usage.index_by_id (c1 ++ c2)) (planned_ids plans))
    as [k|unknown] eqn:Hd.
  - destruct Hdiff as [n ->]. simpl. eauto.
  - rewrite Hdiff. simpl. rewrite Hup.
    destruct (dict_del_all_inr _ _ _ (index_by_id_NoDup (c1 ++ c2)) Hd)
      as (_ & _ & Hu).
    destruct (up_apply env project projectname servicenames unknown w)
      as [r w'] eqn:E.
    apply up_apply_calls in E as (after & Hc & _); [eauto |].
    rewrite Hu. apply dict_without_ids, index_by_id_ids.
Qed.

Lemma diff_rehearses_up_witness :
  match fst (Usage.diff stale_env demo_project "web" [] w0) with
  | inl e =>
      exists k, e = KeyError k
                /\ Usage.up stale_env demo_project "web" [] w0
                   = (inl (KeyError k), w0)
  | inr _ =>
      exists after,
        calls (snd (Usage.up stale_env demo_project "web" [] w0))
        = calls w0 ++ ProjectUp demo_project [] true :: after
  end.
Proof.
  apply (diff_rehearses_up stale_env demo_project "web" [] w0
           [web_app_1; web_old_1; web_tmp_1] []
           [ {| service_name := "app" |}; {| service_name := "db" |} ]
           [("app", {| plan_action := "recreate";
                       plan_containers :=
                         [web_app_1;
                          mk_container "zz" "web_app_2" "app_2" true "Up" ""] |})]);
    reflexivity.
Defined.

Lemma projectnames_from_directory_witness :
  "web" ∈ Usage._get_projectnames_in_dir demo_env.
Proof.
  apply (projectnames_from_directory demo_env "web").
  exists "web.yml". split; [left |]. split; [by right |].
  split; [reflexivity | by left].
Defined.

(** *** Setting a command up *)

(** X19.  A command is set up in three steps before its handler runs: the
    docker client is created, the project file [<cwd>/<PROJECT>.yml] is
    loaded, the project is built from it.  The first step that raises ends
    [Usage()] with its exception: the later steps are not consulted, the
    handler is not entered, nothing is printed by [Usage()] and no engine
    call is issued, by [main] either. *)
Theorem setup_failure_skips_handler env argv command projectname servicenames
    w e :
  docopt env argv = inr (OptCommand command projectname servicenames) ->
  command ∈ handler_names ->
  let filename := abspath (getcwd env) (projectname +:+ ".yml") in
  (docker_client env (calls w) = Some e
   \/ (docker_client env (calls w) = None
       /\ config_load env (calls w) filename = inl e)
   \/ (exists config,
         docker_client env (calls w) = None
         /\ config_load env (calls w) filename = inr config
         /\ from_dicts env (calls w) projectname config = Some e)) ->
  Usage.__init__ env argv w = (inl e, w)
  /\ calls (snd (main env argv w)) = calls w.
Proof.
  intros Hd Hin filename Hfail.
  destruct (getattr_handler env command Hin) as [handle Hh].
  assert (Hinit : Usage.__init__ env argv w = (inl e, w)).
  { destruct Hfail as [Hc | [[Hc Hl] | (config & Hc & Hl & Hp)]].
    - rewrite (init_handler _ _ _ _ _ _ _ Hd Hh).
      unfold bind at 1, check at 1. by rewrite Hc.
    - rewrite (init_command _ _ _ _ _ _ _ Hd Hh Hc).
      fold filename. by rewrite Hl.
    - rewrite (init_command _ _ _ _ _ _ _ Hd Hh Hc).
      fold filename. by rewrite Hl, Hp. }
  split; [exact Hinit |].
  by rewrite main_calls, Hinit.
Qed.

Lemma setup_failure_skips_handler_witness :
  Usage.__init__ demo_env ["up"; "web.yml"] w0
  = (inl (ConfigurationError "No such file: /srv/web.yml.yml"), w0)
  /\ calls (snd (main demo_env ["up"; "web.yml"] w0)) = calls w0.
Proof.
  apply (setup_failure_skips_handler demo_env ["up"; "web.yml"] "up" "web.yml"
           [] w0).
  - reflexivity.
  - apply list_elem_of_In; simpl; tauto.
  - right; left. split; reflexivity.
Defined.
